(** * whatnot-reviews: the review extraction pipeline

    A shallow embedding of the three scripts of the repository

    - [fetch-whatnot-reviews.mjs]: network JSON scan with a DOM fallback,
    - [part_000]: the simplest DOM block parser,
    - [part_001]: the "see more" anchor strategy with a block fallback,

    and the properties of their pure cores.  The browser (Playwright) is
    outside: a run receives the captured JSON payloads and the rendered
    document as data.

    Conventions of the model.
    - A JavaScript string is the list of its UTF-16 code units.
    - A JavaScript number is kept as the decimal it was read from
      ([Dec m e] is [m * 10^e]); this agrees with binary64 for every
      decimal of at most 15 significant digits in the double range, which
      covers every rating token of a page.  Outside it the model keeps
      the exact decimal where the script rounds, or overflows to
      [Infinity]; negative zero is not told from zero.
    - [toLowerCase] has the length and the ASCII units of the real result;
      the scripts compare lowered strings with ASCII terms only.
    - An exception thrown by the script is [None]. *)

From Stdlib Require Import ZArith NArith List Lia Bool String Ascii.
From stdpp Require Import base list gmap.

Set Warnings "-register-all".

Local Open Scope N_scope.

(** ** Strings *)

(** A literal.  Every literal of the development is ASCII. *)
Definition str (s : string) : list N := map N_of_ascii (list_ascii_of_string s).

Module Js.

(** [\s] of a regular expression and the characters [trim] removes:
    WhiteSpace and LineTerminator of ECMA-262. *)
Definition is_space (c : N) : bool :=
  ((9 <=? c) && (c <=? 13)) || (c =? 32) || (c =? 160) || (c =? 5760)
  || ((8192 <=? c) && (c <=? 8202)) || (c =? 8232) || (c =? 8233)
  || (c =? 8239) || (c =? 8287) || (c =? 12288) || (c =? 65279).

(** [\d]. *)
Definition is_digit (c : N) : bool := (48 <=? c) && (c <=? 57).

(** [[0-5]]. *)
Definition is_digit05 (c : N) : bool := (48 <=? c) && (c <=? 53).

(** [\w], which is also [[a-z0-9_]] under the [i] flag. *)
Definition is_word (c : N) : bool :=
  is_digit c || ((65 <=? c) && (c <=? 90)) || (c =? 95)
  || ((97 <=? c) && (c <=? 122)).

(** Case folding of a regular expression with the [i] flag and without the
    [u] flag, as far as it can relate a character to an ASCII one. *)
Definition fold_case (c : N) : N :=
  if (65 <=? c) && (c <=? 90) then c + 32 else c.

(** The lower case of a code unit that lowers to one unit: exact on Basic
    Latin and Latin-1 and on the Kelvin and Angstrom signs, the other units
    with a Latin lower case.  A letter of another script is left as it is:
    its lower case is another unit that is not ASCII either, so no test of
    the scripts, all against ASCII terms, tells the two apart. *)
Definition lower_unit (c : N) : N :=
  if (65 <=? c) && (c <=? 90) then c + 32
  else if (192 <=? c) && (c <=? 222) && negb (c =? 215) then c + 32
  else if c =? 8490 then 107
  else if c =? 8491 then 229
  else c.

(** [s.toLowerCase()]: unit by unit, but for U+0130, the one unit whose
    lower case has two units (i and U+0307); so the result has the length
    and the ASCII units of the real one. *)
Definition toLowerCase (s : list N) : list N :=
  flat_map (fun c => if c =? 304 then [105; 775] else [lower_unit c]) s.

Fixpoint take_while (p : N -> bool) (s : list N) : list N :=
  match s with
  | c :: r => if p c then c :: take_while p r else []
  | [] => []
  end.

Fixpoint drop_while (p : N -> bool) (s : list N) : list N :=
  match s with
  | c :: r => if p c then drop_while p r else s
  | [] => []
  end.

Definition trimStart (s : list N) : list N := drop_while is_space s.
Definition trimEnd (s : list N) : list N := rev (drop_while is_space (rev s)).
(** [s.trim()] *)
Definition trim (s : list N) : list N := trimEnd (trimStart s).

(** [s.replace(/\s+/g, " ")]: every maximal run of white space becomes one
    space; the run is replaced when its last character is reached. *)
Fixpoint collapse_spaces (s : list N) : list N :=
  match s with
  | [] => []
  | c :: r =>
      if is_space c then
        match r with
        | d :: _ => if is_space d then collapse_spaces r else 32 :: collapse_spaces r
        | [] => [32]
        end
      else c :: collapse_spaces r
  end.

(** Does [s] start with the ASCII pattern [pat], compared as a regular
    expression does: exactly, or up to case with the [i] flag?  The rest of
    [s] is returned. *)
Fixpoint strip_prefix (ci : bool) (pat s : list N) : option (list N) :=
  match pat with
  | [] => Some s
  | p :: pat' =>
      match s with
      | c :: s' =>
          if (if ci then fold_case c =? fold_case p else c =? p)
          then strip_prefix ci pat' s' else None
      | [] => None
      end
  end.

Definition starts_with (ci : bool) (pat s : list N) : bool :=
  match strip_prefix ci pat s with Some _ => true | None => false end.

(** [re.test(s)] for a regular expression without [^]: [m] says whether the
    expression matches at the start of a suffix, and every suffix is tried. *)
Fixpoint search (m : list N -> bool) (s : list N) : bool :=
  m s
  || match s with
     | _ :: r => search m r
     | [] => false
     end.

(** [s.includes(pat)], and [/pat/i.test(s)] for a literal pattern. *)
Definition contains (ci : bool) (pat s : list N) : bool :=
  search (starts_with ci pat) s.

(** [s.indexOf(pat)]: [None] is [-1]. *)
Fixpoint indexOf (pat s : list N) : option nat :=
  if starts_with false pat s then Some 0%nat
  else match s with
       | _ :: r => option_map S (indexOf pat r)
       | [] => None
       end.

(** [s.replace(/pat/gi, "")] for a literal pattern: every occurrence, left
    to right and without overlap, is removed.  [skip] counts the characters
    of the current occurrence that are still to be dropped. *)
Fixpoint remove_all_from (skip : nat) (pat s : list N) : list N :=
  match s with
  | [] => []
  | c :: r =>
      match skip with
      | S k => remove_all_from k pat r
      | O =>
          if starts_with true pat s
          then remove_all_from (length pat - 1) pat r
          else c :: remove_all_from 0 pat r
      end
  end.

Definition remove_all_ci (pat s : list N) : list N := remove_all_from 0 pat s.

End Js.

(** ** Numbers *)

Inductive number :=
| NaN
| Inf (negative : bool)
| Dec (m : Z) (e : Z).

Module Num.

Local Open Scope Z_scope.

Fixpoint uint_units (u : Decimal.uint) : list N :=
  match u with
  | Decimal.Nil => []
  | Decimal.D0 u => 48%N :: uint_units u
  | Decimal.D1 u => 49%N :: uint_units u
  | Decimal.D2 u => 50%N :: uint_units u
  | Decimal.D3 u => 51%N :: uint_units u
  | Decimal.D4 u => 52%N :: uint_units u
  | Decimal.D5 u => 53%N :: uint_units u
  | Decimal.D6 u => 54%N :: uint_units u
  | Decimal.D7 u => 55%N :: uint_units u
  | Decimal.D8 u => 56%N :: uint_units u
  | Decimal.D9 u => 57%N :: uint_units u
  end.

(** The decimal digits of a natural number, most significant first. *)
Definition digits (n : Z) : list N := uint_units (N.to_uint (Z.to_N n)).

(** The number a run of decimal digits denotes. *)
Definition digits_value (ds : list N) : Z :=
  fold_left (fun acc c => 10 * acc + (Z.of_N c - 48)) ds 0.

Definition is_zero_digit (c : N) : bool := (c =? 48)%N.

Definition strip_zeros (ds : list N) : list N :=
  rev (Js.drop_while is_zero_digit (rev ds)).

(** The number [± ds * 10^e], without trailing zeros in its digits. *)
Definition make_dec (neg : bool) (ds : list N) (e : Z) : number :=
  let ds' := strip_zeros ds in
  let m := digits_value ds' in
  if m =? 0 then Dec 0 0
  else Dec (if neg then - m else m) (e + Z.of_nat (length ds) - Z.of_nat (length ds')).

(** ExponentPart of a StrDecimalLiteral: [[eE][+-]?\d+], or nothing. *)
Definition exponent_part (s : list N) : Z :=
  match s with
  | c :: r =>
      if ((c =? 101) || (c =? 69))%N then
        let '(neg, r') :=
          match r with
          | d :: r' =>
              if (d =? 45)%N then (true, r')
              else if (d =? 43)%N then (false, r') else (false, r)
          | [] => (false, r)
          end in
        match Js.take_while Js.is_digit r' with
        | [] => 0
        | ds => if neg then - digits_value ds else digits_value ds
        end
      else 0
  | [] => 0
  end.

(** [parseFloat(s)]: the longest prefix of the trimmed string that is a
    StrDecimalLiteral, [NaN] when there is none.  The decimal is kept as it
    is written: not rounded to binary64, and never [Infinity] by overflow. *)
Definition parseFloat (s : list N) : number :=
  let s := Js.trimStart s in
  let '(neg, s) :=
    match s with
    | c :: r =>
        if (c =? 45)%N then (true, r)
        else if (c =? 43)%N then (false, r) else (false, s)
    | [] => (false, s)
    end in
  if Js.starts_with false (str "Infinity") s then Inf neg
  else
    let ip := Js.take_while Js.is_digit s in
    let s1 := Js.drop_while Js.is_digit s in
    let '(fp, s2) :=
      match s1 with
      | c :: r =>
          if (c =? 46)%N
          then (Js.take_while Js.is_digit r, Js.drop_while Js.is_digit r)
          else ([], s1)
      | [] => ([], s1)
      end in
    match ip ++ fp with
    | [] => NaN
    | ds => make_dec neg ds (exponent_part s2 - Z.of_nat (length fp))
    end.

(** [String(x)], Number::toString of ECMA-262 in radix 10. *)
Definition to_string (x : number) : list N :=
  match x with
  | NaN => str "NaN"
  | Inf neg => (if neg then str "-" else []) ++ str "Infinity"
  | Dec m e =>
      let ds0 := digits (Z.abs m) in
      let ds := strip_zeros ds0 in
      if m =? 0 then str "0"
      else
        let k := Z.of_nat (length ds) in
        let n := Z.of_nat (length ds0) + e in
        (if m <? 0 then str "-" else [])
        ++ (if (k <=? n) && (n <=? 21)
            then ds ++ repeat 48%N (Z.to_nat (n - k))
            else if (0 <? n) && (n <=? 21)
            then take (Z.to_nat n) ds ++ str "." ++ drop (Z.to_nat n) ds
            else if (-6 <? n) && (n <=? 0)
            then str "0." ++ repeat 48%N (Z.to_nat (- n)) ++ ds
            else
              let ex := n - 1 in
              let exs := str (if ex <? 0 then "e-" else "e+") ++ digits (Z.abs ex) in
              match ds with
              | [d] => d :: exs
              | d :: rest => d :: str "." ++ rest ++ exs
              | [] => []
              end)
  end.

(** [x <= y] on finite numbers and infinities; [NaN] compares false. *)
Definition leb (x y : number) : bool :=
  match x, y with
  | Dec m1 e1, Dec m2 e2 =>
      let lo := Z.min e1 e2 in
      m1 * 10 ^ (e1 - lo) <=? m2 * 10 ^ (e2 - lo)
  | Inf true, (Inf _ | Dec _ _) => true
  | (Inf _ | Dec _ _), Inf false => true
  | _, _ => false
  end.

Definition isNaN (x : number) : bool :=
  match x with NaN => true | _ => false end.

(** Zero and [NaN] are falsy. *)
Definition truthy (x : number) : bool :=
  match x with
  | NaN => false
  | Inf _ => true
  | Dec m _ => negb (m =? 0)
  end.

End Num.

(** ** Values *)

(** A JavaScript value as the scripts meet it: what [JSON.parse] builds,
    and [undefined].  The properties of an object are listed in the order
    [Object.keys] and [Object.values] enumerate them; an object has no key
    twice. *)
Inductive value :=
| VUndef
| VNull
| VBool (b : bool)
| VNum (n : number)
| VStr (s : list N)
| VArr (items : list value)
| VObj (props : list (list N * value)).

(** [!!v] *)
Definition truthy (v : value) : bool :=
  match v with
  | VUndef | VNull => false
  | VBool b => b
  | VNum n => Num.truthy n
  | VStr s => negb (Nat.eqb (length s) 0)
  | VArr _ | VObj _ => true
  end.

(** [v == null] *)
Definition nullish (v : value) : bool :=
  match v with VUndef | VNull => true | _ => false end.

(** [typeof v === "number"] *)
Definition is_number (v : value) : bool :=
  match v with VNum _ => true | _ => false end.

Definition string_eqb (a b : list N) : bool :=
  if decide (a = b) then true else false.

Fixpoint own_property (props : list (list N * value)) (k : list N) : option value :=
  match props with
  | [] => None
  | (k', v) :: rest => if string_eqb k' k then Some v else own_property rest k
  end.

(** [v[k]] on a value that is neither [null] nor [undefined], for the
    property names the scripts probe: none of them is inherited from a
    prototype, an index or [length], so only an object's own property
    answers. *)
Definition prop (v : value) (k : list N) : value :=
  match v with
  | VObj props => match own_property props k with Some x => x | None => VUndef end
  | _ => VUndef
  end.

(** [v.k]: a TypeError on [null] and [undefined]. *)
Definition member (v : value) (k : list N) : option value :=
  if nullish v then None else Some (prop v k).

Definition join (sep : list N) (parts : list (list N)) : list N :=
  match parts with
  | [] => []
  | p :: ps => p ++ flat_map (fun q => sep ++ q) ps
  end.

(** [String(v)], the conversion a template literal applies. *)
Fixpoint ToString (v : value) : list N :=
  match v with
  | VUndef => str "undefined"
  | VNull => str "null"
  | VBool b => str (if b then "true" else "false")
  | VNum n => Num.to_string n
  | VStr s => s
  | VArr items =>
      join (str ",")
        ((fix each (l : list value) : list (list N) :=
            match l with
            | [] => []
            | x :: r => (if nullish x then [] else ToString x) :: each r
            end) items)
  | VObj _ => str "[object Object]"
  end.

(** [a ?? b]: [b] is evaluated only when [a] is [null] or [undefined]. *)
Definition nullish_or (a b : option value) : option value :=
  match a with
  | Some v => if nullish v then b else Some v
  | None => None
  end.

Infix "??" := nullish_or (at level 61, left associativity).

(** ** The helpers the three scripts share *)

(** [const clean = (s) => (s || "").replace(/\s+/g, " ").trim()] on a
    string. *)
Definition clean (s : list N) : list N := Js.trim (Js.collapse_spaces s).

(** [clean] on any value: a falsy one becomes the empty string, and a truthy
    one that is not a string has no [replace] to call. *)
Definition clean_value (v : value) : option (list N) :=
  if truthy v then
    match v with
    | VStr s => Some (clean s)
    | _ => None
    end
  else Some (clean []).

(** A candidate record [{ reviewer, rating, text }]. *)
Record review := Review { reviewer : value; rating : value; text : value }.

(** One review of the saved document. *)
Record entry := Entry { out_reviewer : list N; out_rating : value; out_text : list N }.

(** The saved document [{ source, profile_url, fetched_at, count, reviews }]. *)
Record payload := Payload {
  source : list N;
  profile_url : list N;
  fetched_at : list N;
  count : nat;
  reviews : list entry
}.

Definition TARGET_URL : list N := str "https://www.whatnot.com/user/collectingfever/reviews".
Definition LIMIT : Z := 6.

(** The key of the deduplication: [`${r.reviewer}|${r.rating}|${r.text}`]. *)
Definition key (r : review) : list N :=
  ToString (reviewer r) ++ str "|" ++ ToString (rating r) ++ str "|" ++ ToString (text r).

(** [xs.slice(0, end)] for an integer [end]: a negative one counts from the
    end of the array. *)
Definition slice0 {A} (xs : list A) (e : Z) : list A :=
  let len := Z.of_nat (length xs) in
  let final := if (e <? 0)%Z then Z.max (len + e) 0 else Z.min e len in
  take (Z.to_nat final) xs.

(** ** The rendered document *)

Inductive tag := Div | Section | Anchor | Button | Body | OtherTag.

Definition tag_eqb (a b : tag) : bool :=
  match a, b with
  | Div, Div | Section, Section | Anchor, Anchor | Button, Button
  | Body, Body | OtherTag, OtherTag => true
  | _, _ => false
  end.

Inductive node :=
| Text (data : list N)
| Element (t : tag) (children : list node).

(** [el.textContent]: the text of every descendant, in document order. *)
Fixpoint textContent (n : node) : list N :=
  match n with
  | Text data => data
  | Element _ kids =>
      (fix each (l : list node) : list N :=
         match l with
         | [] => []
         | k :: r => textContent k ++ each r
         end) kids
  end.

(** Every element under [n], [n] included, each with its chain of
    [parentElement]s (nearest first, which starts as [up]), in document
    order. *)
Fixpoint elements_under (up : list node) (n : node) : list (node * list node) :=
  match n with
  | Text _ => []
  | Element _ kids =>
      (n, up)
      :: (fix each (l : list node) : list (node * list node) :=
            match l with
            | [] => []
            | k :: r => elements_under (n :: up) k ++ each r
            end) kids
  end.

Definition has_tag (ts : list tag) (n : node) : bool :=
  match n with
  | Element t _ => existsb (tag_eqb t) ts
  | Text _ => false
  end.

(** [document.querySelectorAll(ts)], where [doc] is the document element. *)
Definition querySelectorAll (ts : list tag) (doc : node) : list (node * list node) :=
  List.filter (fun x => has_tag ts (fst x)) (elements_under [] doc).

(** [root.querySelectorAll(ts)] on an element: its descendants only. *)
Definition querySelectorAll_in (ts : list tag) (root : node) : list node :=
  List.filter (has_tag ts) (map fst (tail (elements_under [] root))).

(** [document.body]: the [body] child of the document element ([null] is
    [None]). *)
Definition document_body (doc : node) : option node :=
  match doc with
  | Element _ kids => List.find (has_tag [Body]) kids
  | Text _ => None
  end.

(** ** Tokens of a text block *)

Module Token.

Definition next_is_word (s : list N) : bool :=
  match s with
  | c :: _ => Js.is_word c
  | [] => false
  end.

(** [[0-5]\.\d\b] at the start of [s]: the token and what follows it. *)
Definition rating_token (s : list N) : option (list N * list N) :=
  match s with
  | a :: b :: c :: r =>
      if Js.is_digit05 a && (b =? 46) && Js.is_digit c && negb (next_is_word r)
      then Some ([a; b; c], r) else None
  | _ => None
  end.

(** [t.match(/\b([0-5]\.\d)\b/)]: the first token that starts at a word
    boundary; [prev_word] says whether the character before [s] is a word
    character. *)
Fixpoint rating_match_from (prev_word : bool) (s : list N) : option (list N) :=
  match s with
  | [] => None
  | c :: r =>
      match (if prev_word then None else rating_token s) with
      | Some (tok, _) => Some tok
      | None => rating_match_from (Js.is_word c) r
      end
  end.

Definition rating_match (t : list N) : option (list N) := rating_match_from false t.

(** [\d{lo,hi}] at the start of [s], followed by something that is not a
    digit: what follows the digits. *)
Definition digit_run (lo hi : nat) (s : list N) : option (list N) :=
  let n := length (Js.take_while Js.is_digit s) in
  if (lo <=? n)%nat && (n <=? hi)%nat then Some (Js.drop_while Js.is_digit s) else None.

Definition expect (c : N) (s : list N) : option (list N) :=
  match s with
  | d :: r => if d =? c then Some r else None
  | [] => None
  end.

(** [\d{1,2}\/\d{1,2}\/\d{4}\b] at the start of [s]: what follows it. *)
Definition date_token (s : list N) : option (list N) :=
  match digit_run 1 2 s with
  | Some s1 =>
      match expect 47 s1 with
      | Some s2 =>
          match digit_run 1 2 s2 with
          | Some s3 =>
              match expect 47 s3 with
              | Some s4 =>
                  match digit_run 4 4 s4 with
                  | Some s5 => if next_is_word s5 then None else Some s5
                  | None => None
                  end
              | None => None
              end
          | None => None
          end
      | None => None
      end
  | None => None
  end.

(** [/\b\d{1,2}\/\d{1,2}\/\d{4}\b/.test(t)] *)
Fixpoint date_from (prev_word : bool) (s : list N) : bool :=
  match s with
  | [] => false
  | c :: r =>
      (negb prev_word && match date_token s with Some _ => true | None => false end)
      || date_from (Js.is_word c) r
  end.

(** [t.match(/^\s*([a-z0-9_]{3,25})\b/i)]: the run of word characters after
    the leading white space, when it has 3 to 25 characters. *)
Definition leading_handle (t : list N) : option (list N) :=
  let w := Js.take_while Js.is_word (Js.drop_while Js.is_space t) in
  if (3 <=? length w)%nat && (length w <=? 25)%nat then Some w else None.

(** [t.match(/\b[a-z0-9_]{3,20}\b/i)]: the first whole run of word
    characters that has 3 to 20 of them. *)
Fixpoint word_match_from (prev_word : bool) (s : list N) : option (list N) :=
  match s with
  | [] => None
  | c :: r =>
      let w := Js.take_while Js.is_word s in
      if negb prev_word && (3 <=? length w)%nat && (length w <=? 20)%nat
      then Some w else word_match_from (Js.is_word c) r
  end.

(** [/reviews\s*\(/i] at the start of [s]. *)
Definition reviews_paren (s : list N) : bool :=
  match Js.strip_prefix true (str "reviews") s with
  | Some r => Js.starts_with false (str "(") (Js.drop_while Js.is_space r)
  | None => false
  end.

(** [/reviews\s*\(\d+\)/i] at the start of [s]. *)
Definition reviews_count (s : list N) : bool :=
  match Js.strip_prefix true (str "reviews") s with
  | Some r =>
      match expect 40 (Js.drop_while Js.is_space r) with
      | Some r1 =>
          negb (Nat.eqb (length (Js.take_while Js.is_digit r1)) 0)
          && Js.starts_with false (str ")") (Js.drop_while Js.is_digit r1)
      | None => false
      end
  | None => false
  end.

(** [/reviews\)\s*•\s*\d+\s*sold/i] at the start of [s]; the bullet is
    U+2022. *)
Definition summary_line (s : list N) : bool :=
  match Js.strip_prefix true (str "reviews)") s with
  | Some r =>
      match expect 8226 (Js.drop_while Js.is_space r) with
      | Some r1 =>
          let r2 := Js.drop_while Js.is_space r1 in
          negb (Nat.eqb (length (Js.take_while Js.is_digit r2)) 0)
          && Js.starts_with true (str "sold")
               (Js.drop_while Js.is_space (Js.drop_while Js.is_digit r2))
      | None => false
      end
  | None => false
  end.

(** [body.replace(new RegExp("^" + handle + "\\s*", "i"), "")], for a
    handle made of word characters. *)
Definition strip_handle (handle body : list N) : list N :=
  match Js.strip_prefix true handle body with
  | Some r => Js.drop_while Js.is_space r
  | None => body
  end.

(** [body.replace(/^\b\d{1,2}\/\d{1,2}\/\d{4}\b\s*/i, "")] *)
Definition strip_date (body : list N) : list N :=
  match date_token body with
  | Some r => Js.drop_while Js.is_space r
  | None => body
  end.

(** [body.replace(/^\b[0-5]\.\d\b\s*/i, "")] *)
Definition strip_rating (body : list N) : list N :=
  match rating_token body with
  | Some (_, r) => Js.drop_while Js.is_space r
  | None => body
  end.

End Token.

(** The monad of a script that may throw. *)
Definition bind {A B} (x : option A) (f : A -> option B) : option B :=
  match x with
  | Some a => f a
  | None => None
  end.

Notation "x <- e1 ;; e2" := (bind e1 (fun x => e2))
  (at level 100, e1 at next level, right associativity).

(** The deduplication loop the scripts share: a record is kept when its key
    is not in [seen], and its key is then added.
    [filter((r) => { if (seen.has(key)) return false; seen.add(key); return true; })] *)
Fixpoint dedupe_from (seen : gset (list N)) (rs : list review) : list review :=
  match rs with
  | [] => []
  | r :: rest =>
      if decide (key r ∈ seen) then dedupe_from seen rest
      else r :: dedupe_from ({[key r]} ∪ seen) rest
  end.

(** The same loop with the cap of [part_000] and [part_001]:
    [uniq.push(r); if (uniq.length >= limit) break;]. [n] is [uniq.length]. *)
Fixpoint dedupe_capped (limit : Z) (seen : gset (list N)) (n : nat) (rs : list review)
  : list review :=
  match rs with
  | [] => []
  | r :: rest =>
      if decide (key r ∈ seen) then dedupe_capped limit seen n rest
      else if (limit <=? Z.of_nat (S n))%Z then [r]
      else r :: dedupe_capped limit ({[key r]} ∪ seen) (S n) rest
  end.

(** ** fetch-whatnot-reviews.mjs *)

Module Fetch.

(** [function isObject(x)] *)
Definition isObject (x : value) : bool :=
  match x with
  | VObj _ => true
  | _ => false
  end.

(** [Object.keys(item).map((k) => k.toLowerCase())] *)
Definition lower_keys (item : value) : list (list N) :=
  match item with
  | VObj props => map (fun kv => Js.toLowerCase (fst kv)) props
  | _ => []
  end.

(** [keys.includes(k)] *)
Definition includes (keys : list (list N)) (k : list N) : bool :=
  existsb (string_eqb k) keys.

(** [keys.some((k) => k.includes(term))] *)
Definition some_contains (keys : list (list N)) (term : list N) : bool :=
  existsb (Js.contains false term) keys.

Definition hasRating (keys : list (list N)) : bool :=
  includes keys (str "rating") || includes keys (str "stars")
  || includes keys (str "score") || some_contains keys (str "rating").

Definition hasText (keys : list (list N)) : bool :=
  includes keys (str "text") || includes keys (str "message")
  || includes keys (str "comment") || includes keys (str "review")
  || existsb (fun k => Js.contains false (str "comment") k
                       || Js.contains false (str "message") k
                       || Js.contains false (str "text") k) keys.

Definition hasUser (keys : list (list N)) : bool :=
  includes keys (str "username") || includes keys (str "reviewer")
  || includes keys (str "buyer") || includes keys (str "user")
  || existsb (fun k => Js.contains false (str "user") k
                       || Js.contains false (str "buyer") k) keys.

(** The test of the loop over an array: the item is pushed to [maybe]. *)
Definition review_like (item : value) : bool :=
  isObject item
  && (let keys := lower_keys item in hasRating keys && hasText keys && hasUser keys).

(** [function findReviewItemsDeep(node, found = [])]; [found] is the array
    the calls share, passed through them. *)
Fixpoint findReviewItemsDeep (node : value) (found : list value) : list value :=
  if negb (truthy node) then found
  else
    match node with
    | VArr items =>
        let maybe := List.filter review_like items in
        let found := if (1 <=? length maybe)%nat then found ++ maybe else found in
        (fix each (l : list value) (found : list value) : list value :=
           match l with
           | [] => found
           | item :: r => each r (findReviewItemsDeep item found)
           end) items found
    | VObj props =>
        (fix each (l : list (list N * value)) (found : list value) : list value :=
           match l with
           | [] => found
           | (_, v) :: r => each r (findReviewItemsDeep v found)
           end) props found
    | _ => found
    end.

(** [const get = (obj, keys) => ...] of [normalizeReview] *)
Fixpoint get (obj : value) (keys : list (list N)) : value :=
  match keys with
  | [] => VNull
  | k :: rest =>
      if truthy obj && negb (nullish (prop obj k)) then prop obj k else get obj rest
  end.

(** [isObject(item.k) ? get(item.k, keys) : null] *)
Definition nested (item : value) (k : list N) (keys : list (list N)) : option value :=
  sub <- member item k ;;
  Some (if isObject sub then get sub keys else VNull).

Definition rating_of (item : value) : option value :=
  Some (get item [str "rating"; str "stars"; str "score"])
  ?? Some (get item [str "starRating"; str "star_rating"; str "reviewRating"]).

Definition reviewer_of (item : value) : option value :=
  Some (get item [str "reviewer"; str "username"])
  ?? nested item (str "user") [str "username"; str "name"; str "handle"]
  ?? nested item (str "buyer") [str "username"; str "name"; str "handle"]
  ?? nested item (str "reviewer") [str "username"; str "name"; str "handle"].

Definition text_of (item : value) : option value :=
  Some (get item [str "text"; str "message"; str "comment"; str "review"])
  ?? Some (get item [str "body"; str "content"])
  ?? nested item (str "feedback") [str "text"; str "message"; str "comment"].

(** [if (typeof rating === "string") rating = parseFloat(rating);
     if (typeof rating !== "number" || Number.isNaN(rating)) rating = null;] *)
Definition coerce_rating (v : value) : value :=
  let v := match v with VStr s => VNum (Num.parseFloat s) | _ => v end in
  match v with
  | VNum n => if Num.isNaN n then VNull else VNum n
  | _ => VNull
  end.

(** [clean(typeof v === "string" ? v : "")] *)
Definition clean_string (v : value) : list N :=
  clean (match v with VStr s => s | _ => [] end).

(** [function normalizeReview(item)] *)
Definition normalizeReview (item : value) : option review :=
  rating <- rating_of item ;;
  reviewer <- reviewer_of item ;;
  text <- text_of item ;;
  Some (Review (VStr (clean_string reviewer)) (coerce_rating rating) (VStr (clean_string text))).

(** [/followers|following|sold|reviews\s*\(/i.test(t)] *)
Definition noise (t : list N) : bool :=
  Js.contains true (str "followers") t || Js.contains true (str "following") t
  || Js.contains true (str "sold") t || Js.search Token.reviews_paren t.

(** The loop over the items of one payload. *)
Fixpoint extract_items (items : list value) (extracted : list review)
  : option (list review) :=
  match items with
  | [] => Some extracted
  | it :: rest =>
      r <- normalizeReview it ;;
      if negb (truthy (reviewer r)) || negb (truthy (text r)) || nullish (rating r)
      then extract_items rest extracted
      else if noise (ToString (text r)) then extract_items rest extracted
      else
        let extracted := extracted ++ [r] in
        if (50 <? length extracted)%nat then Some extracted
        else extract_items rest extracted
  end.

(** The loop over [networkCandidates]. *)
Fixpoint extract_network (candidates : list value) (extracted : list review)
  : option (list review) :=
  match candidates with
  | [] => Some extracted
  | data :: rest =>
      extracted <- extract_items (findReviewItemsDeep data []) extracted ;;
      if (50 <? length extracted)%nat then Some extracted
      else extract_network rest extracted
  end.

(** The loop of the fallback over the text blocks. *)
Fixpoint parse_blocks (limit : Z) (blocks : list (list N)) (out : list review)
  : list review :=
  match blocks with
  | [] => out
  | t :: rest =>
      if Js.contains true (str "followers") t || Js.contains true (str "following") t
         || Js.contains true (str "sold") t
      then parse_blocks limit rest out
      else
        match Token.rating_match t, Token.leading_handle t with
        | Some ratingMatch, Some userMatch =>
            let body := Js.trim (Js.remove_all_ci (str "see more") t) in
            let body := Js.trim (Token.strip_handle userMatch body) in
            if (length body <? 10)%nat then parse_blocks limit rest out
            else
              let out :=
                out ++ [Review (VStr userMatch) (VNum (Num.parseFloat ratingMatch)) (VStr body)] in
              if (limit <=? Z.of_nat (length out))%Z then out
              else parse_blocks limit rest out
        | _, _ => parse_blocks limit rest out
        end
  end.

(** The function [page.evaluate] runs in the page. *)
Definition dom_fallback (limit : Z) (doc : node) : list review :=
  let blocks :=
    List.filter (fun t => (40 <? length t)%nat && (length t <? 500)%nat)
      (map (fun el => clean (textContent (fst el))) (querySelectorAll [Div] doc)) in
  slice0 (parse_blocks limit blocks []) limit.

(** [reviews.map((r) => ({ reviewer: clean(r.reviewer), rating: ..., text: clean(r.text) }))] *)
Definition to_entry (r : review) : option entry :=
  rv <- clean_value (reviewer r) ;;
  tx <- clean_value (text r) ;;
  Some (Entry rv (if is_number (rating r) then rating r else VNum (Dec 5 0)) tx).

Fixpoint map_entries (rs : list review) : option (list entry) :=
  match rs with
  | [] => Some []
  | r :: rest =>
      e <- to_entry r ;;
      es <- map_entries rest ;;
      Some (e :: es)
  end.

(** What a run did: the strategies it ran, in order, and the document it
    saved. *)
Inductive strategy := NetworkJson | DomBlocks.

Record run := Run { tried : list strategy; saved : payload }.

(** [async function main()], after the page has loaded: [networkCandidates]
    holds the [data] of the captured responses, [doc] is the document
    [page.evaluate] reads, [now] is [new Date().toISOString()] and [limit] is
    [LIMIT].  [None] is a rejected promise. *)
Definition main (limit : Z) (now : list N) (networkCandidates : list value) (doc : node)
  : option run :=
  extracted <- extract_network networkCandidates [] ;;
  let extracted := dedupe_from ∅ extracted in
  let '(tried, extracted) :=
    if Nat.eqb (length extracted) 0
    then ([NetworkJson; DomBlocks], dom_fallback limit doc)
    else ([NetworkJson], extracted) in
  let reviews := slice0 extracted limit in
  entries <- map_entries reviews ;;
  Some (Run tried (Payload (str "whatnot") TARGET_URL now (length reviews) entries)).

End Fetch.

(** ** part_001: "see more" anchors, with a block fallback *)

Module Part001.

(** [const isNoise = (t) => /following|followers|sold|whatnot|become a seller|log in|sign up/i.test(t)] *)
Definition isNoise (t : list N) : bool :=
  Js.contains true (str "following") t || Js.contains true (str "followers") t
  || Js.contains true (str "sold") t || Js.contains true (str "whatnot") t
  || Js.contains true (str "become a seller") t || Js.contains true (str "log in") t
  || Js.contains true (str "sign up") t.

(** [const getRating = (t) => ...]: [None] is [null]. *)
Definition getRating (t : list N) : option number :=
  match Token.rating_match t with
  | Some m => Some (Num.parseFloat m)
  | None => None
  end.

(** [const hasDate = (t) => ...] *)
Definition hasDate (t : list N) : bool := Token.date_from false t.

(** [const getReviewer = (t) => ...]: [None] is [null]. *)
Definition getReviewer (t : list N) : option (list N) := Token.leading_handle t.

(** [/see more/i.test(t)] *)
Definition has_see_more (t : list N) : bool := Js.contains true (str "see more") t.

(** The test that stops the walk up from a "see more" element. *)
Definition card_like (p : node) : bool :=
  let t := clean (textContent p) in
  match getRating t with
  | Some _ => negb (isNoise t) && (40 <? length t)%nat && (length t <? 900)%nat
  | None => false
  end.

(** [for (let i = 0; i < 10 && p; i++)]: the first of at most ten ancestors
    that looks like a card. *)
Definition card_above (up : list node) : option node :=
  List.find card_like (take 10 up).

(** 1) the cards found from the "see more" anchors and buttons *)
Definition anchor_cards (doc : node) : list node :=
  let seeMoreEls :=
    List.filter (fun el => has_see_more (clean (textContent (fst el))))
      (querySelectorAll [Anchor; Button] doc) in
  flat_map (fun el => match card_above (snd el) with Some p => [p] | None => [] end)
    seeMoreEls.

(** 2) the loop of the fallback over the compact blocks *)
Fixpoint block_cards (blocks : list node) (candidateCards : list node) : list node :=
  match blocks with
  | [] => candidateCards
  | el :: rest =>
      let t := clean (textContent el) in
      match getRating t with
      | None => block_cards rest candidateCards
      | Some _ =>
          if isNoise t then block_cards rest candidateCards
          else
            let candidateCards :=
              if hasDate t || has_see_more t then candidateCards ++ [el]
              else candidateCards in
            if (60 <? length candidateCards)%nat then candidateCards
            else block_cards rest candidateCards
      end
  end.

Definition candidate_cards (doc : node) : list node :=
  let candidateCards := anchor_cards doc in
  if Nat.eqb (length candidateCards) 0 then
    block_cards
      (List.filter
         (fun el => let t := clean (textContent el) in
                    (40 <? length t)%nat && (length t <? 650)%nat)
         (map fst (querySelectorAll [Div] doc)))
      candidateCards
  else candidateCards.

(** The body of one card: "see more", then the reviewer, a date and a rating
    token are removed from its start, in that order. *)
Definition body_of (reviewer raw : list N) : list N :=
  let body := Js.trim (Js.remove_all_ci (str "see more") raw) in
  let body := Js.trim (Token.strip_handle reviewer body) in
  let body := Js.trim (Token.strip_date body) in
  Js.trim (Token.strip_rating body).

(** One turn of the loop of 3): the record of a card, or [None] when the
    loop continues without one. *)
Definition parse_card (raw : list N) : option review :=
  if isNoise raw then None
  else
    match getRating raw with
    | None => None
    | Some rating =>
        match getReviewer raw with
        | None => None
        | Some reviewer =>
            let body := body_of reviewer raw in
            if (length body <? 10)%nat then None
            else if Js.search Token.summary_line body then None
            else Some (Review (VStr reviewer) (VNum rating) (VStr body))
        end
    end.

(** 3) the loop over the cards *)
Fixpoint parse_cards (limit : Z) (cards : list node) (out : list review) : list review :=
  match cards with
  | [] => out
  | card :: rest =>
      match parse_card (clean (textContent card)) with
      | None => parse_cards limit rest out
      | Some r =>
          let out := out ++ [r] in
          if (limit * 3 <=? Z.of_nat (length out))%Z then out
          else parse_cards limit rest out
      end
  end.

(** The function [page.evaluate] runs in the page. *)
Definition evaluate (limit : Z) (doc : node) : list review :=
  let out := parse_cards limit (candidate_cards doc) [] in
  let uniq := dedupe_capped limit ∅ 0 out in
  slice0 uniq limit.

(** [async function main()], after the page has loaded; the reviews are
    mapped to the saved ones as in [fetch-whatnot-reviews.mjs]. *)
Definition main (limit : Z) (now : list N) (doc : node) : option payload :=
  let reviews := evaluate limit doc in
  entries <- Fetch.map_entries reviews ;;
  Some (Payload (str "whatnot") TARGET_URL now (length reviews) entries).

End Part001.

(** ** part_000: the blocks under the "Reviews (n)" section *)

Module Part000.

(** [document.body], or the first [section] or [div] whose text has
    "reviews (n)". *)
Definition find_root (doc : node) : option node :=
  match List.find (fun el => Js.search Token.reviews_count (clean (textContent el)))
          (map fst (querySelectorAll [Section; Div] doc)) with
  | Some el => Some el
  | None => document_body doc
  end.

(** [text.split(" ").length] *)
Definition split_count (t : list N) : nat :=
  S (length (List.filter (fun c => c =? 32) t)).

(** One turn of the loop over the blocks.  [idx] is a position of the
    lowered block, and the cut [t.slice(0, idx)] is made in the block
    itself. *)
Definition parse_block (t : list N) : option review :=
  match Token.rating_match t with
  | None => None
  | Some ratingMatch =>
      match Token.word_match_from false t with
      | None => None
      | Some reviewerMatch =>
          let text :=
            match Js.indexOf (str "see more") (Js.toLowerCase t) with
            | Some (S idx) => take (S idx) t
            | _ => t
            end in
          if (split_count text <? 5)%nat then None
          else Some (Review (VStr reviewerMatch) (VNum (Num.parseFloat ratingMatch)) (VStr text))
      end
  end.

Fixpoint parse_blocks (limit : Z) (blocks : list (list N)) (out : list review)
  : list review :=
  match blocks with
  | [] => out
  | t :: rest =>
      match parse_block t with
      | None => parse_blocks limit rest out
      | Some r =>
          let out := out ++ [r] in
          if (limit * 3 <=? Z.of_nat (length out))%Z then out
          else parse_blocks limit rest out
      end
  end.

(** The function [page.evaluate] runs in the page; [None] when there is
    neither a matching section nor a [body] to search. *)
Definition evaluate (limit : Z) (doc : node) : option (list review) :=
  root <- find_root doc ;;
  let blocks :=
    List.filter (fun t => (20 <? length t)%nat && (length t <? 900)%nat)
      (map (fun el => clean (textContent el)) (querySelectorAll_in [Div] root)) in
  let out := parse_blocks limit blocks [] in
  Some (slice0 (dedupe_capped limit ∅ 0 out) limit).

(** [rating: r.rating ?? 5.0] *)
Definition to_entry (r : review) : option entry :=
  rv <- clean_value (reviewer r) ;;
  tx <- clean_value (text r) ;;
  Some (Entry rv (if nullish (rating r) then VNum (Dec 5 0) else rating r) tx).

Fixpoint map_entries (rs : list review) : option (list entry) :=
  match rs with
  | [] => Some []
  | r :: rest =>
      e <- to_entry r ;;
      es <- map_entries rest ;;
      Some (e :: es)
  end.

(** [async function main()], after the page has loaded. *)
Definition main (limit : Z) (now : list N) (doc : node) : option payload :=
  reviews <- evaluate limit doc ;;
  entries <- map_entries reviews ;;
  Some (Payload (str "whatnot") TARGET_URL now (length reviews) entries).

End Part000.

(** ** Sample inputs *)

(** The sample object of the field normalizer. *)
Definition alice : value :=
  VObj [ (str "username", VStr (str "alice99"));
         (str "stars", VStr (str "4.7"));
         (str "comment", VStr (str "Great seller, fast shipping!")) ].

(** The sample card of the block parser. *)
Definition bob_block : list N :=
  str "bob_the_builder 4.8 11/11/2025 Fast shipment and great packaging see more".

(** The record the specification expects for the sample card. *)
Definition bob_expected : review :=
  Review (VStr (str "bob_the_builder")) (VNum (Dec 48 (-1)))
    (VStr (str "Fast shipment and great packaging")).

(** ** Predicates of the statements *)

(** Every white space character of [s] is a single U+0020 that follows a
    character other than white space ([prev_space] tells what precedes
    [s]). *)
Fixpoint spaced (prev_space : bool) (s : list N) : bool :=
  match s with
  | [] => true
  | c :: r =>
      if Js.is_space c then (c =? 32) && negb prev_space && spaced true r
      else spaced false r
  end.

(** [spaced], and [s] does not end in white space. *)
Fixpoint tidy (prev_space : bool) (s : list N) : bool :=
  match s with
  | [] => negb prev_space
  | c :: r =>
      if Js.is_space c then (c =? 32) && negb prev_space && tidy true r
      else tidy false r
  end.

(** A string in the form [clean] produces: no white space at either end,
    and inside only single U+0020 characters. *)
Definition whitespace_normal (s : list N) : bool :=
  match s with
  | [] => true
  | _ => tidy true s
  end.

(** Every array of a payload, as the list of its elements: an array comes
    before the arrays inside its elements, and those in the order of the
    elements; an object gives the arrays inside its values. *)
Fixpoint arrays_of (v : value) : list (list value) :=
  match v with
  | VArr items =>
      items
      :: (fix each (l : list value) : list (list value) :=
            match l with
            | [] => []
            | x :: r => arrays_of x ++ each r
            end) items
  | VObj props =>
      (fix each (l : list (list N * value)) : list (list value) :=
         match l with
         | [] => []
         | (_, x) :: r => arrays_of x ++ each r
         end) props
  | _ => []
  end.

(** [x] is an element of an array that occurs somewhere in a payload. *)
Inductive array_element (x : value) : value → Prop :=
| element_here items : In x items → array_element x (VArr items)
| element_below items y :
    In y items → array_element x y → array_element x (VArr items)
| element_under props k y :
    In (k, y) props → array_element x y → array_element x (VObj props).

(** Some key is one of [exact], or contains one of [part]. *)
Definition indicator (exact part : list (list N)) (keys : list (list N)) : bool :=
  existsb (fun k => existsb (string_eqb k) exact
                    || existsb (fun t => Js.contains false t k) part) keys.

(** The review-like test in the words of the specification: among the
    lower-cased keys of the object one matches or contains a rating term,
    one a text term and one a user term. *)
Definition spec_review_like (item : value) : bool :=
  Fetch.isObject item
  && (let keys := Fetch.lower_keys item in
      let any terms := indicator terms terms keys in
      any [str "rating"; str "stars"; str "score"]
      && any [str "text"; str "message"; str "comment"; str "review"]
      && any [str "username"; str "reviewer"; str "buyer"; str "user"]).

(** An object the specification calls review-like and the scanner does not
    collect: its rating key contains "score" and is not "score". *)
Definition score_item : value :=
  VObj [ (str "total_score", VNum (Dec 5 0));
         (str "text", VStr (str "Great seller"));
         (str "user", VStr (str "alice99")) ].

Definition score_payload : value :=
  VObj [ (str "data", VObj [ (str "reviews", VArr [score_item]) ]) ].

(** A payload whose only array holds one review-like object. *)
Definition one_item : value :=
  VObj [ (str "Rating", VNum (Dec 5 0));
         (str "reviewText", VStr (str "Great seller, fast shipping!"));
         (str "buyer", VObj [ (str "username", VStr (str "alice99")) ]) ].

Definition one_payload : value :=
  VObj [ (str "data", VObj [ (str "count", VNum (Dec 1 0));
                             (str "reviews", VArr [one_item]) ]) ].

(** What the gate of the network strategy lets through: a reviewer and a
    text that are non-empty strings in normal form, a text without a noise
    phrase, and a rating that is a number other than [NaN]. *)
Definition network_record (r : review) : Prop :=
  ∃ rv n tx,
    r = Review (VStr rv) (VNum n) (VStr tx)
    ∧ rv ≠ [] ∧ tx ≠ [] ∧ Num.isNaN n = false
    ∧ whitespace_normal rv = true ∧ whitespace_normal tx = true
    ∧ Fetch.noise tx = false.

(** [[A-Za-z0-9_]{lo,hi}] as a whole: a handle. *)
Definition handle (lo hi : nat) (s : list N) : Prop :=
  Forall (fun c => Js.is_word c = true) s ∧ (lo ≤ length s ≤ hi)%nat.

(** The number a rating token [d.d] with a first digit up to 5 denotes:
    [a.b], from 0.0 to 5.9. *)
Definition token_rating (n : number) : Prop :=
  ∃ a b : Z, (0 ≤ a ≤ 5)%Z ∧ (0 ≤ b ≤ 9)%Z
             ∧ n = (if (b =? 0)%Z then Dec a 0 else Dec (10 * a + b) (-1)).

(** What the parser of the DOM fallback pushes: a handle of 3 to 25
    characters read at the start of the block, a rating read from a token,
    and a trimmed body of at least 10 characters. *)
Definition dom_record (r : review) : Prop :=
  ∃ rv n tx,
    r = Review (VStr rv) (VNum n) (VStr tx)
    ∧ handle 3 25 rv ∧ token_rating n
    ∧ (10 ≤ length tx)%nat ∧ Js.trim tx = tx.

(** A record whose reviewer and text are strings. *)
Definition string_fields (r : review) : Prop :=
  ∃ rv tx, reviewer r = VStr rv ∧ text r = VStr tx.

(** What the parser of [part_000] pushes: a whole word of 3 to 20
    characters, a rating read from a token, and a text of at least five
    pieces between single spaces. *)
Definition block_record (r : review) : Prop :=
  ∃ rv n tx,
    r = Review (VStr rv) (VNum n) (VStr tx)
    ∧ handle 3 20 rv ∧ token_rating n ∧ (5 ≤ Part000.split_count tx)%nat.

(** A captured payload with the sample object as its only review. *)
Definition alice_payload : value :=
  VObj [ (str "data", VObj [ (str "reviews", VArr [alice]) ]) ].

(** A page without any element that holds a review. *)
Definition empty_page : node :=
  Element OtherTag [ Element Body [ Element Div [ Text (str "Nothing here yet") ] ] ].

(** Two records to serialize: one without a rating, one with. *)
Definition unrated_and_rated : list review :=
  [ Review (VStr (str "ann_lee")) VNull (VStr (str "Arrived quickly"));
    Review (VStr (str "bob_the_builder")) (VNum (Dec 48 (-1))) (VStr (str "Great packaging")) ].

(** A page with one review in two nested [div]s and no "see more": both
    [div]s have the same text. *)
Definition nested_page : node :=
  Element OtherTag
    [ Element Body
        [ Element Div
            [ Element Div
                [ Text (str "alice_99 5.0 Great seller, super fast shipping and well packed") ] ] ] ].

(** A review card of the page: its text and a "See more" button. *)
Definition see_more_card (t : list N) : node :=
  Element Div [ Text t; Element Button [ Text (str "See more") ] ].

(** A page with three cards, the third a repetition of the first. *)
Definition three_cards_page : node :=
  Element OtherTag
    [ Element Body
        [ Element Section
            [ see_more_card (str "alice_99 5.0 Great seller, fast shipping and well packed ");
              see_more_card (str "bob_the_builder 4.8 Fast shipment and great packaging ");
              see_more_card (str "alice_99 5.0 Great seller, fast shipping and well packed ") ] ] ].

Definition card_alice : review :=
  Review (VStr (str "alice_99")) (VNum (Dec 5 0))
    (VStr (str "Great seller, fast shipping and well packed")).

Definition card_bob : review :=
  Review (VStr (str "bob_the_builder")) (VNum (Dec 48 (-1)))
    (VStr (str "Fast shipment and great packaging")).

(** What holds of every saved review: a reviewer and a text that are
    non-empty and in normal form, and a rating that is a number other than
    [NaN]. *)
Definition saved_record (e : entry) : Prop :=
  out_reviewer e ≠ [] ∧ out_text e ≠ []
  ∧ whitespace_normal (out_reviewer e) = true ∧ whitespace_normal (out_text e) = true
  ∧ ∃ n, out_rating e = VNum n ∧ Num.isNaN n = false.

(** The text a page parser of [fetch-whatnot-reviews.mjs] or [part_001]
    keeps in a record: trimmed, of at least 10 characters. *)
Definition long_body (tx : list N) : Prop :=
  (10 ≤ length tx)%nat ∧ Js.trim tx = tx.

(** The text [part_000] keeps in a record: at least five pieces between
    spaces. *)
Definition five_pieces (tx : list N) : Prop :=
  (5 ≤ Part000.split_count tx)%nat.

(** How a record [r] read from the page is saved as [e]: reviewer and
    rating as they are, the reviewer a match of [[A-Za-z0-9_]{lo,hi}], the
    rating from 0.0 to 5.9, and as text [clean] of the text of the record,
    which was long [enough]. *)
Definition page_saved (lo hi : nat) (enough : list N → Prop) (r : review) (e : entry)
  : Prop :=
  ∃ rv n tx,
    r = Review (VStr rv) (VNum n) (VStr tx)
    ∧ e = Entry rv (VNum n) (clean tx)
    ∧ handle lo hi rv
    ∧ Num.leb (Dec 0 0) n = true ∧ Num.leb n (Dec 59 (-1)) = true
    ∧ enough tx.

(** The body of the loop of the fallback of [fetch-whatnot-reviews.mjs]:
    the record it pushes for one block, if any. *)
Definition fallback_block (t : list N) : option review :=
  if Js.contains true (str "followers") t || Js.contains true (str "following") t
     || Js.contains true (str "sold") t
  then None
  else
    match Token.rating_match t, Token.leading_handle t with
    | Some ratingMatch, Some userMatch =>
        let body := Js.trim (Js.remove_all_ci (str "see more") t) in
        let body := Js.trim (Token.strip_handle userMatch body) in
        if (length body <? 10)%nat then None
        else Some (Review (VStr userMatch) (VNum (Num.parseFloat ratingMatch)) (VStr body))
    | _, _ => None
    end.

(** A page with one card whose "see more" stands inside its text. *)
Definition short_text_page : node :=
  Element OtherTag
    [ Element Body
        [ Element Div
            [ Text (str "abcdefghijklmnopqrstuvwxy 4.5 so good ");
              Element Button [ Text (str "see more") ];
              Text (str " x") ] ] ].

(** A captured payload with a review-like object whose reviewer has two
    characters, whose rating is 99 and whose text has two characters. *)
Definition loud_payload : value :=
  VArr [ VObj [ (str "username", VStr (str "al"));
                (str "rating", VNum (Dec 99 0));
                (str "text", VStr (str "ok")) ] ].

(** A page whose only block has the rating token 5.9. *)
Definition page_59 : node :=
  Element OtherTag
    [ Element Body
        [ Element Div
            [ Text (str "carol_7 5.9 Lovely cards, arrived in perfect condition") ] ] ].

(** ** The capture of network responses

    [page.on("response", async (res) => ...)] of [fetch-whatnot-reviews.mjs]. *)

(** A response as the handler reads it: [res.url()], the header
    [res.headers()["content-type"]] ([None] when the header is absent),
    [res.status()], and what [res.json()] resolves to ([None] when it
    rejects). *)
Record response := Response {
  res_url : list N;
  res_content_type : option (list N);
  res_status : Z;
  res_json : option value
}.

(** One call of the handler: the entry [{ url, data }] is pushed, or the
    handler returns without one. *)
Definition on_response (networkCandidates : list (list N * value)) (res : response)
  : list (list N * value) :=
  let url := res_url res in
  let ct :=
    Js.toLowerCase (match res_content_type res with Some s => s | None => [] end) in
  if negb (Js.contains false (str "application/json") ct)
     && negb (Js.contains false (str "graphql") url)
  then networkCandidates
  else if (res_status res <? 200)%Z || (300 <=? res_status res)%Z then networkCandidates
  else
    let data := match res_json res with Some d => d | None => VNull end in
    if negb (truthy data) then networkCandidates
    else networkCandidates ++ [(url, data)].

(** The handler over the responses, in the order in which its calls
    complete before the scan starts. *)
Definition capture (responses : list response) : list (list N * value) :=
  fold_left on_response responses [].

(** The run of [fetch-whatnot-reviews.mjs] from the responses and the page:
    the scan reads [c.data] of every captured entry. *)
Definition run_from_responses (limit : Z) (now : list N) (responses : list response)
  (doc : node) : option Fetch.run :=
  Fetch.main limit now (map snd (capture responses)) doc.

(** A page without "see more" whose only block has a date. *)
Definition dated_page : node :=
  Element OtherTag
    [ Element Body
        [ Element Div
            [ Text (str "dave_42 11/11/2025 4.5 Very happy with the purchase, thank you") ] ] ].

(** A record [{ reviewer, rating, text }] as an object, the way it would be
    met again inside a payload. *)
Definition record_object (r : review) : value :=
  VObj [ (str "reviewer", reviewer r); (str "rating", rating r); (str "text", text r) ].

(** A block with eight dotted capital I (U+0130) before its "see more". *)
Definition dotted_block : list N :=
  str "amy_1 4.5 " ++ repeat 304 8 ++ str " was great see more".

(** * Properties *)

(** ** Numbers read and printed *)

Example parseFloat_47 : Num.parseFloat (str "4.7") = Dec 47 (-1).
Proof. reflexivity. Qed.
Example parseFloat_40 : Num.parseFloat (str " 4.0 stars") = Dec 4 0.
Proof. reflexivity. Qed.
Example parseFloat_e : Num.parseFloat (str "-12.50e3x") = Dec (-125) 2.
Proof. reflexivity. Qed.
Example parseFloat_nan : Num.parseFloat (str ".e3") = NaN.
Proof. reflexivity. Qed.
Example to_string_48 : Num.to_string (Dec 48 (-1)) = str "4.8".
Proof. reflexivity. Qed.
Example to_string_5 : Num.to_string (Dec 5 0) = str "5".
Proof. reflexivity. Qed.
Example to_string_small : Num.to_string (Dec 5 (-3)) = str "0.005".
Proof. reflexivity. Qed.
Example to_string_exp : Num.to_string (Dec (-125) 25) = str "-1.25e+27".
Proof. reflexivity. Qed.
Example to_string_big : Num.to_string (Dec 12 3) = str "12000".
Proof. reflexivity. Qed.


(** ** The deduplication loop *)

Section Dedupe.

Implicit Types (rs : list review) (seen : gset (list N)).

Lemma dedupe_from_sublist rs seen : sublist (dedupe_from seen rs) rs.
Proof.
  revert seen. induction rs as [|r rs IH]; intros seen; simpl.
  - constructor.
  - destruct (decide (key r ∈ seen)).
    + apply sublist_cons, IH.
    + apply sublist_skip, IH.
Qed.

Lemma dedupe_from_avoids rs seen r :
  r ∈ dedupe_from seen rs → key r ∉ seen.
Proof.
  revert seen. induction rs as [|x rs IH]; intros seen; simpl.
  - intros H. inversion H.
  - destruct (decide (key x ∈ seen)) as [Hin|Hout].
    + apply IH.
    + intros [->|H]%elem_of_cons; [exact Hout|].
      apply IH in H. set_solver.
Qed.

Lemma dedupe_from_NoDup rs seen : NoDup (map key (dedupe_from seen rs)).
Proof.
  revert seen. induction rs as [|x rs IH]; intros seen; simpl.
  - constructor.
  - destruct (decide (key x ∈ seen)); [apply IH|].
    simpl. constructor; [|apply IH].
    intros Hin. apply list_elem_of_In, in_map_iff in Hin as (y & Hy & Hin).
    apply list_elem_of_In, dedupe_from_avoids in Hin. set_solver.
Qed.

(** No key is lost: a record that is dropped has a key that was seen or is
    kept. *)
Lemma dedupe_from_complete rs seen r :
  r ∈ rs → key r ∈ seen ∨ In (key r) (map key (dedupe_from seen rs)).
Proof.
  revert seen. induction rs as [|x rs IH]; intros seen Hr; [by inversion Hr|].
  simpl. apply elem_of_cons in Hr as [->|Hr].
  - destruct (decide (key x ∈ seen)); [by left|right; by left].
  - destruct (decide (key x ∈ seen)); [by apply IH|].
    destruct (IH ({[key x]} ∪ seen) Hr) as [Hin|Hin]; [|right; by right].
    apply elem_of_union in Hin as [Hin%elem_of_singleton|Hin]; [|by left].
    right. left. done.
Qed.

(** On records with pairwise distinct keys, none of them seen, the loop keeps
    everything. *)
Lemma dedupe_from_fresh rs seen :
  NoDup (map key rs) → (∀ r, r ∈ rs → key r ∉ seen) → dedupe_from seen rs = rs.
Proof.
  revert seen. induction rs as [|x rs IH]; intros seen Hnd Hout; simpl; [done|].
  inversion Hnd as [|? ? Hx Hnd']; subst.
  destruct (decide (key x ∈ seen)) as [Hin|_].
  - exfalso. apply (Hout x); [left|done].
  - f_equal. apply IH; [done|].
    intros r Hr. apply not_elem_of_union. split; [|apply Hout; by right].
    intros Heq%elem_of_singleton. apply Hx. rewrite <- Heq.
    apply list_elem_of_In, in_map, list_elem_of_In, Hr.
Qed.

(** The capped loop keeps a prefix of what the plain loop keeps: as many
    records as the cap allows, and one at least. *)
Lemma dedupe_capped_take limit rs seen n :
  dedupe_capped limit seen n rs
  = take (Z.to_nat (Z.max 1 (limit - Z.of_nat n))) (dedupe_from seen rs).
Proof.
  revert seen n. induction rs as [|x rs IH]; intros seen n; simpl.
  - by rewrite take_nil.
  - destruct (decide (key x ∈ seen)); [apply IH|].
    destruct (Z.leb_spec limit (Z.of_nat (S n))) as [Hle|Hgt].
    + replace (Z.to_nat (Z.max 1 (limit - Z.of_nat n))) with 1%nat by lia.
      simpl. by rewrite take_0.
    + rewrite IH.
      replace (Z.to_nat (Z.max 1 (limit - Z.of_nat n)))
        with (S (Z.to_nat (Z.max 1 (limit - Z.of_nat (S n))))) by lia.
      done.
Qed.

Lemma NoDup_take_keys rs k : NoDup (map key rs) → NoDup (map key (take k rs)).
Proof.
  intros H. rewrite <- (take_drop k rs), map_app in H.
  by apply NoDup_app in H as [H _].
Qed.

End Dedupe.

(** C5. The deduplication is idempotent: run on its own output it changes
    nothing, both as the filter of [fetch-whatnot-reviews.mjs] and as the
    capped loop of [part_000] and [part_001]; its output is a subsequence of
    its input (first-seen order) in which no key
    [`${reviewer}|${rating}|${text}`] occurs twice and every key of the
    input occurs. *)
Theorem dedupe_idempotent (limit : Z) (xs : list review) :
  dedupe_from ∅ (dedupe_from ∅ xs) = dedupe_from ∅ xs
  ∧ dedupe_capped limit ∅ 0 (dedupe_capped limit ∅ 0 xs) = dedupe_capped limit ∅ 0 xs
  ∧ sublist (dedupe_from ∅ xs) xs
  ∧ NoDup (map key (dedupe_from ∅ xs))
  ∧ (∀ r, In r xs → In (key r) (map key (dedupe_from ∅ xs))).
Proof.
  split; [|split; [|split; [|split]]].
  - apply dedupe_from_fresh; [apply dedupe_from_NoDup|set_solver].
  - rewrite !dedupe_capped_take.
    rewrite dedupe_from_fresh.
    + by rewrite take_take, Nat.min_id.
    + apply NoDup_take_keys, dedupe_from_NoDup.
    + set_solver.
  - apply dedupe_from_sublist.
  - apply dedupe_from_NoDup.
  - intros r Hr%list_elem_of_In.
    destruct (dedupe_from_complete xs ∅ r Hr) as [Hin|Hin]; [|done].
    by apply not_elem_of_empty in Hin.
Qed.

(** ** The field normalizer on the sample object *)

(** C7. [normalizeReview] maps
    [{username:"alice99", stars:"4.7", comment:"Great seller, fast shipping!"}]
    to [{reviewer:"alice99", rating:4.7, text:"Great seller, fast shipping!"}]:
    the rating, a string in the object, is a number (the one printed "4.7")
    in the record. *)
Theorem normalizeReview_alice :
  Fetch.normalizeReview alice
  = Some (Review (VStr (str "alice99")) (VNum (Dec 47 (-1)))
            (VStr (str "Great seller, fast shipping!")))
  ∧ prop alice (str "stars") = VStr (str "4.7")
  ∧ Num.to_string (Dec 47 (-1)) = str "4.7".
Proof. repeat split; vm_compute; reflexivity. Qed.

(** ** The body of the sample card *)

Lemma bob_block_clean : clean bob_block = bob_block.
Proof. vm_compute. reflexivity. Qed.

(** On the sample card no variant of the block parser returns the expected
    record: the text keeps the date, and in the two simpler parsers the
    rating (and the reviewer) as well. *)
Lemma body_extraction_bob_differs :
  Part001.parse_card bob_block ≠ Some bob_expected
  ∧ Fetch.parse_blocks LIMIT [bob_block] [] ≠ [bob_expected]
  ∧ Part000.parse_block bob_block ≠ Some bob_expected.
Proof. repeat split; vm_compute; intros H; discriminate H. Qed.

(** C2, as the code has it. On the sample card the parser of [part_001]
    finds the reviewer "bob_the_builder" and the rating 4.8; it removes
    "see more" and the reviewer, finds no date at the start (the rating is
    there), removes the rating, and so keeps the date: the text is
    "11/11/2025 Fast shipment and great packaging".  With the date before
    the rating the text is "Fast shipment and great packaging". *)
Theorem body_extraction_bob :
  Part001.parse_card bob_block
  = Some (Review (VStr (str "bob_the_builder")) (VNum (Dec 48 (-1)))
            (VStr (str "11/11/2025 Fast shipment and great packaging")))
  ∧ Part001.parse_card
      (str "bob_the_builder 11/11/2025 4.8 Fast shipment and great packaging see more")
    = Some bob_expected
  ∧ Num.to_string (Dec 48 (-1)) = str "4.8".
Proof. repeat split; vm_compute; reflexivity. Qed.

(** ** [clean] *)

Lemma drop_while_snoc p l c :
  Js.drop_while p (l ++ [c])
  = match Js.drop_while p l with
    | [] => if p c then [] else [c]
    | d => d ++ [c]
    end.
Proof.
  induction l as [|x l IH]; simpl; [done|].
  destruct (p x); [exact IH|done].
Qed.

Lemma trimEnd_cons c s :
  Js.trimEnd (c :: s)
  = match Js.trimEnd s with
    | [] => if Js.is_space c then [] else [c]
    | t => c :: t
    end.
Proof.
  unfold Js.trimEnd. simpl. rewrite drop_while_snoc.
  destruct (Js.drop_while Js.is_space (rev s)) as [|d l]; simpl.
  - by destruct (Js.is_space c).
  - rewrite rev_app_distr. simpl.
    destruct (rev l ++ [d]) as [|y t] eqn:E; [|done].
    by destruct (rev l).
Qed.

Lemma spaced_weaken b s : spaced b s = true → spaced false s = true.
Proof.
  destruct s as [|c r]; simpl; [done|].
  destruct (Js.is_space c); [|done].
  rewrite !andb_true_iff. tauto.
Qed.

Lemma collapse_spaces_spaced s : spaced false (Js.collapse_spaces s) = true.
Proof.
  induction s as [|c r IH]; [done|].
  cbn [Js.collapse_spaces].
  destruct (Js.is_space c) eqn:Hc.
  - destruct r as [|d r']; [done|].
    destruct (Js.is_space d) eqn:Hd; [exact IH|].
    cbn [Js.collapse_spaces] in *. rewrite Hd in *.
    simpl. rewrite Hd. simpl in IH. by rewrite Hd in IH.
  - simpl. by rewrite Hc.
Qed.

Lemma trimStart_spaced b s :
  spaced b s = true → spaced true (Js.trimStart s) = true.
Proof.
  unfold Js.trimStart. revert b. induction s as [|c r IH]; intros b; simpl; [done|].
  destruct (Js.is_space c) eqn:Hc.
  - rewrite !andb_true_iff. intros [_ H]. by apply (IH true).
  - intros H. simpl. by rewrite Hc.
Qed.

Lemma trimEnd_tidy b s :
  spaced b s = true → Js.trimEnd s = [] ∨ tidy b (Js.trimEnd s) = true.
Proof.
  revert b. induction s as [|c r IH]; intros b; [by left|].
  rewrite trimEnd_cons. simpl.
  destruct (Js.is_space c) eqn:Hc.
  - rewrite !andb_true_iff. intros [[Hc32 Hb] H].
    destruct (IH true H) as [->|Ht]; [by left|].
    destruct (Js.trimEnd r) as [|y t]; [by left|].
    right. cbn [tidy]. rewrite Hc, Hc32, Hb. exact Ht.
  - intros H. right.
    destruct (IH false H) as [->|Ht].
    + simpl. by rewrite Hc.
    + destruct (Js.trimEnd r) as [|y t]; cbn [tidy]; by rewrite Hc.
Qed.

(** What [clean] returns is in normal form. *)
Lemma clean_normal s : whitespace_normal (clean s) = true.
Proof.
  unfold clean, Js.trim.
  destruct (trimEnd_tidy true (Js.trimStart (Js.collapse_spaces s))) as [->|H].
  - eapply trimStart_spaced, collapse_spaces_spaced.
  - done.
  - unfold whitespace_normal. by destruct (Js.trimEnd _).
Qed.

Lemma tidy_spaced b s : tidy b s = true → spaced b s = true.
Proof.
  revert b. induction s as [|c r IH]; intros b; simpl; [done|].
  destruct (Js.is_space c).
  - rewrite !andb_true_iff. intros [H1 H2]. split; [done|by apply IH].
  - apply IH.
Qed.

Lemma collapse_spaces_id b s : spaced b s = true → Js.collapse_spaces s = s.
Proof.
  revert b. induction s as [|c r IH]; intros b; [done|].
  cbn [Js.collapse_spaces spaced].
  destruct (Js.is_space c) eqn:Hc.
  - rewrite !andb_true_iff. intros [[Hc32%N.eqb_eq _] H]. subst c.
    destruct r as [|d r']; [done|].
    pose proof H as H'. simpl in H'.
    destruct (Js.is_space d) eqn:Hd; [by rewrite !andb_false_r in H'|].
    f_equal. by apply (IH true).
  - intros H. f_equal. by apply (IH false).
Qed.

Lemma trimEnd_id b s : tidy b s = true → Js.trimEnd s = s.
Proof.
  revert b. induction s as [|c r IH]; intros b; [done|].
  rewrite trimEnd_cons. simpl.
  destruct (Js.is_space c) eqn:Hc.
  - rewrite !andb_true_iff. intros [_ H]. rewrite (IH true H).
    destruct r; [done|done].
  - intros H. rewrite (IH false H). by destruct r.
Qed.

(** [clean] leaves a string in normal form as it is; so it is idempotent. *)
Lemma clean_id s : whitespace_normal s = true → clean s = s.
Proof.
  destruct s as [|c r]; [done|].
  unfold whitespace_normal. intros H.
  unfold clean, Js.trim. rewrite (collapse_spaces_id true) by by apply tidy_spaced.
  assert (Js.trimStart (c :: r) = c :: r) as ->.
  { unfold Js.trimStart. simpl. simpl in H.
    destruct (Js.is_space c); [by rewrite andb_false_r in H|done]. }
  by apply (trimEnd_id true).
Qed.

Lemma clean_idempotent s : clean (clean s) = clean s.
Proof. apply clean_id, clean_normal. Qed.

(** ** The field normalizer *)

Lemma nested_defined item k keys :
  nullish item = false → is_Some (Fetch.nested item k keys).
Proof. intros H. unfold Fetch.nested, member. rewrite H. simpl. eauto. Qed.

Lemma nullish_or_defined a b : is_Some a → is_Some b → is_Some (a ?? b).
Proof.
  intros [x ->] Hb. simpl. destruct (nullish x); [done|eauto].
Qed.

Lemma rating_of_defined item : is_Some (Fetch.rating_of item).
Proof. apply nullish_or_defined; eauto. Qed.

Lemma reviewer_of_defined item : nullish item = false → is_Some (Fetch.reviewer_of item).
Proof.
  intros H. unfold Fetch.reviewer_of.
  repeat apply nullish_or_defined; eauto using nested_defined.
Qed.

Lemma text_of_defined item : nullish item = false → is_Some (Fetch.text_of item).
Proof.
  intros H. unfold Fetch.text_of.
  repeat apply nullish_or_defined; eauto using nested_defined.
Qed.

(** The rating of a record is [null] or a number other than [NaN]. *)
Lemma coerce_rating_cases v :
  Fetch.coerce_rating v = VNull
  ∨ ∃ n, Fetch.coerce_rating v = VNum n ∧ Num.isNaN n = false.
Proof.
  unfold Fetch.coerce_rating.
  destruct v as [| | |n|s| |]; try (by left).
  - destruct (Num.isNaN n) eqn:E; [by left|right; eauto].
  - destruct (Num.isNaN (Num.parseFloat s)) eqn:E; [by left|right; eauto].
Qed.

Lemma clean_string_unresolved v : (∀ s, v ≠ VStr s) → Fetch.clean_string v = [].
Proof. intros H. destruct v; try done. by destruct (H s). Qed.

(** The shape of what [normalizeReview] returns on anything but [null] and
    [undefined]. *)
Lemma normalizeReview_shape item :
  nullish item = false →
  ∃ rv rt tx,
    Fetch.reviewer_of item = Some rv ∧ Fetch.rating_of item = Some rt
    ∧ Fetch.text_of item = Some tx
    ∧ Fetch.normalizeReview item
      = Some (Review (VStr (Fetch.clean_string rv)) (Fetch.coerce_rating rt)
                (VStr (Fetch.clean_string tx))).
Proof.
  intros H.
  destruct (reviewer_of_defined item H) as [rv Hrv].
  destruct (rating_of_defined item) as [rt Hrt].
  destruct (text_of_defined item H) as [tx Htx].
  exists rv, rt, tx. unfold Fetch.normalizeReview.
  rewrite Hrv, Hrt, Htx. done.
Qed.

(** C10. On every value but [null] and [undefined], so on every object,
    [normalizeReview] returns a record and throws nothing; its reviewer and
    its text are strings in the form [clean] gives (trimmed, white space
    collapsed), the empty string when the field resolves to nothing or to a
    value that is not a string, never [null]; its rating is [null] or a
    number that is not [NaN]. *)
Theorem normalizeReview_total (item : value) :
  nullish item = false →
  ∃ r q t,
    Fetch.normalizeReview item = Some (Review (VStr r) q (VStr t))
    ∧ whitespace_normal r = true ∧ whitespace_normal t = true
    ∧ (q = VNull ∨ ∃ n, q = VNum n ∧ Num.isNaN n = false)
    ∧ (∀ v, Fetch.reviewer_of item = Some v → (∀ s, v ≠ VStr s) → r = [])
    ∧ (∀ v, Fetch.text_of item = Some v → (∀ s, v ≠ VStr s) → t = []).
Proof.
  intros H.
  destruct (normalizeReview_shape item H) as (rv & rt & tx & Hrv & Hrt & Htx & Heq).
  exists (Fetch.clean_string rv), (Fetch.coerce_rating rt), (Fetch.clean_string tx).
  split; [exact Heq|].
  split; [apply clean_normal|]. split; [apply clean_normal|].
  split; [apply coerce_rating_cases|].
  split; intros v Hv Hns.
  - rewrite Hrv in Hv. injection Hv as <-. by apply clean_string_unresolved.
  - rewrite Htx in Hv. injection Hv as <-. by apply clean_string_unresolved.
Qed.

Lemma normalizeReview_total_witness :
  ∃ r q t,
    Fetch.normalizeReview (VObj [(str "rating", VStr (str "n/a"))])
    = Some (Review (VStr r) q (VStr t))
    ∧ whitespace_normal r = true ∧ whitespace_normal t = true
    ∧ (q = VNull ∨ ∃ n, q = VNum n ∧ Num.isNaN n = false)
    ∧ (∀ v, Fetch.reviewer_of (VObj [(str "rating", VStr (str "n/a"))]) = Some v →
            (∀ s, v ≠ VStr s) → r = [])
    ∧ (∀ v, Fetch.text_of (VObj [(str "rating", VStr (str "n/a"))]) = Some v →
            (∀ s, v ≠ VStr s) → t = []).
Proof.
  apply (normalizeReview_total (VObj [(str "rating", VStr (str "n/a"))])).
  reflexivity.
Defined.

(** An object without any of the probed properties gives the empty record,
    and [null] makes [normalizeReview] throw. *)
Example normalizeReview_empty :
  Fetch.normalizeReview (VObj []) = Some (Review (VStr []) VNull (VStr []))
  ∧ Fetch.normalizeReview VNull = None.
Proof. split; reflexivity. Qed.

(** ** The structural scanner *)

(** Induction on a value, with the hypothesis for every element of an array
    and every property value of an object. *)
Lemma value_nested_ind (P : value → Prop) :
  P VUndef → P VNull → (∀ b, P (VBool b)) → (∀ n, P (VNum n)) → (∀ s, P (VStr s)) →
  (∀ items, Forall P items → P (VArr items)) →
  (∀ props, Forall (fun kv => P (snd kv)) props → P (VObj props)) →
  ∀ v, P v.
Proof.
  intros HU HN HB HNum HS HA HO.
  fix IH 1. intros [| |b|n|s|items|props].
  - exact HU.
  - exact HN.
  - apply HB.
  - apply HNum.
  - apply HS.
  - apply HA. induction items as [|x xs IHxs]; constructor; [apply IH|exact IHxs].
  - apply HO. induction props as [|[k x] xs IHxs]; constructor; [apply IH|exact IHxs].
Qed.

(** The scanner appends to [found] the review-like elements of every array
    of the payload, array by array. *)
Lemma findReviewItemsDeep_arrays v :
  ∀ found,
    Fetch.findReviewItemsDeep v found
    = found ++ concat (map (List.filter Fetch.review_like) (arrays_of v)).
Proof.
  pattern v. revert v. apply value_nested_ind.
  - intros found. simpl. by rewrite List.app_nil_r.
  - intros found. simpl. by rewrite List.app_nil_r.
  - intros b found. simpl. rewrite List.app_nil_r. by destruct b.
  - intros n found. simpl. rewrite List.app_nil_r. by destruct (Num.truthy n).
  - intros s found. simpl. rewrite List.app_nil_r. by destruct (length s).
  - intros items IH found.
    cbn [Fetch.findReviewItemsDeep truthy negb arrays_of map concat].
    assert (∀ f, (if (1 <=? length (List.filter Fetch.review_like items))%nat
                  then f ++ List.filter Fetch.review_like items else f)
                 = f ++ List.filter Fetch.review_like items) as ->.
    { intros f. destruct (List.filter Fetch.review_like items); simpl; [|done].
      by rewrite List.app_nil_r. }
    rewrite app_assoc.
    generalize (found ++ List.filter Fetch.review_like items) as f.
    induction IH as [|x xs Hx _ IHxs]; intros f; [by rewrite List.app_nil_r|].
    rewrite IHxs, Hx, map_app, concat_app, app_assoc. done.
  - intros props IH.
    cbn [Fetch.findReviewItemsDeep truthy negb arrays_of].
    induction IH as [|[k x] xs Hx _ IHxs]; intros f; [by rewrite List.app_nil_r|].
    simpl in Hx. rewrite IHxs, Hx, map_app, concat_app, app_assoc. done.
Qed.

Lemma string_eqb_eq a b : string_eqb a b = true → a = b.
Proof. unfold string_eqb. by destruct (decide (a = b)). Qed.

Lemma includes_true keys t : Fetch.includes keys t = true ↔ In t keys.
Proof.
  unfold Fetch.includes. rewrite existsb_exists. split.
  - intros (k & Hk & ->%string_eqb_eq). exact Hk.
  - intros H. exists t. split; [exact H|]. unfold string_eqb. by destruct (decide (t = t)).
Qed.

Lemma indicator_true exact part keys :
  indicator exact part keys = true
  ↔ ∃ k, In k keys ∧ (In k exact ∨ ∃ t, In t part ∧ Js.contains false t k = true).
Proof.
  unfold indicator. rewrite existsb_exists. split.
  - intros (k & Hk & H). exists k. split; [exact Hk|].
    apply orb_true_iff in H as [H|H]; apply existsb_exists in H as (t & Ht & H).
    + left. by apply string_eqb_eq in H as ->.
    + right. eauto.
  - intros (k & Hk & H). exists k. split; [exact Hk|].
    apply orb_true_iff. destruct H as [H|(t & Ht & H)]; [left|right]; apply existsb_exists.
    + exists k. split; [exact H|]. unfold string_eqb. by destruct (decide (k = k)).
    + eauto.
Qed.

Ltac indicator_cases :=
  repeat match goal with
    | H : _ ∨ _ |- _ => destruct H as [H|H]
    | H : In _ (_ :: _) |- _ => destruct H as [H|H]
    | H : In _ [] |- _ => destruct H
    | H : ∃ _, _ |- _ => destruct H as (? & H)
    | H : _ ∧ _ |- _ => destruct H as (? & H)
    | H : existsb _ _ = true |- _ => apply existsb_exists in H
    | H : (_ || _) = true |- _ => apply orb_true_iff in H
    | H : Fetch.includes _ _ = true |- _ => apply includes_true in H
    end; subst.

(** The rating test of the scanner: a key contains "rating", or is "stars"
    or "score". *)
Lemma hasRating_indicator keys :
  Fetch.hasRating keys = indicator [str "stars"; str "score"] [str "rating"] keys.
Proof.
  apply Bool.eq_iff_eq_true. rewrite indicator_true.
  unfold Fetch.hasRating, Fetch.some_contains. rewrite !orb_true_iff. split.
  - intros H. indicator_cases.
    + exists (str "rating"). split; [done|]. right. exists (str "rating"). by split; [left|].
    + exists (str "stars"). split; [done|]. left. by left.
    + exists (str "score"). split; [done|]. left. by right; left.
    + eexists. split; [eassumption|]. right. exists (str "rating"). by split; [left|].
  - intros H. indicator_cases.
    + left. left. right. by apply includes_true.
    + left. right. by apply includes_true.
    + right. apply existsb_exists. eauto.
Qed.

(** The text test: a key contains "comment", "message" or "text", or is
    "review". *)
Lemma hasText_indicator keys :
  Fetch.hasText keys
  = indicator [str "review"] [str "comment"; str "message"; str "text"] keys.
Proof.
  apply Bool.eq_iff_eq_true. rewrite indicator_true.
  unfold Fetch.hasText. rewrite !orb_true_iff. split.
  - intros H. indicator_cases.
    + exists (str "text"). split; [done|]. right. exists (str "text"). split; [|done]. simpl; tauto.
    + exists (str "message"). split; [done|]. right. exists (str "message"). split; [|done]. simpl; tauto.
    + exists (str "comment"). split; [done|]. right. exists (str "comment"). split; [|done]. simpl; tauto.
    + exists (str "review"). split; [done|]. left. by left.
    + eexists. split; [eassumption|]. right. exists (str "comment"). split; [|done]. simpl; tauto.
    + eexists. split; [eassumption|]. right. exists (str "message"). split; [|done]. simpl; tauto.
    + eexists. split; [eassumption|]. right. exists (str "text"). split; [|done]. simpl; tauto.
  - intros H. indicator_cases.
    + left. right. by apply includes_true.
    + right. apply existsb_exists. eexists. split; [eassumption|]. by rewrite H.
    + right. apply existsb_exists. eexists. split; [eassumption|]. rewrite H. by rewrite orb_true_r.
    + right. apply existsb_exists. eexists. split; [eassumption|]. rewrite H. by rewrite !orb_true_r.
Qed.

(** The user test: a key contains "user" or "buyer", or is "reviewer". *)
Lemma hasUser_indicator keys :
  Fetch.hasUser keys = indicator [str "reviewer"] [str "user"; str "buyer"] keys.
Proof.
  apply Bool.eq_iff_eq_true. rewrite indicator_true.
  unfold Fetch.hasUser. rewrite !orb_true_iff. split.
  - intros H. indicator_cases.
    + exists (str "username"). split; [done|]. right. exists (str "user"). split; [|done]. simpl; tauto.
    + exists (str "reviewer"). split; [done|]. left. by left.
    + exists (str "buyer"). split; [done|]. right. exists (str "buyer"). split; [|done]. simpl; tauto.
    + exists (str "user"). split; [done|]. right. exists (str "user"). split; [|done]. simpl; tauto.
    + eexists. split; [eassumption|]. right. exists (str "user"). split; [|done]. simpl; tauto.
    + eexists. split; [eassumption|]. right. exists (str "buyer"). split; [|done]. simpl; tauto.
  - intros H. indicator_cases.
    + left. left. left. right. by apply includes_true.
    + right. apply existsb_exists. eexists. split; [eassumption|]. by rewrite H.
    + right. apply existsb_exists. eexists. split; [eassumption|]. rewrite H. by rewrite orb_true_r.
Qed.

Lemma arrays_of_array items :
  arrays_of (VArr items) = items :: flat_map arrays_of items.
Proof. reflexivity. Qed.

Lemma arrays_of_object props :
  arrays_of (VObj props) = flat_map (fun kv => arrays_of (snd kv)) props.
Proof.
  cbn [arrays_of]. induction props as [|[k x] xs IH]; [done|].
  simpl. by rewrite IH.
Qed.

(** The arrays [arrays_of] lists hold exactly the array elements of the
    payload. *)
Lemma arrays_of_elements v x :
  (∃ items, In items (arrays_of v) ∧ In x items) ↔ array_element x v.
Proof.
  split.
  - pattern v. revert v. apply value_nested_ind.
    + by intros (l & [] & _).
    + by intros (l & [] & _).
    + by intros b (l & [] & _).
    + by intros n (l & [] & _).
    + by intros s (l & [] & _).
    + intros items IH (l & Hl & Hx). rewrite arrays_of_array in Hl.
      destruct Hl as [->|Hl]; [by apply element_here|].
      apply in_flat_map in Hl as (y & Hy & Hl).
      apply element_below with y; [done|].
      eapply List.Forall_forall in IH; [|exact Hy]. apply IH. eauto.
    + intros props IH (l & Hl & Hx). rewrite arrays_of_object in Hl.
      apply in_flat_map in Hl as ([k y] & Hy & Hl).
      apply element_under with k y; [done|].
      eapply List.Forall_forall in IH; [|exact Hy]. apply IH. eauto.
  - induction 1 as [items Hx|items y Hy _ (l & Hl & Hx)|props k y Hy _ (l & Hl & Hx)].
    + exists items. split; [|done]. rewrite arrays_of_array. by left.
    + exists l. split; [|done]. rewrite arrays_of_array. right.
      apply in_flat_map. eauto.
    + exists l. split; [|done]. rewrite arrays_of_object.
      apply in_flat_map. exists (k, y). eauto.
Qed.

(** The scanner against the words of the specification: [score_item] has a
    key that contains the rating term "score", a text key and a user key,
    and is the element of an array of [score_payload]; the scanner returns
    nothing. *)
Lemma scanner_misses_score_key :
  spec_review_like score_item = true
  ∧ In score_item (concat (arrays_of score_payload))
  ∧ Fetch.findReviewItemsDeep score_payload [] = [].
Proof.
  split; [reflexivity|]. split; [|reflexivity].
  simpl. left. reflexivity.
Qed.

(** C6, as the code has it. The scanner returns, array by array, exactly
    the elements of the arrays of the payload that are objects with, among
    their lower-cased keys, one that contains "rating" or is "stars" or
    "score", one that contains "comment", "message" or "text" or is
    "review", and one that contains "user" or "buyer" or is "reviewer".  On
    an empty array and on an empty object it returns nothing, and on a
    payload whose only array holds one such object it returns exactly that
    object. *)
Theorem scanner_collects (payload : value) :
  Fetch.findReviewItemsDeep payload []
  = concat (map (List.filter Fetch.review_like) (arrays_of payload))
  ∧ (∀ x, In x (Fetch.findReviewItemsDeep payload [])
          ↔ array_element x payload ∧ Fetch.review_like x = true)
  ∧ (∀ item,
       Fetch.review_like item
       = Fetch.isObject item
         && (indicator [str "stars"; str "score"] [str "rating"] (Fetch.lower_keys item)
             && indicator [str "review"] [str "comment"; str "message"; str "text"]
                  (Fetch.lower_keys item)
             && indicator [str "reviewer"] [str "user"; str "buyer"] (Fetch.lower_keys item)))
  ∧ Fetch.findReviewItemsDeep (VArr []) [] = []
  ∧ Fetch.findReviewItemsDeep (VObj []) [] = []
  ∧ (∀ o, arrays_of payload = [[o]] → Fetch.review_like o = true →
          Fetch.findReviewItemsDeep payload [] = [o]).
Proof.
  split; [|split; [|split; [|split; [|split]]]].
  - by rewrite findReviewItemsDeep_arrays.
  - intros x. rewrite findReviewItemsDeep_arrays, <- arrays_of_elements. simpl.
    rewrite in_concat. split.
    + intros (l & Hl & Hx). apply in_map_iff in Hl as (items & <- & Hitems).
      apply filter_In in Hx as [Hx Hlike]. eauto.
    + intros [(items & Hitems & Hx) Hlike].
      exists (List.filter Fetch.review_like items). split.
      * apply in_map_iff. eauto.
      * by apply filter_In.
  - intros item. unfold Fetch.review_like.
    by rewrite hasRating_indicator, hasText_indicator, hasUser_indicator.
  - reflexivity.
  - reflexivity.
  - intros o Harr Ho. rewrite findReviewItemsDeep_arrays, Harr. simpl. by rewrite Ho.
Qed.

Lemma scanner_collects_witness :
  Fetch.findReviewItemsDeep one_payload [] = [one_item].
Proof.
  apply (proj2 (proj2 (proj2 (proj2 (proj2 (scanner_collects one_payload))))) one_item);
    reflexivity.
Defined.

(** ** The network strategy *)

Lemma findReviewItemsDeep_review_like v x :
  In x (Fetch.findReviewItemsDeep v []) → Fetch.review_like x = true.
Proof.
  rewrite findReviewItemsDeep_arrays. simpl.
  intros (l & Hl & Hx)%in_concat.
  apply in_map_iff in Hl as (items & <- & _).
  by apply filter_In in Hx as [_ Hx].
Qed.

Lemma review_like_not_nullish x : Fetch.review_like x = true → nullish x = false.
Proof. by destruct x. Qed.

Lemma truthy_string s : truthy (VStr s) = true → s ≠ [].
Proof. by destruct s. Qed.

(** One item in the loop over a payload: it is skipped, or a record that
    passed the gate is pushed. *)
Lemma gate_cases it :
  nullish it = false →
  ∃ r, Fetch.normalizeReview it = Some r
       ∧ ((negb (truthy (reviewer r)) || negb (truthy (text r)) || nullish (rating r) = true)
          ∨ Fetch.noise (ToString (text r)) = true
          ∨ network_record r
            ∧ negb (truthy (reviewer r)) || negb (truthy (text r)) || nullish (rating r) = false
            ∧ Fetch.noise (ToString (text r)) = false).
Proof.
  intros H.
  destruct (normalizeReview_shape it H) as (rv & rt & tx & _ & _ & _ & ->).
  eexists. split; [reflexivity|].
  cbn [reviewer text rating ToString].
  destruct (negb (truthy (VStr (Fetch.clean_string rv)))
            || negb (truthy (VStr (Fetch.clean_string tx)))
            || nullish (Fetch.coerce_rating rt)) eqn:Hg; [by left|right].
  destruct (Fetch.noise (Fetch.clean_string tx)) eqn:Hn; [by left|right].
  apply orb_false_iff in Hg as [[Hr%negb_false_iff Ht%negb_false_iff]%orb_false_iff Hq].
  split; [|done].
  destruct (coerce_rating_cases rt) as [E|(n & E & Hnan)]; rewrite E in Hq; [done|].
  exists (Fetch.clean_string rv), n, (Fetch.clean_string tx).
  rewrite E. repeat split; auto using truthy_string; apply clean_normal.
Qed.

Lemma extract_items_ok items :
  Forall (fun x => nullish x = false) items →
  ∀ acc, Forall network_record acc →
         ∃ acc', Fetch.extract_items items acc = Some acc' ∧ Forall network_record acc'.
Proof.
  induction 1 as [|it items Hit _ IH]; intros acc Hacc; [by exists acc|].
  cbn [Fetch.extract_items].
  destruct (gate_cases it Hit) as (r & -> & [Hg|[Hn|(Hr & Hg & Hn)]]); cbn [bind].
  - rewrite Hg. by apply IH.
  - destruct (_ || _); [by apply IH|]. rewrite Hn. by apply IH.
  - rewrite Hg, Hn.
    assert (Forall network_record (acc ++ [r])) as Hacc'
      by (apply Forall_app; split; [done|by constructor]).
    destruct (50 <? length (acc ++ [r]))%nat; [by eexists|by apply IH].
Qed.

Lemma extract_network_ok cs :
  ∀ acc, Forall network_record acc →
         ∃ acc', Fetch.extract_network cs acc = Some acc' ∧ Forall network_record acc'.
Proof.
  induction cs as [|data cs IH]; intros acc Hacc; [by exists acc|].
  cbn [Fetch.extract_network].
  destruct (extract_items_ok (Fetch.findReviewItemsDeep data [])) with (acc := acc)
    as (acc' & -> & Hacc'); [|done|].
  { apply List.Forall_forall. intros x Hx.
    by eapply review_like_not_nullish, findReviewItemsDeep_review_like. }
  cbn [bind]. destruct (50 <? length acc')%nat; [by eexists|by apply IH].
Qed.

(** ** Tokens *)

Lemma is_digit_cases c :
  Js.is_digit c = true → In c [48; 49; 50; 51; 52; 53; 54; 55; 56; 57].
Proof.
  unfold Js.is_digit. rewrite andb_true_iff, !N.leb_le. intros [H1 H2]. simpl.
  lia.
Qed.

Lemma is_digit05_cases c :
  Js.is_digit05 c = true → In c [48; 49; 50; 51; 52; 53].
Proof.
  unfold Js.is_digit05. rewrite andb_true_iff, !N.leb_le. intros [H1 H2]. simpl.
  lia.
Qed.

Ltac each_of H :=
  repeat (destruct H as [<-|H]); [..|destruct H].

(** A rating token reads as the number it writes. *)
Lemma parseFloat_token a c :
  Js.is_digit05 a = true → Js.is_digit c = true →
  Num.parseFloat [a; 46; c]
  = (if (Z.of_N c - 48 =? 0)%Z then Dec (Z.of_N a - 48) 0
     else Dec (10 * (Z.of_N a - 48) + (Z.of_N c - 48)) (-1)).
Proof.
  intros Ha%is_digit05_cases Hc%is_digit_cases.
  each_of Ha; each_of Hc; vm_compute; reflexivity.
Qed.

Lemma token_rating_parse a c :
  Js.is_digit05 a = true → Js.is_digit c = true →
  token_rating (Num.parseFloat [a; 46; c]).
Proof.
  intros Ha Hc. exists (Z.of_N a - 48)%Z, (Z.of_N c - 48)%Z.
  rewrite (parseFloat_token a c Ha Hc).
  apply is_digit05_cases in Ha. apply is_digit_cases in Hc. simpl in Ha, Hc.
  repeat split; lia.
Qed.

(** A rating read from a token lies between 0.0 and 5.9. *)
Lemma token_rating_bounds n :
  token_rating n → Num.leb (Dec 0 0) n = true ∧ Num.leb n (Dec 59 (-1)) = true.
Proof.
  intros (a & b & Ha & Hb & ->).
  assert (In a [0; 1; 2; 3; 4; 5]%Z) as Ha' by (simpl; lia).
  assert (In b [0; 1; 2; 3; 4; 5; 6; 7; 8; 9]%Z) as Hb' by (simpl; lia).
  clear Ha Hb. each_of Ha'; each_of Hb'; vm_compute; done.
Qed.

Lemma rating_token_shape s tok rest :
  Token.rating_token s = Some (tok, rest) →
  ∃ a c, tok = [a; 46; c] ∧ Js.is_digit05 a = true ∧ Js.is_digit c = true.
Proof.
  destruct s as [|a [|b [|c r]]]; try done. simpl.
  destruct (Js.is_digit05 a) eqn:Ha; [|done].
  destruct (N.eqb_spec b 46) as [->|]; [|done].
  destruct (Js.is_digit c) eqn:Hc; [|done].
  destruct (negb (Token.next_is_word r)); [|done].
  intros [= <- <-]. eauto.
Qed.

Lemma rating_match_shape t tok :
  Token.rating_match t = Some tok →
  ∃ a c, tok = [a; 46; c] ∧ Js.is_digit05 a = true ∧ Js.is_digit c = true.
Proof.
  unfold Token.rating_match. generalize false as b.
  induction t as [|x t IH]; intros b; [done|].
  cbn [Token.rating_match_from].
  destruct (if b then None else Token.rating_token (x :: t)) as [[tok' rest]|] eqn:E.
  - intros [= <-]. destruct b; [done|]. by eapply rating_token_shape.
  - apply IH.
Qed.

Lemma take_while_all p s : Forall (fun c => p c = true) (Js.take_while p s).
Proof.
  induction s as [|c s IH]; simpl; [constructor|].
  destruct (p c) eqn:E; by constructor.
Qed.

Lemma leading_handle_handle t w : Token.leading_handle t = Some w → handle 3 25 w.
Proof.
  unfold Token.leading_handle, handle.
  destruct (_ && _) eqn:E; [|done]. intros [= <-].
  apply andb_true_iff in E as [H1%Nat.leb_le H2%Nat.leb_le].
  split; [apply take_while_all|lia].
Qed.

(** ** [trim] *)

Lemma drop_while_head p s c r : Js.drop_while p s = c :: r → p c = false.
Proof.
  induction s as [|x s IH]; simpl; [done|].
  destruct (p x) eqn:E; [exact IH|]. by intros [= <- <-].
Qed.

Lemma drop_while_idem p s : Js.drop_while p (Js.drop_while p s) = Js.drop_while p s.
Proof.
  destruct (Js.drop_while p s) as [|c r] eqn:E; [done|].
  simpl. by rewrite (drop_while_head p s c r E).
Qed.

Lemma trimEnd_idem s : Js.trimEnd (Js.trimEnd s) = Js.trimEnd s.
Proof. unfold Js.trimEnd. by rewrite rev_involutive, drop_while_idem. Qed.

Lemma trimEnd_head c r :
  Js.is_space c = false → ∃ t, Js.trimEnd (c :: r) = c :: t.
Proof.
  intros Hc. rewrite trimEnd_cons, Hc. destruct (Js.trimEnd r); eauto.
Qed.

(** A trimmed string is empty or starts with a character other than white
    space. *)
Lemma trim_head s :
  Js.trim s = [] ∨ ∃ c t, Js.trim s = c :: t ∧ Js.is_space c = false.
Proof.
  unfold Js.trim, Js.trimStart.
  destruct (Js.drop_while Js.is_space s) as [|c r] eqn:E; [by left|right].
  pose proof (drop_while_head _ _ _ _ E) as Hc.
  destruct (trimEnd_head c r Hc) as (t & ->). eauto.
Qed.

Lemma trim_idem s : Js.trim (Js.trim s) = Js.trim s.
Proof.
  destruct (trim_head s) as [->|(c & t & E & Hc)]; [done|].
  unfold Js.trim at 1. rewrite E. unfold Js.trimStart. simpl. rewrite Hc.
  rewrite <- E. unfold Js.trim. apply trimEnd_idem.
Qed.

Lemma is_word_not_space c : Js.is_word c = true → Js.is_space c = false.
Proof.
  unfold Js.is_word, Js.is_digit, Js.is_space.
  rewrite !orb_true_iff, !andb_true_iff, !N.leb_le, N.eqb_eq. intros H.
  repeat (apply orb_false_iff; split); rewrite ?andb_false_iff, ?N.leb_gt, ?N.eqb_neq; lia.
Qed.

Lemma words_tidy b s : Forall (fun c => Js.is_word c = true) s → s ≠ [] → tidy b s = true.
Proof.
  intros H. revert b. induction H as [|c s Hc _ IH]; intros b Hne; [done|].
  simpl. rewrite (is_word_not_space c Hc).
  destruct s; [done|]. by apply IH.
Qed.

(** [clean] leaves a handle as it is. *)
Lemma clean_handle lo hi s : handle lo hi s → clean s = s.
Proof.
  intros [H _]. apply clean_id. destruct s as [|c r]; [done|].
  by apply words_tidy.
Qed.

(** [clean] of a string that starts with something else than white space
    starts with the same character. *)
Lemma clean_head c r : Js.is_space c = false → ∃ t, clean (c :: r) = c :: t.
Proof.
  intros Hc. unfold clean, Js.trim, Js.trimStart.
  cbn [Js.collapse_spaces]. rewrite Hc. simpl. rewrite Hc. by apply trimEnd_head.
Qed.

Lemma clean_trimmed_nonempty s : Js.trim s = s → s ≠ [] → clean s ≠ [].
Proof.
  intros Ht Hne. destruct (trim_head s) as [E|(c & t & E & Hc)]; [congruence|].
  rewrite Ht in E. subst s. by destruct (clean_head c t Hc) as (t' & ->).
Qed.

(** ** The DOM fallback of [fetch-whatnot-reviews.mjs] *)

Lemma parse_blocks_dom limit blocks :
  ∀ out, Forall dom_record out → Forall dom_record (Fetch.parse_blocks limit blocks out).
Proof.
  induction blocks as [|t blocks IH]; intros out Hout; [done|].
  cbn [Fetch.parse_blocks].
  destruct (_ || _); [by apply IH|].
  destruct (Token.rating_match t) as [tok|] eqn:Hr; [|by apply IH].
  destruct (Token.leading_handle t) as [w|] eqn:Hw; [|by apply IH].
  cbv zeta.
  destruct (Nat.ltb_spec
              (length (Js.trim (Token.strip_handle w
                         (Js.trim (Js.remove_all_ci (str "see more") t))))) 10)
    as [_|Hlen]; [by apply IH|].
  match goal with |- context [out ++ [?r]] =>
    assert (Forall dom_record (out ++ [r])) as Hout' end.
  { apply Forall_app. split; [done|]. constructor; [|done].
    eexists _, _, _. split; [reflexivity|].
    split; [by eapply leading_handle_handle|].
    split; [|split; [exact Hlen|apply trim_idem]].
    apply rating_match_shape in Hr as (a & c & -> & Ha & Hc).
    by apply token_rating_parse. }
  destruct (_ <=? _)%Z; [done|by apply IH].
Qed.

Lemma slice0_take {A} (xs : list A) e : ∃ k, slice0 xs e = take k xs.
Proof. unfold slice0. eauto. Qed.

Lemma slice0_length {A} (xs : list A) e :
  (0 ≤ e)%Z → (Z.of_nat (length (slice0 xs e)) ≤ e)%Z.
Proof.
  intros He. unfold slice0.
  destruct (Z.ltb_spec e 0) as [?|_]; [lia|].
  rewrite length_take. lia.
Qed.

Lemma slice0_Forall {A} (P : A → Prop) xs e : Forall P xs → Forall P (slice0 xs e).
Proof. destruct (slice0_take xs e) as [k ->]. apply Forall_take. Qed.

Lemma dom_fallback_records limit doc : Forall dom_record (Fetch.dom_fallback limit doc).
Proof. apply slice0_Forall, parse_blocks_dom. constructor. Qed.

(** ** The saved document *)

Lemma network_record_strings r : network_record r → string_fields r.
Proof. intros (rv & n & tx & -> & _). by exists rv, tx. Qed.

Lemma dom_record_strings r : dom_record r → string_fields r.
Proof. intros (rv & n & tx & -> & _). by exists rv, tx. Qed.

Lemma clean_value_string s : clean_value (VStr s) = Some (clean s).
Proof. unfold clean_value. simpl. by destruct s. Qed.

(** On records whose reviewer and text are strings the map to the saved
    reviews throws nothing. *)
Lemma map_entries_ok rs :
  Forall string_fields rs →
  ∃ es,
    Fetch.map_entries rs = Some es
    ∧ Forall2 (fun r e => ∃ rv tx,
                 reviewer r = VStr rv ∧ text r = VStr tx
                 ∧ e = Entry (clean rv)
                         (if is_number (rating r) then rating r else VNum (Dec 5 0))
                         (clean tx)) rs es.
Proof.
  induction 1 as [|r rs (rv & tx & Hr & Ht) _ (es & IH & Hes)].
  - exists []. by split; [|constructor].
  - eexists. cbn [Fetch.map_entries]. unfold Fetch.to_entry.
    rewrite Hr, Ht, !clean_value_string, IH. cbn [bind].
    split; [reflexivity|]. constructor; [|done]. by exists rv, tx.
Qed.

Lemma map_entries_length rs es : Fetch.map_entries rs = Some es → length es = length rs.
Proof.
  revert es. induction rs as [|r rs IH]; intros es; cbn [Fetch.map_entries].
  - by intros [= <-].
  - destruct (Fetch.to_entry r); [|done]. cbn [bind].
    destruct (Fetch.map_entries rs) as [es'|]; [|done]. cbn [bind].
    intros [= <-]. simpl. by rewrite (IH es').
Qed.

Lemma map_entries_rating rs es :
  Fetch.map_entries rs = Some es →
  Forall2 (fun r e =>
             out_rating e = if is_number (rating r) then rating r else VNum (Dec 5 0))
    rs es.
Proof.
  revert es. induction rs as [|r rs IH]; intros es; cbn [Fetch.map_entries].
  - intros [= <-]. constructor.
  - unfold Fetch.to_entry.
    destruct (clean_value (reviewer r)); [|done]. cbn [bind].
    destruct (clean_value (text r)); [|done]. cbn [bind].
    destruct (Fetch.map_entries rs) as [es'|]; [|done]. cbn [bind].
    intros [= <-]. constructor; [done|by apply IH].
Qed.

Lemma map_entries_rating_000 rs es :
  Part000.map_entries rs = Some es →
  Forall2 (fun r e =>
             out_rating e = if nullish (rating r) then VNum (Dec 5 0) else rating r)
    rs es.
Proof.
  revert es. induction rs as [|r rs IH]; intros es; cbn [Part000.map_entries].
  - intros [= <-]. constructor.
  - unfold Part000.to_entry.
    destruct (clean_value (reviewer r)); [|done]. cbn [bind].
    destruct (clean_value (text r)); [|done]. cbn [bind].
    destruct (Part000.map_entries rs) as [es'|]; [|done]. cbn [bind].
    intros [= <-]. constructor; [done|by apply IH].
Qed.

Lemma dedupe_from_Forall (P : review → Prop) rs seen :
  Forall P rs → Forall P (dedupe_from seen rs).
Proof.
  intros H. eapply List.Forall_forall. intros r Hr.
  eapply List.Forall_forall in H; [exact H|].
  apply list_elem_of_In. eapply elem_of_sublist; [|apply dedupe_from_sublist].
  apply list_elem_of_In, Hr.
Qed.

(** What [main] does, strategy by strategy: the network records are read
    without an exception; when any is left after deduplication, the first
    [limit] of them are saved and the page is not read; otherwise the page
    is read and the first [limit] records of the fallback are saved. *)
Lemma main_strategies limit now cs doc :
  ∃ net es,
    Fetch.extract_network cs [] = Some net
    ∧ Forall network_record net
    ∧ (dedupe_from ∅ net ≠ [] →
       Fetch.map_entries (slice0 (dedupe_from ∅ net) limit) = Some es
       ∧ Fetch.main limit now cs doc
         = Some (Fetch.Run [Fetch.NetworkJson]
                   (Payload (str "whatnot") TARGET_URL now
                      (length (slice0 (dedupe_from ∅ net) limit)) es)))
    ∧ (dedupe_from ∅ net = [] →
       Fetch.map_entries (slice0 (Fetch.dom_fallback limit doc) limit) = Some es
       ∧ Fetch.main limit now cs doc
         = Some (Fetch.Run [Fetch.NetworkJson; Fetch.DomBlocks]
                   (Payload (str "whatnot") TARGET_URL now
                      (length (slice0 (Fetch.dom_fallback limit doc) limit)) es))).
Proof.
  destruct (extract_network_ok cs []) as (net & Hnet & Hrec); [constructor|].
  unfold Fetch.main. rewrite Hnet. cbn [bind]. cbv zeta.
  destruct (dedupe_from ∅ net) as [|r rs] eqn:Hd.
  - destruct (map_entries_ok (slice0 (Fetch.dom_fallback limit doc) limit))
      as (es & Hes & _).
    { apply slice0_Forall. eapply Forall_impl; [apply dom_fallback_records|].
      apply dom_record_strings. }
    exists net, es. rewrite Hd.
    split; [done|]. split; [done|]. split; intros Hne; [done|].
    split; [done|]. cbn [length Nat.eqb]. by rewrite Hes.
  - destruct (map_entries_ok (slice0 (r :: rs) limit)) as (es & Hes & _).
    { apply slice0_Forall. rewrite <- Hd. apply dedupe_from_Forall.
      eapply Forall_impl; [exact Hrec|]. apply network_record_strings. }
    exists net, es. rewrite Hd.
    split; [done|]. split; [done|]. split; intros Hne; [|done].
    split; [done|]. cbn [length Nat.eqb]. by rewrite Hes.
Qed.

(** ** The parsers of [part_001] and [part_000] *)

Lemma parse_card_record raw r : Part001.parse_card raw = Some r → dom_record r.
Proof.
  unfold Part001.parse_card, Part001.getRating, Part001.getReviewer.
  destruct (Part001.isNoise raw); [done|].
  destruct (Token.rating_match raw) as [tok|] eqn:Hr; [|done].
  destruct (Token.leading_handle raw) as [w|] eqn:Hw; [|done].
  cbv zeta.
  destruct (Nat.ltb_spec (length (Part001.body_of w raw)) 10) as [_|Hlen]; [done|].
  destruct (Js.search Token.summary_line _); [done|].
  intros [= <-]. eexists _, _, _. split; [reflexivity|].
  split; [by eapply leading_handle_handle|].
  split; [|split; [exact Hlen|apply trim_idem]].
  apply rating_match_shape in Hr as (a & c & -> & Ha & Hc).
  by apply token_rating_parse.
Qed.

Lemma parse_cards_records limit cards :
  ∀ out, Forall dom_record out → Forall dom_record (Part001.parse_cards limit cards out).
Proof.
  induction cards as [|card cards IH]; intros out Hout; [done|].
  cbn [Part001.parse_cards].
  destruct (Part001.parse_card _) as [r|] eqn:Hr; [|by apply IH].
  cbv zeta.
  assert (Forall dom_record (out ++ [r])) as Hout'.
  { apply Forall_app. split; [done|]. constructor; [|done]. by eapply parse_card_record. }
  destruct (_ <=? _)%Z; [done|by apply IH].
Qed.

Lemma dedupe_capped_Forall (P : review → Prop) limit rs :
  Forall P rs → Forall P (dedupe_capped limit ∅ 0 rs).
Proof.
  intros H. rewrite dedupe_capped_take. by apply Forall_take, dedupe_from_Forall.
Qed.

Lemma evaluate_records limit doc : Forall dom_record (Part001.evaluate limit doc).
Proof.
  apply slice0_Forall, dedupe_capped_Forall, parse_cards_records. constructor.
Qed.

Lemma word_match_handle t :
  ∀ b w, Token.word_match_from b t = Some w → handle 3 20 w.
Proof.
  induction t as [|c t IH]; intros b w; [done|].
  cbn [Token.word_match_from]. cbv zeta.
  pose proof (take_while_all Js.is_word (c :: t)) as Hall.
  remember (Js.take_while Js.is_word (c :: t)) as w0 eqn:Hw0. clear Hw0.
  destruct (_ && _) eqn:E; [|apply IH].
  intros [= <-].
  apply andb_true_iff in E as [[_ H1%Nat.leb_le]%andb_true_iff H2%Nat.leb_le].
  split; [exact Hall|lia].
Qed.

Lemma parse_block_record t r : Part000.parse_block t = Some r → block_record r.
Proof.
  unfold Part000.parse_block.
  destruct (Token.rating_match t) as [tok|] eqn:Hr; [|done].
  destruct (Token.word_match_from false t) as [w|] eqn:Hw; [|done].
  cbv zeta.
  match goal with |- context [Part000.split_count ?x] =>
    destruct (Nat.ltb_spec (Part000.split_count x) 5) as [_|Hlen]; [done|] end.
  intros [= <-]. eexists _, _, _. split; [reflexivity|].
  split; [by eapply word_match_handle|]. split; [|exact Hlen].
  apply rating_match_shape in Hr as (a & c & -> & Ha & Hc).
  by apply token_rating_parse.
Qed.

Lemma parse_blocks_records limit blocks :
  ∀ out, Forall block_record out → Forall block_record (Part000.parse_blocks limit blocks out).
Proof.
  induction blocks as [|t blocks IH]; intros out Hout; [done|].
  cbn [Part000.parse_blocks].
  destruct (Part000.parse_block t) as [r|] eqn:Hr; [|by apply IH].
  cbv zeta.
  assert (Forall block_record (out ++ [r])) as Hout'.
  { apply Forall_app. split; [done|]. constructor; [|done]. by eapply parse_block_record. }
  destruct (_ <=? _)%Z; [done|by apply IH].
Qed.

Lemma evaluate_000_records limit doc rs :
  Part000.evaluate limit doc = Some rs → Forall block_record rs.
Proof.
  unfold Part000.evaluate. destruct (Part000.find_root doc) as [root|]; [|done].
  cbn [bind]. intros [= <-].
  apply slice0_Forall, dedupe_capped_Forall, parse_blocks_records. constructor.
Qed.

Lemma block_record_strings r : block_record r → string_fields r.
Proof. intros (rv & n & tx & -> & _). by exists rv, tx. Qed.

Lemma map_entries_000_ok rs :
  Forall string_fields rs →
  ∃ es,
    Part000.map_entries rs = Some es
    ∧ Forall2 (fun r e => ∃ rv tx,
                 reviewer r = VStr rv ∧ text r = VStr tx
                 ∧ e = Entry (clean rv)
                         (if nullish (rating r) then VNum (Dec 5 0) else rating r)
                         (clean tx)) rs es.
Proof.
  induction 1 as [|r rs (rv & tx & Hr & Ht) _ (es & IH & Hes)].
  - exists []. by split; [|constructor].
  - eexists. cbn [Part000.map_entries]. unfold Part000.to_entry.
    rewrite Hr, Ht, !clean_value_string, IH. cbn [bind].
    split; [reflexivity|]. constructor; [|done]. by exists rv, tx.
Qed.

(** ** The size of the result *)

Lemma main_001_defined limit now doc :
  ∃ es,
    Fetch.map_entries (Part001.evaluate limit doc) = Some es
    ∧ Part001.main limit now doc
      = Some (Payload (str "whatnot") TARGET_URL now
                (length (Part001.evaluate limit doc)) es).
Proof.
  destruct (map_entries_ok (Part001.evaluate limit doc)) as (es & Hes & _).
  { eapply Forall_impl; [apply evaluate_records|]. apply dom_record_strings. }
  exists es. split; [done|]. unfold Part001.main. by rewrite Hes.
Qed.

Lemma main_000_defined limit now doc rs :
  Part000.evaluate limit doc = Some rs →
  ∃ es,
    Part000.map_entries rs = Some es
    ∧ Part000.main limit now doc
      = Some (Payload (str "whatnot") TARGET_URL now (length rs) es).
Proof.
  intros Hrs. destruct (map_entries_000_ok rs) as (es & Hes & _).
  { eapply Forall_impl; [by eapply evaluate_000_records|]. apply block_record_strings. }
  exists es. split; [done|]. unfold Part000.main. rewrite Hrs. cbn [bind]. by rewrite Hes.
Qed.

Lemma map_entries_000_length rs es :
  Part000.map_entries rs = Some es → length es = length rs.
Proof.
  intros H%map_entries_rating_000. symmetry. by eapply Forall2_length.
Qed.

(** C8. For every limit [N >= 0] the saved document holds at most [N]
    reviews, and [count] is their number: in [fetch-whatnot-reviews.mjs]
    and in [part_001], which always save a document, and in [part_000]
    whenever it saves one. *)
Theorem result_within_limit (limit : Z) (now : list N) (cs : list value) (doc : node) :
  (0 ≤ limit)%Z →
  (∃ run, Fetch.main limit now cs doc = Some run
          ∧ (Z.of_nat (length (reviews (Fetch.saved run))) ≤ limit)%Z
          ∧ count (Fetch.saved run) = length (reviews (Fetch.saved run)))
  ∧ (∃ p, Part001.main limit now doc = Some p
          ∧ (Z.of_nat (length (reviews p)) ≤ limit)%Z
          ∧ count p = length (reviews p))
  ∧ (∀ p, Part000.main limit now doc = Some p →
          (Z.of_nat (length (reviews p)) ≤ limit)%Z ∧ count p = length (reviews p)).
Proof.
  intros Hlimit. split; [|split].
  - destruct (main_strategies limit now cs doc) as (net & es & _ & _ & Hnet & Hdom).
    destruct (dedupe_from ∅ net) as [|r rs] eqn:Hd.
    + destruct Hdom as [Hes ->]; [done|]. eexists. split; [reflexivity|].
      cbn [Fetch.saved reviews count]. rewrite (map_entries_length _ _ Hes).
      split; [by apply slice0_length|done].
    + destruct Hnet as [Hes ->]; [done|]. eexists. split; [reflexivity|].
      cbn [Fetch.saved reviews count]. rewrite (map_entries_length _ _ Hes).
      split; [by apply slice0_length|done].
  - destruct (main_001_defined limit now doc) as (es & Hes & ->).
    eexists. split; [reflexivity|]. cbn [reviews count].
    rewrite (map_entries_length _ _ Hes). split; [by apply slice0_length|done].
  - intros p. unfold Part000.main, Part000.evaluate.
    destruct (Part000.find_root doc) as [root|]; [|done]. cbn [bind].
    destruct (Part000.map_entries _) as [es|] eqn:Hes; [|done]. cbn [bind].
    intros [= <-]. cbn [reviews count].
    rewrite (map_entries_000_length _ _ Hes). split; [by apply slice0_length|done].
Qed.

Lemma result_within_limit_witness :
  (∃ run, Fetch.main LIMIT [] [alice_payload] empty_page = Some run
          ∧ (Z.of_nat (length (reviews (Fetch.saved run))) ≤ LIMIT)%Z
          ∧ count (Fetch.saved run) = length (reviews (Fetch.saved run)))
  ∧ (∃ p, Part001.main LIMIT [] empty_page = Some p
          ∧ (Z.of_nat (length (reviews p)) ≤ LIMIT)%Z
          ∧ count p = length (reviews p))
  ∧ (∀ p, Part000.main LIMIT [] empty_page = Some p →
          (Z.of_nat (length (reviews p)) ≤ LIMIT)%Z ∧ count p = length (reviews p)).
Proof.
  apply (result_within_limit LIMIT [] [alice_payload] empty_page).
  unfold LIMIT. lia.
Defined.

(** With a negative limit [slice] counts from the end, and the bound is
    lost: the hypothesis [N >= 0] is needed. *)
Example negative_limit :
  slice0 [1; 2; 3]%nat (-1) = [1; 2]%nat.
Proof. reflexivity. Qed.

(** ** The rating of a saved review *)

Lemma evaluate_000_numbers limit doc rs :
  Part000.evaluate limit doc = Some rs → Forall (fun r => is_number (rating r) = true) rs.
Proof.
  intros H%evaluate_000_records. eapply Forall_impl; [exact H|].
  by intros r (rv & n & tx & -> & _).
Qed.

(** C9. When a record is saved, a rating that is not a number is replaced
    by 5.0 and a number is saved as it is: in [fetch-whatnot-reviews.mjs]
    and [part_001] for any value of the field; in [part_000], which tests
    for [null] and [undefined] only, for every rating that is a number,
    [null] or [undefined], and its records all have a number. *)
Theorem payload_rating_default (rs : list review) (es : list entry) :
  (Fetch.map_entries rs = Some es →
   Forall2 (fun r e =>
              out_rating e = if is_number (rating r) then rating r else VNum (Dec 5 0))
     rs es)
  ∧ (Part000.map_entries rs = Some es →
     Forall2 (fun r e =>
                is_number (rating r) || nullish (rating r) = true →
                out_rating e = if is_number (rating r) then rating r else VNum (Dec 5 0))
       rs es)
  ∧ (∀ limit doc, Part000.evaluate limit doc = Some rs →
                  Forall (fun r => is_number (rating r) = true) rs).
Proof.
  split; [apply map_entries_rating|]. split; [|intros; by eapply evaluate_000_numbers].
  intros H%map_entries_rating_000.
  eapply Forall2_impl; [exact H|].
  intros r e -> Hv. by destruct (rating r).
Qed.

Lemma payload_rating_default_witness :
  Forall2 (fun r e =>
             out_rating e = if is_number (rating r) then rating r else VNum (Dec 5 0))
    unrated_and_rated
    [ Entry (str "ann_lee") (VNum (Dec 5 0)) (str "Arrived quickly");
      Entry (str "bob_the_builder") (VNum (Dec 48 (-1))) (str "Great packaging") ].
Proof.
  apply (proj1 (payload_rating_default unrated_and_rated _)).
  vm_compute. reflexivity.
Defined.

(** ** The order of the strategies *)

(** C3, where the code departs from it. With no captured payload [main]
    reads the page, and what the fallback finds is saved as it is: on a page
    with one review inside two nested [div]s the review is saved twice,
    while the deduplication would keep one record. *)
Theorem fallback_keeps_duplicates :
  Fetch.main LIMIT (str "2026-01-01T00:00:00.000Z") [] nested_page
  = Some (Fetch.Run [Fetch.NetworkJson; Fetch.DomBlocks]
            (Payload (str "whatnot") TARGET_URL (str "2026-01-01T00:00:00.000Z") 2
               [ Entry (str "alice_99") (VNum (Dec 5 0))
                   (str "5.0 Great seller, super fast shipping and well packed");
                 Entry (str "alice_99") (VNum (Dec 5 0))
                   (str "5.0 Great seller, super fast shipping and well packed") ]))
  ∧ length (dedupe_from ∅ (Fetch.dom_fallback LIMIT nested_page)) = 1%nat.
Proof. split; vm_compute; reflexivity. Qed.

(** With nothing captured and nothing on the page the run still saves a
    document, an empty one. *)
Example main_no_results :
  Fetch.main LIMIT [] [] empty_page
  = Some (Fetch.Run [Fetch.NetworkJson; Fetch.DomBlocks]
            (Payload (str "whatnot") TARGET_URL [] 0 [])).
Proof. vm_compute. reflexivity. Qed.

(** With a review in a captured payload the page is not read. *)
Example main_network_only :
  Fetch.main LIMIT [] [alice_payload] nested_page
  = Some (Fetch.Run [Fetch.NetworkJson]
            (Payload (str "whatnot") TARGET_URL [] 1
               [ Entry (str "alice99") (VNum (Dec 47 (-1)))
                   (str "Great seller, fast shipping!") ])).
Proof. vm_compute. reflexivity. Qed.

(** ** The key of a record read from the page *)

Lemma split_at_bar (a b c d : list N) :
  Forall (fun x => x ≠ 124) a → Forall (fun x => x ≠ 124) c →
  a ++ 124 :: b = c ++ 124 :: d → a = c ∧ b = d.
Proof.
  intros Ha. revert c. induction Ha as [|x a Hx _ IH]; intros c Hc E.
  - destruct Hc as [|y c Hy _]; simpl in E.
    + by injection E as ->.
    + injection E as E _. by subst y.
  - destruct Hc as [|y c Hy Hc]; simpl in E.
    + injection E as E _. by subst x.
    + injection E as -> E. by destruct (IH c Hc E) as [-> ->].
Qed.

Lemma handle_no_bar lo hi s : handle lo hi s → Forall (fun x => x ≠ 124) s.
Proof.
  intros [H _]. eapply Forall_impl; [exact H|].
  intros c Hc ->. by vm_compute in Hc.
Qed.

(** The rating of a token prints without a bar and reads back as itself. *)
Lemma token_rating_print n :
  token_rating n →
  Forall (fun x => x ≠ 124) (Num.to_string n) ∧ Num.parseFloat (Num.to_string n) = n.
Proof.
  intros (a & b & Ha & Hb & ->).
  assert (In a [0; 1; 2; 3; 4; 5]%Z) as Ha' by (simpl; lia).
  assert (In b [0; 1; 2; 3; 4; 5; 6; 7; 8; 9]%Z) as Hb' by (simpl; lia).
  clear Ha Hb. each_of Ha'; each_of Hb';
    (split; [vm_compute; repeat constructor; done|vm_compute; reflexivity]).
Qed.

(** Two records read from the page that have the same key are the same
    record: there the key stands for the triple. *)
Lemma key_injective r1 r2 :
  dom_record r1 → dom_record r2 → key r1 = key r2 → r1 = r2.
Proof.
  intros (rv1 & n1 & tx1 & -> & Hh1 & Hn1 & _) (rv2 & n2 & tx2 & -> & Hh2 & Hn2 & _).
  unfold key. cbn [reviewer rating text ToString].
  change (str "|") with [124]. simpl. intros E.
  apply split_at_bar in E as [-> E]; eauto using handle_no_bar.
  destruct (token_rating_print n1 Hn1) as [Hb1 Hp1].
  destruct (token_rating_print n2 Hn2) as [Hb2 Hp2].
  apply split_at_bar in E as [E ->]; [|done|done].
  rewrite <- Hp1, <- Hp2, E. done.
Qed.

(** ** The anchor strategy on three cards *)

Lemma seen_one (k k' : list N) : k ∈ {[k']} ∪ (∅ : gset (list N)) → k = k'.
Proof.
  intros [H%elem_of_singleton|H]%elem_of_union; [done|].
  by apply not_elem_of_empty in H.
Qed.

Lemma dedupe_three a b c :
  dom_record a → dom_record b → dom_record c →
  (a = b → c ≠ a → dedupe_from ∅ [a; b; c] = [a; c])
  ∧ (a ≠ b → c = a ∨ c = b → dedupe_from ∅ [a; b; c] = [a; b]).
Proof.
  intros Ha Hb Hc. split.
  - intros <- Hne. simpl.
    destruct (decide (key a ∈ (∅ : gset (list N)))) as [Hin|_]; [by set_solver|].
    destruct (decide (key a ∈ {[key a]} ∪ (∅ : gset (list N)))) as [_|Hout]; [|by set_solver].
    destruct (decide (key c ∈ {[key a]} ∪ (∅ : gset (list N)))) as [Hin|_]; [|done].
    exfalso. apply Hne. apply key_injective; [done|done|by apply seen_one].
  - intros Hne Hdup. simpl.
    destruct (decide (key a ∈ (∅ : gset (list N)))) as [Hin|_]; [by set_solver|].
    destruct (decide (key b ∈ {[key a]} ∪ (∅ : gset (list N)))) as [Hin|_].
    { exfalso. apply Hne. symmetry. apply key_injective; [done|done|by apply seen_one]. }
    destruct (decide (key c ∈ {[key b]} ∪ ({[key a]} ∪ (∅ : gset (list N))))) as [_|Hout]; [done|].
    exfalso. destruct Hdup as [->| ->]; by set_solver.
Qed.

(** C4. When the "see more" anchors of a page lead to three cards, each of
    which parses to a record, and one record repeats another in reviewer,
    rating and text, a run of [part_001] with the limit 6 saves exactly two
    reviews, in the order in which they were first seen. *)
Theorem anchor_run_two_records (now : list N) (doc c1 c2 c3 : node) (a b c : review) :
  Part001.anchor_cards doc = [c1; c2; c3] →
  Part001.parse_card (clean (textContent c1)) = Some a →
  Part001.parse_card (clean (textContent c2)) = Some b →
  Part001.parse_card (clean (textContent c3)) = Some c →
  (a = b ∧ c ≠ a) ∨ (a ≠ b ∧ (c = a ∨ c = b)) →
  ∃ second es,
    (a = b → second = c) ∧ (a ≠ b → second = b)
    ∧ Part001.evaluate 6 doc = [a; second]
    ∧ Part001.main 6 now doc = Some (Payload (str "whatnot") TARGET_URL now 2 es)
    ∧ length es = 2%nat.
Proof.
  intros Hcards H1 H2 H3 Hdup.
  pose proof (parse_card_record _ _ H1) as Ha.
  pose proof (parse_card_record _ _ H2) as Hb.
  pose proof (parse_card_record _ _ H3) as Hc.
  assert (Part001.parse_cards 6 (Part001.candidate_cards doc) [] = [a; b; c]) as Hout.
  { unfold Part001.candidate_cards. rewrite Hcards. cbn [length Nat.eqb].
    cbn [Part001.parse_cards]. rewrite H1, H2, H3. reflexivity. }
  destruct (dedupe_three a b c Ha Hb Hc) as [Hab Hnab].
  assert (∃ second, ((a = b → second = c) ∧ (a ≠ b → second = b))
                    ∧ dedupe_from ∅ [a; b; c] = [a; second]) as (second & Hsec & Hd).
  { destruct Hdup as [[Heq Hne]|[Hne Hc']].
    - exists c. split; [by split|by apply Hab].
    - exists b. split; [by split|by apply Hnab]. }
  assert (Part001.evaluate 6 doc = [a; second]) as Hev.
  { unfold Part001.evaluate. rewrite Hout, dedupe_capped_take, Hd. reflexivity. }
  destruct (main_001_defined 6 now doc) as (es & Hes & Hmain).
  exists second, es. rewrite Hmain, Hev. simpl.
  destruct Hsec as [Hs1 Hs2]. repeat split; try done.
  rewrite Hev in Hes. by rewrite (map_entries_length _ _ Hes).
Qed.

Lemma anchor_run_two_records_witness :
  ∃ second es,
    (card_alice = card_bob → second = card_alice)
    ∧ (card_alice ≠ card_bob → second = card_bob)
    ∧ Part001.evaluate 6 three_cards_page = [card_alice; second]
    ∧ Part001.main 6 [] three_cards_page
      = Some (Payload (str "whatnot") TARGET_URL [] 2 es)
    ∧ length es = 2%nat.
Proof.
  apply (anchor_run_two_records [] three_cards_page
           (see_more_card (str "alice_99 5.0 Great seller, fast shipping and well packed "))
           (see_more_card (str "bob_the_builder 4.8 Fast shipment and great packaging "))
           (see_more_card (str "alice_99 5.0 Great seller, fast shipping and well packed "))
           card_alice card_bob card_alice).
  - vm_compute. reflexivity.
  - vm_compute. reflexivity.
  - vm_compute. reflexivity.
  - vm_compute. reflexivity.
  - right. split; [discriminate|by left].
Defined.

(** The whole run on the sample page. *)
Example anchor_run_sample :
  Part001.main 6 [] three_cards_page
  = Some (Payload (str "whatnot") TARGET_URL [] 2
            [ Entry (str "alice_99") (VNum (Dec 5 0))
                (str "Great seller, fast shipping and well packed");
              Entry (str "bob_the_builder") (VNum (Dec 48 (-1)))
                (str "Fast shipment and great packaging") ]).
Proof. vm_compute. reflexivity. Qed.

(** ** The records of a result *)

Lemma network_record_saved r e :
  network_record r →
  (∃ rv tx, reviewer r = VStr rv ∧ text r = VStr tx
            ∧ e = Entry (clean rv)
                    (if is_number (rating r) then rating r else VNum (Dec 5 0)) (clean tx)) →
  saved_record e.
Proof.
  intros (rv & n & tx & -> & Hrv & Htx & Hn & Hnr & Hnt & _) (rv' & tx' & [= <-] & [= <-] & ->).
  unfold saved_record. cbn [out_reviewer out_text out_rating rating is_number].
  rewrite !clean_id by done. repeat split; eauto.
Qed.

Lemma token_rating_number n : token_rating n → Num.isNaN n = false.
Proof. intros (a & b & _ & _ & ->). by destruct (b =? 0)%Z. Qed.

Lemma dom_record_saved r e :
  dom_record r →
  (∃ rv tx, reviewer r = VStr rv ∧ text r = VStr tx
            ∧ e = Entry (clean rv)
                    (if is_number (rating r) then rating r else VNum (Dec 5 0)) (clean tx)) →
  saved_record e ∧ page_saved 3 25 long_body r e.
Proof.
  intros (rv & n & tx & -> & Hrv & Hn & Hlen & Htrim) (rv' & tx' & [= <-] & [= <-] & ->).
  cbn [rating is_number]. rewrite (clean_handle _ _ _ Hrv).
  destruct (token_rating_bounds n Hn) as [Hlo Hhi].
  assert (rv ≠ []) as Hne by (destruct Hrv as [_ Hl]; destruct rv; simpl in Hl; [lia|done]).
  assert (tx ≠ []) as Hne' by (destruct tx; simpl in Hlen; [lia|done]).
  split.
  - unfold saved_record. cbn [out_reviewer out_text out_rating].
    split; [done|]. split; [by apply clean_trimmed_nonempty|].
    split; [rewrite <- (clean_handle _ _ _ Hrv); apply clean_normal|].
    split; [apply clean_normal|]. eauto using token_rating_number.
  - exists rv, n, tx. do 5 (split; [done|]). done.
Qed.

(** ** The loops as the first records of their input *)

Lemma capped_push {A} (L : Z) (out : list A) (r : A) (parsed : list A) (k : list A → list A) :
  (length out < Z.to_nat (Z.max 1 L))%nat →
  ((length (out ++ [r]) < Z.to_nat (Z.max 1 L))%nat →
   k (out ++ [r])
   = (out ++ [r]) ++ take (Z.to_nat (Z.max 1 L) - length (out ++ [r])) parsed) →
  (if (L <=? Z.of_nat (length (out ++ [r])))%Z then out ++ [r] else k (out ++ [r]))
  = out ++ take (Z.to_nat (Z.max 1 L) - length out) (r :: parsed).
Proof.
  intros Hout Hk. rewrite length_app in *. cbn [length] in *.
  destruct (Z.leb_spec L (Z.of_nat (length out + 1))) as [Hle|Hgt].
  - replace (Z.to_nat (Z.max 1 L) - length out)%nat with 1%nat by lia.
    by rewrite firstn_cons, firstn_O.
  - rewrite Hk by lia.
    replace (Z.to_nat (Z.max 1 L) - length out)%nat
      with (S (Z.to_nat (Z.max 1 L) - (length out + 1)))%nat by lia.
    by rewrite firstn_cons, <- app_assoc.
Qed.

Lemma parse_cards_take limit cards :
  ∀ out, (length out < Z.to_nat (Z.max 1 (limit * 3)))%nat →
         Part001.parse_cards limit cards out
         = out ++ take (Z.to_nat (Z.max 1 (limit * 3)) - length out)
                    (omap (fun card => Part001.parse_card (clean (textContent card))) cards).
Proof.
  induction cards as [|card cards IH]; intros out Hout.
  - cbn [Part001.parse_cards omap list_omap]. by rewrite take_nil, List.app_nil_r.
  - cbn [Part001.parse_cards omap list_omap].
    destruct (Part001.parse_card _) as [r|]; [|by apply IH]. cbv zeta.
    apply capped_push; [done|]. apply IH.
Qed.

Lemma parse_blocks_000_take limit blocks :
  ∀ out, (length out < Z.to_nat (Z.max 1 (limit * 3)))%nat →
         Part000.parse_blocks limit blocks out
         = out ++ take (Z.to_nat (Z.max 1 (limit * 3)) - length out)
                    (omap Part000.parse_block blocks).
Proof.
  induction blocks as [|t blocks IH]; intros out Hout.
  - cbn [Part000.parse_blocks omap list_omap]. by rewrite take_nil, List.app_nil_r.
  - cbn [Part000.parse_blocks omap list_omap].
    destruct (Part000.parse_block _) as [r|]; [|by apply IH]. cbv zeta.
    apply capped_push; [done|]. apply IH.
Qed.

Lemma parse_blocks_take limit blocks :
  ∀ out, (length out < Z.to_nat (Z.max 1 limit))%nat →
         Fetch.parse_blocks limit blocks out
         = out ++ take (Z.to_nat (Z.max 1 limit) - length out) (omap fallback_block blocks).
Proof.
  induction blocks as [|t blocks IH]; intros out Hout.
  - cbn [Fetch.parse_blocks omap list_omap]. by rewrite take_nil, List.app_nil_r.
  - cbn [Fetch.parse_blocks omap list_omap]. unfold fallback_block at 1.
    destruct (_ || _); [by apply IH|].
    destruct (Token.rating_match t); [|by apply IH].
    destruct (Token.leading_handle t); [|by apply IH].
    cbv zeta. destruct (_ <? _)%nat; [by apply IH|].
    apply capped_push; [done|]. apply IH.
Qed.

(** ** The texts of [part_000] *)

Lemma block_text_head t r :
  Part000.parse_block t = Some r → whitespace_normal t = true →
  ∃ tx, text r = VStr tx ∧ clean tx ≠ [].
Proof.
  unfold Part000.parse_block.
  destruct (Token.rating_match t); [|done].
  destruct (Token.word_match_from false t); [|done]. cbv zeta.
  match goal with |- context [Part000.split_count ?x] =>
    set (tx := x); destruct (Nat.ltb_spec (Part000.split_count tx) 5) as [|Hlen]; [done|] end.
  intros [= <-] Ht. exists tx. split; [done|].
  assert (∃ c rest, tx = c :: rest ∧ Js.is_space c = false) as (c & rest & -> & Hc).
  { destruct t as [|c t'].
    - subst tx. vm_compute in Hlen. lia.
    - assert (Js.is_space c = false) as Hc.
      { cbn [whitespace_normal tidy] in Ht. destruct (Js.is_space c); [|done].
        by rewrite andb_false_r in Ht. }
      subst tx. destruct (Js.indexOf _ _) as [[|?]|]; simpl; eauto. }
  by destruct (clean_head c rest Hc) as (t' & ->).
Qed.

Lemma evaluate_000_texts limit doc rs :
  Part000.evaluate limit doc = Some rs →
  Forall (fun r => ∃ tx, text r = VStr tx ∧ clean tx ≠ []) rs.
Proof.
  unfold Part000.evaluate. destruct (Part000.find_root doc) as [root|]; [|done].
  cbn [bind]. intros [= <-].
  apply slice0_Forall, dedupe_capped_Forall.
  rewrite parse_blocks_000_take by (simpl; lia). cbn [app].
  apply Forall_take, Forall_forall. intros r (t & Ht & Hr)%list_elem_of_omap.
  apply (block_text_head t r Hr).
  apply list_elem_of_In, filter_In in Ht as [Ht _].
  apply in_map_iff in Ht as (el & <- & _). apply clean_normal.
Qed.

Lemma block_record_saved r e :
  block_record r →
  (∃ tx, text r = VStr tx ∧ clean tx ≠ []) →
  (∃ rv tx, reviewer r = VStr rv ∧ text r = VStr tx
            ∧ e = Entry (clean rv)
                    (if nullish (rating r) then VNum (Dec 5 0) else rating r) (clean tx)) →
  saved_record e ∧ page_saved 3 20 five_pieces r e.
Proof.
  intros (rv & n & tx & -> & Hrv & Hn & Hlen) (tx0 & [= <-] & Hne')
    (rv' & tx' & [= <-] & [= <-] & ->).
  cbn [rating nullish]. rewrite (clean_handle _ _ _ Hrv).
  destruct (token_rating_bounds n Hn) as [Hlo Hhi].
  assert (rv ≠ []) as Hne by (destruct Hrv as [_ Hl]; destruct rv; simpl in Hl; [lia|done]).
  split.
  - unfold saved_record. cbn [out_reviewer out_text out_rating].
    split; [done|]. split; [done|].
    split; [rewrite <- (clean_handle _ _ _ Hrv); apply clean_normal|].
    split; [apply clean_normal|]. eauto using token_rating_number.
  - exists rv, n, tx. do 5 (split; [done|]). done.
Qed.

Lemma Forall2_with_Forall {A B} (P : A → Prop) (R Q : A → B → Prop) l k :
  Forall P l → Forall2 R l k → (∀ x y, P x → R x y → Q x y) → Forall2 Q l k.
Proof.
  intros HP HR HQ. induction HR as [|x y l k Hxy _ IH]; [constructor|].
  inversion HP; subst. constructor; eauto.
Qed.

Lemma Forall2_Forall_r {A B} (P : A → Prop) (R : A → B → Prop) (Q : B → Prop) l k :
  Forall P l → Forall2 R l k → (∀ x y, P x → R x y → Q y) → Forall Q k.
Proof.
  intros HP HR HQ. induction HR as [|x y l k Hxy _ IH]; [constructor|].
  inversion HP; subst. constructor; eauto.
Qed.

(** Nothing found by either strategy: the run saves an empty document. *)
Lemma main_nothing_found limit now cs doc net :
  Fetch.extract_network cs [] = Some net → dedupe_from ∅ net = [] →
  Fetch.dom_fallback limit doc = [] →
  Fetch.main limit now cs doc
  = Some (Fetch.Run [Fetch.NetworkJson; Fetch.DomBlocks]
            (Payload (str "whatnot") TARGET_URL now 0 [])).
Proof.
  intros Hnet Hd Hdom. unfold Fetch.main. rewrite Hnet. cbn [bind]. cbv zeta.
  rewrite Hd, Hdom. cbn [length Nat.eqb]. unfold slice0. rewrite take_nil. reflexivity.
Qed.

(** The gate of the network strategy against the invariant of the
    specification: the review of [loud_payload] is saved, with a reviewer of
    two characters, the rating 99 and a text of two characters; the page
    strategy saves a rating above 5.0; and [part_001] saves a text of nine
    characters, of a body of ten from which "see more" was removed. *)
Lemma main_record_out_of_range :
  Fetch.main LIMIT [] [loud_payload] empty_page
  = Some (Fetch.Run [Fetch.NetworkJson]
            (Payload (str "whatnot") TARGET_URL [] 1
               [ Entry (str "al") (VNum (Dec 99 0)) (str "ok") ]))
  ∧ Num.leb (Dec 99 0) (Dec 5 0) = false
  ∧ (length (str "al") < 3)%nat
  ∧ (length (str "ok") < 10)%nat
  ∧ Fetch.main LIMIT [] [] page_59
    = Some (Fetch.Run [Fetch.NetworkJson; Fetch.DomBlocks]
              (Payload (str "whatnot") TARGET_URL [] 1
                 [ Entry (str "carol_7") (VNum (Dec 59 (-1)))
                     (str "5.9 Lovely cards, arrived in perfect condition") ]))
  ∧ Num.leb (Dec 59 (-1)) (Dec 5 0) = false
  ∧ Part001.evaluate LIMIT short_text_page
    = [ Review (VStr (str "abcdefghijklmnopqrstuvwxy")) (VNum (Dec 45 (-1)))
          (VStr (str "so good  x")) ]
  ∧ Part001.main LIMIT [] short_text_page
    = Some (Payload (str "whatnot") TARGET_URL [] 1
              [ Entry (str "abcdefghijklmnopqrstuvwxy") (VNum (Dec 45 (-1)))
                  (str "so good x") ])
  ∧ (length (str "so good x") < 10)%nat.
Proof. repeat split; vm_compute; try reflexivity; lia. Qed.

(** C1, as the code has it. Every review [fetch-whatnot-reviews.mjs] saves
    has a non-empty reviewer and a non-empty text, both in the form [clean]
    gives, and a rating that is a number: the gate drops every candidate
    without reviewer, rating or text.  The reviews read from the page, in
    this script and in [part_001], are the records of the page parser, one
    for one and in order, each saved with its reviewer, a match of
    [[A-Za-z0-9_]{3,25}], its rating, from 0.0 to 5.9, and [clean] of its
    text, a trimmed body of at least 10 characters.  In [part_000], when it
    saves a document, the same holds with a reviewer that matches
    [[A-Za-z0-9_]{3,20}] and a text of at least five pieces between
    spaces. *)
Theorem saved_records (limit : Z) (now : list N) (cs : list value) (doc : node) :
  (∃ run,
     Fetch.main limit now cs doc = Some run
     ∧ Forall saved_record (reviews (Fetch.saved run))
     ∧ (Fetch.tried run = [Fetch.NetworkJson; Fetch.DomBlocks] →
        Forall2 (page_saved 3 25 long_body)
          (slice0 (Fetch.dom_fallback limit doc) limit) (reviews (Fetch.saved run))))
  ∧ (∃ p,
       Part001.main limit now doc = Some p
       ∧ Forall saved_record (reviews p)
       ∧ Forall2 (page_saved 3 25 long_body) (Part001.evaluate limit doc) (reviews p))
  ∧ (∀ p,
       Part000.main limit now doc = Some p →
       Forall saved_record (reviews p)
       ∧ ∃ rs,
           Part000.evaluate limit doc = Some rs
           ∧ Forall2 (page_saved 3 20 five_pieces) rs (reviews p)).
Proof.
  split; [|split].
  - destruct (main_strategies limit now cs doc) as (net & es & Hnet & Hrec & Hn & Hd).
    destruct (dedupe_from ∅ net) as [|r0 rs0] eqn:E.
    + destruct Hd as [Hes ->]; [done|].
      eexists. split; [reflexivity|]. cbn [Fetch.saved Fetch.tried reviews].
      assert (Forall dom_record (slice0 (Fetch.dom_fallback limit doc) limit)) as Hrs
        by apply slice0_Forall, dom_fallback_records.
      destruct (map_entries_ok (slice0 (Fetch.dom_fallback limit doc) limit))
        as (es' & Hes' & HR).
      { eapply Forall_impl; [exact Hrs|]. apply dom_record_strings. }
      rewrite Hes in Hes'. injection Hes' as <-.
      split; [|intros _].
      * eapply Forall2_Forall_r; [exact Hrs|exact HR|].
        intros r e Hr He; by destruct (dom_record_saved r e Hr He).
      * eapply Forall2_with_Forall; [exact Hrs|exact HR|].
        intros r e Hr He; by destruct (dom_record_saved r e Hr He).
    + destruct Hn as [Hes ->]; [done|].
      eexists. split; [reflexivity|]. cbn [Fetch.saved Fetch.tried reviews].
      split; [|done].
      assert (Forall network_record (slice0 (r0 :: rs0) limit)) as Hrs.
      { apply slice0_Forall. rewrite <- E. by apply dedupe_from_Forall. }
      destruct (map_entries_ok (slice0 (r0 :: rs0) limit)) as (es' & Hes' & HR).
      { eapply Forall_impl; [exact Hrs|]. apply network_record_strings. }
      rewrite Hes in Hes'. injection Hes' as <-.
      eapply Forall2_Forall_r; [exact Hrs|exact HR|]. apply network_record_saved.
  - destruct (main_001_defined limit now doc) as (es & Hes & ->).
    eexists. split; [reflexivity|]. cbn [reviews].
    pose proof (evaluate_records limit doc) as Hrs.
    destruct (map_entries_ok (Part001.evaluate limit doc)) as (es' & Hes' & HR).
    { eapply Forall_impl; [exact Hrs|]. apply dom_record_strings. }
    rewrite Hes in Hes'. injection Hes' as <-.
    split.
    + eapply Forall2_Forall_r; [exact Hrs|exact HR|].
      intros r e Hr He; by destruct (dom_record_saved r e Hr He).
    + eapply Forall2_with_Forall; [exact Hrs|exact HR|].
      intros r e Hr He; by destruct (dom_record_saved r e Hr He).
  - intros p Hp. unfold Part000.main in Hp.
    destruct (Part000.evaluate limit doc) as [rs|] eqn:Hev; [|done]. cbn [bind] in Hp.
    assert (Forall (fun r => block_record r ∧ ∃ tx, text r = VStr tx ∧ clean tx ≠ []) rs)
      as Hrs.
    { apply Forall_and. split; [by eapply evaluate_000_records|by eapply evaluate_000_texts]. }
    destruct (map_entries_000_ok rs) as (es' & Hes' & HR).
    { eapply Forall_impl; [exact Hrs|]. intros r [Hr _]. by apply block_record_strings. }
    rewrite Hes' in Hp. cbn [bind] in Hp. injection Hp as <-. cbn [reviews].
    split; [|exists rs; split; [done|]].
    + eapply Forall2_Forall_r; [exact Hrs|exact HR|].
      intros r e [Hr Ht] He; by destruct (block_record_saved r e Hr Ht He).
    + eapply Forall2_with_Forall; [exact Hrs|exact HR|].
      intros r e [Hr Ht] He; by destruct (block_record_saved r e Hr Ht He).
Qed.

Lemma saved_records_witness :
  ∃ run,
    Fetch.main LIMIT [] [] page_59 = Some run
    ∧ Forall saved_record (reviews (Fetch.saved run))
    ∧ (Fetch.tried run = [Fetch.NetworkJson; Fetch.DomBlocks] →
       Forall2 (page_saved 3 25 long_body)
         (slice0 (Fetch.dom_fallback LIMIT page_59) LIMIT) (reviews (Fetch.saved run))).
Proof. exact (proj1 (saved_records LIMIT [] [] page_59)). Defined.

(** * Further properties of the scripts *)

(** ** [clean], continued *)

Lemma collapse_spaces_length s : (length (Js.collapse_spaces s) ≤ length s)%nat.
Proof.
  induction s as [|c r IH]; [done|]. cbn [Js.collapse_spaces].
  destruct (Js.is_space c).
  - destruct r as [|d r']; [done|]. destruct (Js.is_space d); simpl in *; lia.
  - simpl. lia.
Qed.

Lemma drop_while_length p s : (length (Js.drop_while p s) ≤ length s)%nat.
Proof.
  induction s as [|c r IH]; [done|]. simpl. destruct (p c); simpl; lia.
Qed.

Lemma trim_length s : (length (Js.trim s) ≤ length s)%nat.
Proof.
  unfold Js.trim, Js.trimEnd, Js.trimStart. rewrite length_rev.
  etransitivity; [apply drop_while_length|]. rewrite length_rev.
  apply drop_while_length.
Qed.

Lemma drop_while_all p s : forallb p s = true → Js.drop_while p s = [].
Proof.
  induction s as [|c r IH]; [done|]. simpl.
  destruct (p c); [exact IH|done].
Qed.

Lemma drop_while_nil p s : Js.drop_while p s = [] → forallb p s = true.
Proof.
  induction s as [|c r IH]; [done|]. simpl.
  destruct (p c); [exact IH|done].
Qed.

Lemma forallb_rev {A} (p : A → bool) l : forallb p (rev l) = forallb p l.
Proof.
  induction l as [|x l IH]; [done|]. simpl.
  rewrite forallb_app, IH. simpl. rewrite andb_true_r. apply andb_comm.
Qed.

Lemma collapse_spaces_all s :
  forallb Js.is_space (Js.collapse_spaces s) = forallb Js.is_space s.
Proof.
  induction s as [|c r IH]; [done|]. cbn [Js.collapse_spaces].
  destruct (Js.is_space c) eqn:Hc.
  - destruct r as [|d r']; [simpl; by rewrite Hc|].
    destruct (Js.is_space d) eqn:Hd.
    + rewrite IH. cbn [forallb]. by rewrite Hc.
    + cbn [forallb]. rewrite IH. cbn [forallb]. by rewrite Hc, Hd.
  - cbn [forallb]. by rewrite Hc.
Qed.

Lemma clean_empty_iff s : clean s = [] ↔ forallb Js.is_space s = true.
Proof.
  unfold clean, Js.trim, Js.trimEnd, Js.trimStart. split.
  - intros H. apply (f_equal (@rev N)) in H. rewrite rev_involutive in H. simpl in H.
    apply drop_while_nil in H. rewrite forallb_rev in H.
    rewrite <- collapse_spaces_all.
    destruct (Js.drop_while Js.is_space (Js.collapse_spaces s)) as [|c r] eqn:E.
    + by apply drop_while_nil.
    + pose proof (drop_while_head _ _ _ _ E) as Hc. simpl in H. by rewrite Hc in H.
  - intros H. rewrite <- collapse_spaces_all in H.
    by rewrite (drop_while_all _ _ H).
Qed.

(** X1. What [clean] returns is in normal form (no white space at either
    end, inside only single U+0020 characters); [clean] changes exactly the
    strings that are not in normal form, so cleaning twice is cleaning
    once. *)
Theorem clean_normal_form (s : list N) :
  whitespace_normal (clean s) = true
  ∧ clean (clean s) = clean s
  ∧ (clean s = s ↔ whitespace_normal s = true).
Proof.
  split; [apply clean_normal|]. split; [apply clean_id, clean_normal|].
  split; [intros <-; apply clean_normal|apply clean_id].
Qed.

(** X2. [clean] never makes a string longer, and it returns the empty
    string exactly for the strings that hold nothing but white space (the
    empty string among them). *)
Theorem clean_shortens (s : list N) :
  (length (clean s) ≤ length s)%nat
  ∧ (clean s = [] ↔ forallb Js.is_space s = true).
Proof.
  split; [|apply clean_empty_iff].
  unfold clean. etransitivity; [apply trim_length|apply collapse_spaces_length].
Qed.

(** ** The scanner and the normalizer together *)

(** X3. The scanner only appends to the array it is given, so a scan with
    found items is the items followed by a fresh scan; what it collects are
    objects, and [normalizeReview] returns a record for each of them without
    throwing. *)
Theorem scanner_output (v : value) (found : list value) :
  Fetch.findReviewItemsDeep v found = found ++ Fetch.findReviewItemsDeep v []
  ∧ Forall (fun x => Fetch.isObject x = true ∧ is_Some (Fetch.normalizeReview x))
      (Fetch.findReviewItemsDeep v []).
Proof.
  split.
  - by rewrite (findReviewItemsDeep_arrays v found), (findReviewItemsDeep_arrays v []).
  - apply List.Forall_forall. intros x Hx%findReviewItemsDeep_review_like.
    split.
    + unfold Fetch.review_like in Hx. by apply andb_true_iff in Hx as [Hx _].
    + apply review_like_not_nullish in Hx.
      destruct (normalizeReview_shape x Hx) as (rv & rt & tx & _ & _ & _ & ->). eauto.
Qed.

(** X4. [get] returns the value of the first listed key whose property is
    neither [null] nor [undefined], and [null] when there is none (or when
    the object itself is falsy); it never returns [undefined]. *)
Theorem get_first_match (obj : value) (keys : list (list N)) :
  (Fetch.get obj keys = VNull
   ∧ Forall (fun k => truthy obj = false ∨ nullish (prop obj k) = true) keys)
  ∨ (∃ pre k post,
       keys = pre ++ k :: post
       ∧ Forall (fun k' => nullish (prop obj k') = true) pre
       ∧ nullish (prop obj k) = false
       ∧ truthy obj = true
       ∧ Fetch.get obj keys = prop obj k).
Proof.
  induction keys as [|k keys IH]; [left; by split|].
  cbn [Fetch.get].
  destruct (truthy obj) eqn:Ht; simpl.
  - destruct (nullish (prop obj k)) eqn:Hk; simpl.
    + destruct IH as [[Hg Hall]|(pre & k' & post & -> & Hpre & Hk' & _ & Hg)].
      * left. split; [done|]. constructor; [by right|done].
      * right. exists (k :: pre), k', post. repeat split; try done. by constructor.
    + right. exists [], k, keys. repeat split; try done.
  - left. destruct IH as [[Hg Hall]|(pre & k' & post & _ & _ & _ & Hf & _)]; [|done].
    split; [done|]. constructor; [by left|done].
Qed.

(** X5. A [reviewer] property that is present and is not a string hides
    every other source of the reviewer: the record has the empty reviewer,
    also when [username] holds a string or the property is an object with a
    [username] of its own. *)
Theorem reviewer_not_string_hides (item v : value) :
  prop item (str "reviewer") = v → nullish v = false → (∀ s, v ≠ VStr s) →
  ∃ q t, Fetch.normalizeReview item = Some (Review (VStr []) q (VStr t)).
Proof.
  intros Hp Hv Hns.
  assert (nullish item = false ∧ truthy item = true) as [Hi Ht].
  { destruct item; simpl in Hp; subst v; done. }
  destruct (normalizeReview_shape item Hi) as (rv & rt & tx & Hrv & _ & _ & ->).
  unfold Fetch.reviewer_of in Hrv. cbn [Fetch.get] in Hrv.
  rewrite Ht, Hp, Hv in Hrv. cbn [andb negb] in Hrv.
  repeat (cbn [nullish_or] in Hrv; rewrite Hv in Hrv). injection Hrv as <-.
  rewrite (clean_string_unresolved v Hns). eauto.
Qed.

Lemma reviewer_not_string_hides_witness :
  ∃ q t,
    Fetch.normalizeReview
      (VObj [ (str "reviewer", VObj [ (str "username", VStr (str "alice99")) ]);
              (str "username", VStr (str "alice99"));
              (str "rating", VNum (Dec 5 0));
              (str "text", VStr (str "Great seller")) ])
    = Some (Review (VStr []) q (VStr t)).
Proof.
  eapply (reviewer_not_string_hides _
            (VObj [ (str "username", VStr (str "alice99")) ])).
  - reflexivity.
  - reflexivity.
  - intros s. discriminate.
Defined.

(** X6. A [rating] property that is present decides the rating alone: the
    record has its coerced value, [null] when it is not a number and does
    not parse as one, whatever [stars], [score] and the other aliases
    hold. *)
Theorem rating_first_alias_decides (item v : value) :
  prop item (str "rating") = v → nullish v = false →
  ∃ r t,
    Fetch.normalizeReview item = Some (Review r (Fetch.coerce_rating v) t).
Proof.
  intros Hp Hv.
  assert (nullish item = false ∧ truthy item = true) as [Hi Ht].
  { destruct item; simpl in Hp; subst v; done. }
  destruct (normalizeReview_shape item Hi) as (rv & rt & tx & _ & Hrt & _ & ->).
  unfold Fetch.rating_of in Hrt. cbn [Fetch.get] in Hrt.
  rewrite Ht, Hp, Hv in Hrt. cbn [andb negb] in Hrt.
  repeat (cbn [nullish_or] in Hrt; rewrite Hv in Hrt).
  injection Hrt as <-. eauto.
Qed.

Lemma rating_first_alias_decides_witness :
  ∃ r t,
    Fetch.normalizeReview
      (VObj [ (str "rating", VStr (str "five"));
              (str "stars", VNum (Dec 5 0));
              (str "username", VStr (str "alice99"));
              (str "text", VStr (str "Great seller")) ])
    = Some (Review r (Fetch.coerce_rating (VStr (str "five"))) t).
Proof.
  eapply (rating_first_alias_decides _ (VStr (str "five"))); reflexivity.
Defined.

(** ** The network strategy, continued *)

Lemma extract_items_bound items :
  ∀ acc acc', Fetch.extract_items items acc = Some acc' →
              (length acc ≤ 50)%nat → (length acc' ≤ 51)%nat ∧ acc `prefix_of` acc'.
Proof.
  induction items as [|it items IH]; intros acc acc'; cbn [Fetch.extract_items].
  - intros [= <-] H. split; [lia|done].
  - destruct (Fetch.normalizeReview it) as [r|]; [|done]. cbn [bind].
    destruct (_ || _); [apply IH|].
    destruct (Fetch.noise _); [apply IH|].
    cbv zeta. destruct (Nat.ltb_spec 50 (length (acc ++ [r]))) as [Hgt|Hle].
    + intros [= <-] H. rewrite length_app in *. simpl in *.
      split; [lia|by apply prefix_app_r].
    + intros Hrest H. destruct (IH _ _ Hrest Hle) as [Hlen Hpre].
      split; [done|]. etransitivity; [|exact Hpre]. by apply prefix_app_r.
Qed.

Lemma extract_network_bound cs :
  ∀ acc acc', Fetch.extract_network cs acc = Some acc' →
              (length acc ≤ 50)%nat → (length acc' ≤ 51)%nat ∧ acc `prefix_of` acc'.
Proof.
  induction cs as [|data cs IH]; intros acc acc'; cbn [Fetch.extract_network].
  - intros [= <-] H. split; [lia|done].
  - destruct (Fetch.extract_items _ acc) as [acc1|] eqn:E; [|done]. cbn [bind].
    intros Hrest H. destruct (extract_items_bound _ _ _ E H) as [Hlen Hpre].
    destruct (Nat.ltb_spec 50 (length acc1)) as [Hgt|Hle].
    + injection Hrest as <-. done.
    + destruct (IH _ _ Hrest Hle) as [Hlen' Hpre']. split; [done|by etransitivity].
Qed.

(** X7. The loop over the captured payloads never throws and stops
    collecting after its 51st record: whatever the payloads hold, at most 51
    records are collected, each with a non-empty reviewer and text, a number
    as rating and no noise phrase in the text. *)
Theorem network_collection_bounded (networkCandidates : list value) :
  ∃ extracted,
    Fetch.extract_network networkCandidates [] = Some extracted
    ∧ (length extracted ≤ 51)%nat
    ∧ Forall network_record extracted.
Proof.
  destruct (extract_network_ok networkCandidates []) as (net & Hnet & Hrec); [constructor|].
  exists net. split; [done|]. split; [|done].
  apply (extract_network_bound _ _ _ Hnet). simpl. lia.
Qed.


Lemma network_record_entry r e :
  network_record r →
  (∃ rv tx, reviewer r = VStr rv ∧ text r = VStr tx
            ∧ e = Entry (clean rv)
                    (if is_number (rating r) then rating r else VNum (Dec 5 0)) (clean tx)) →
  r = Review (VStr (out_reviewer e)) (out_rating e) (VStr (out_text e))
  ∧ Fetch.noise (out_text e) = false.
Proof.
  intros (rv & n & tx & -> & _ & _ & _ & Hnr & Hnt & Hnoise) (rv' & tx' & [= <-] & [= <-] & ->).
  cbn [out_reviewer out_rating out_text rating is_number]. by rewrite !clean_id.
Qed.

(** X9. The reviews saved from the network are the first records of the
    records the network gave, deduplicated, one for one and in order, as
    they are: the final [clean] and the default of the rating change
    nothing in them, their keys are pairwise distinct, and none of their
    texts has a noise phrase. *)
Theorem network_reviews_saved_unchanged
    (limit : Z) (now : list N) (cs : list value) (doc : node) (run : Fetch.run) :
  Fetch.main limit now cs doc = Some run →
  Fetch.tried run = [Fetch.NetworkJson] →
  ∃ net,
    Fetch.extract_network cs [] = Some net
    ∧ Forall2 (fun r e => r = Review (VStr (out_reviewer e)) (out_rating e) (VStr (out_text e)))
        (slice0 (dedupe_from ∅ net) limit) (reviews (Fetch.saved run))
    ∧ count (Fetch.saved run) = length (slice0 (dedupe_from ∅ net) limit)
    ∧ NoDup (map key (slice0 (dedupe_from ∅ net) limit))
    ∧ Forall (fun e => Fetch.noise (out_text e) = false) (reviews (Fetch.saved run)).
Proof.
  intros Hmain Htried.
  destruct (main_strategies limit now cs doc) as (net & es & Hnet & Hrec & Hn & Hd).
  exists net. split; [done|].
  destruct (dedupe_from ∅ net) as [|r0 rs0] eqn:E.
  { destruct Hd as [_ Hm]; [done|]. rewrite Hm in Hmain. injection Hmain as <-. done. }
  destruct Hn as [Hes Hm]; [done|]. rewrite Hm in Hmain. injection Hmain as <-.
  cbn [Fetch.saved reviews count].
  assert (Forall network_record (slice0 (r0 :: rs0) limit)) as Hrs.
  { apply slice0_Forall. rewrite <- E. by apply dedupe_from_Forall. }
  destruct (map_entries_ok (slice0 (r0 :: rs0) limit)) as (es' & Hes' & HR).
  { eapply Forall_impl; [exact Hrs|]. apply network_record_strings. }
  rewrite Hes in Hes'. injection Hes' as <-.
  split; [|split; [done|split]].
  - eapply Forall2_with_Forall; [exact Hrs|exact HR|].
    intros r e Hr He. by destruct (network_record_entry r e Hr He).
  - destruct (slice0_take (r0 :: rs0) limit) as [k ->]. rewrite <- E.
    apply NoDup_take_keys, dedupe_from_NoDup.
  - eapply Forall2_Forall_r; [exact Hrs|exact HR|].
    intros r e Hr He. by destruct (network_record_entry r e Hr He).
Qed.

Lemma network_reviews_saved_unchanged_witness :
  ∃ net,
    Fetch.extract_network [alice_payload] [] = Some net
    ∧ Forall2 (fun r e => r = Review (VStr (out_reviewer e)) (out_rating e) (VStr (out_text e)))
        (slice0 (dedupe_from ∅ net) LIMIT)
        (reviews (Fetch.saved
           (Fetch.Run [Fetch.NetworkJson]
              (Payload (str "whatnot") TARGET_URL [] 1
                 [ Entry (str "alice99") (VNum (Dec 47 (-1)))
                     (str "Great seller, fast shipping!") ]))))
    ∧ count (Fetch.saved
               (Fetch.Run [Fetch.NetworkJson]
                  (Payload (str "whatnot") TARGET_URL [] 1
                     [ Entry (str "alice99") (VNum (Dec 47 (-1)))
                         (str "Great seller, fast shipping!") ])))
      = length (slice0 (dedupe_from ∅ net) LIMIT)
    ∧ NoDup (map key (slice0 (dedupe_from ∅ net) LIMIT))
    ∧ Forall (fun e => Fetch.noise (out_text e) = false)
        (reviews (Fetch.saved
           (Fetch.Run [Fetch.NetworkJson]
              (Payload (str "whatnot") TARGET_URL [] 1
                 [ Entry (str "alice99") (VNum (Dec 47 (-1)))
                     (str "Great seller, fast shipping!") ])))).
Proof.
  apply (network_reviews_saved_unchanged LIMIT [] [alice_payload] nested_page).
  - vm_compute. reflexivity.
  - reflexivity.
Defined.

(** ** The capture of responses *)

Lemma capture_from acc responses :
  fold_left on_response responses acc = acc ++ flat_map (on_response []) responses.
Proof.
  revert acc. induction responses as [|res rs IH]; intros acc; simpl.
  - by rewrite List.app_nil_r.
  - rewrite IH, app_assoc. f_equal.
    unfold on_response. cbv zeta.
    destruct (_ && _); [by rewrite List.app_nil_r|].
    destruct (_ || _); [by rewrite List.app_nil_r|].
    destruct (negb _); [by rewrite List.app_nil_r|done].
Qed.

Lemma capture_flat responses : capture responses = flat_map (on_response []) responses.
Proof. unfold capture. by rewrite capture_from. Qed.


(** X11. A response that is not accepted leaves no trace: with a status
    outside 200 to 299, with a body that does not parse or parses to a falsy
    value, or with neither "application/json" in its content type nor
    "graphql" in its url, the run saves the same document as without the
    response. *)
Theorem rejected_response_ignored
    (limit : Z) (now : list N) (before after : list response) (res : response) (doc : node) :
  (res_status res < 200)%Z ∨ (300 ≤ res_status res)%Z
  ∨ (∀ d, res_json res = Some d → truthy d = false)
  ∨ (Js.contains false (str "application/json")
       (Js.toLowerCase (match res_content_type res with Some s => s | None => [] end))
     = false
     ∧ Js.contains false (str "graphql") (res_url res) = false) →
  run_from_responses limit now (before ++ res :: after) doc
  = run_from_responses limit now (before ++ after) doc.
Proof.
  intros Hrej. unfold run_from_responses. rewrite !capture_flat, !flat_map_app.
  cbn [flat_map].
  assert (on_response [] res = []) as ->; [|done].
  unfold on_response. cbv zeta.
  destruct (negb (Js.contains false (str "application/json") _)
            && negb (Js.contains false (str "graphql") _)) eqn:Hct; [done|].
  destruct (Z.ltb_spec (res_status res) 200); [done|].
  destruct (Z.leb_spec 300 (res_status res)); [done|].
  destruct Hrej as [Hlo|[Hhi|[Hj|[H1 H2]]]]; [lia|lia| |].
  - destruct (res_json res) as [d|]; [|done]. by rewrite (Hj d eq_refl).
  - by rewrite H1, H2 in Hct.
Qed.

Lemma rejected_response_ignored_witness :
  run_from_responses LIMIT []
    ([] ++ Response (str "https://www.whatnot.com/graphql") (Some (str "application/json"))
             404 (Some alice_payload) :: [])
    nested_page
  = run_from_responses LIMIT [] ([] ++ []) nested_page.
Proof.
  apply rejected_response_ignored. right. left. simpl. lia.
Defined.

(** ** The cards of [part_001] *)

Lemma flat_map_option_length {A B} (f : A → list B) l :
  (∀ x, (length (f x) ≤ 1)%nat) → (length (flat_map f l) ≤ length l)%nat.
Proof.
  intros Hf. induction l as [|x l IH]; [done|].
  simpl. rewrite length_app. specialize (Hf x). lia.
Qed.

Lemma card_like_spec p :
  Part001.card_like p = true →
  Part001.getRating (clean (textContent p)) ≠ None
  ∧ Part001.isNoise (clean (textContent p)) = false
  ∧ (40 < length (clean (textContent p)) < 900)%nat.
Proof.
  unfold Part001.card_like. cbv zeta.
  destruct (Part001.getRating _); [|done].
  rewrite !andb_true_iff, negb_true_iff, !Nat.ltb_lt. intros [[H1 H2] H3].
  repeat split; done.
Qed.

(** X12. Every card of the anchor strategy is one of the ten nearest
    ancestors of an [a] or [button] whose text has "see more", and its own
    text has a rating token, no noise phrase and between 41 and 899
    characters; an anchor gives at most one card; and when there is a card
    the block fallback is not used. *)
Theorem anchor_cards_sound (doc : node) :
  Forall (fun card =>
            (∃ el, In el (querySelectorAll [Anchor; Button] doc)
                   ∧ Part001.has_see_more (clean (textContent (fst el))) = true
                   ∧ In card (take 10 (snd el)))
            ∧ Part001.getRating (clean (textContent card)) ≠ None
            ∧ Part001.isNoise (clean (textContent card)) = false
            ∧ (40 < length (clean (textContent card)) < 900)%nat)
    (Part001.anchor_cards doc)
  ∧ (length (Part001.anchor_cards doc)
     ≤ length (List.filter
                 (fun el => Part001.has_see_more (clean (textContent (fst el))))
                 (querySelectorAll [Anchor; Button] doc)))%nat
  ∧ (Part001.anchor_cards doc ≠ [] →
     Part001.candidate_cards doc = Part001.anchor_cards doc).
Proof.
  split; [|split].
  - apply List.Forall_forall. intros card Hc.
    unfold Part001.anchor_cards in Hc. cbv zeta in Hc.
    apply in_flat_map in Hc as (el & Hel & Hc).
    apply filter_In in Hel as [Hel Hmore].
    unfold Part001.card_above in Hc.
    destruct (List.find Part001.card_like (take 10 (snd el))) as [p|] eqn:Hf; [|done].
    destruct Hc as [<-|[]]. apply find_some in Hf as [Hin Hlike].
    split; [eauto|]. by apply card_like_spec.
  - unfold Part001.anchor_cards. cbv zeta. apply flat_map_option_length.
    intros el. destruct (Part001.card_above _); simpl; lia.
  - intros Hne. unfold Part001.candidate_cards. cbv zeta.
    by destruct (Part001.anchor_cards doc).
Qed.

Lemma block_cards_inv (P : node → Prop) blocks :
  Forall (fun el =>
            Part001.getRating (clean (textContent el)) ≠ None →
            Part001.isNoise (clean (textContent el)) = false →
            Part001.hasDate (clean (textContent el))
            || Part001.has_see_more (clean (textContent el)) = true → P el) blocks →
  ∀ acc, Forall P acc → (length acc ≤ 60)%nat →
         Forall P (Part001.block_cards blocks acc)
         ∧ (length (Part001.block_cards blocks acc) ≤ 61)%nat.
Proof.
  induction 1 as [|el blocks Hel _ IH]; intros acc Hacc Hlen; [split; [done|simpl; lia]|].
  cbn [Part001.block_cards]. cbv zeta.
  destruct (Part001.getRating (clean (textContent el))) as [n|] eqn:Hr; [|by apply IH].
  destruct (Part001.isNoise (clean (textContent el))) eqn:Hn; [by apply IH|].
  destruct (Part001.hasDate (clean (textContent el))
            || Part001.has_see_more (clean (textContent el))) eqn:Hd.
  - assert (Forall P (acc ++ [el])) as Hacc'.
    { apply Forall_app. split; [done|]. constructor; [|done]. by apply Hel. }
    destruct (Nat.ltb_spec 60 (length (acc ++ [el]))) as [Hgt|Hle].
    + split; [done|]. rewrite length_app in *. simpl in *. lia.
    + by apply IH.
  - destruct (Nat.ltb_spec 60 (length acc)) as [Hgt|Hle]; [lia|by apply IH].
Qed.

(** X13. When no anchor gives a card, the block fallback gives at most 61
    cards, each a [div] whose text has between 41 and 649 characters, a
    rating token, no noise phrase, and a date or "see more". *)
Theorem fallback_cards_sound (doc : node) :
  Part001.anchor_cards doc = [] →
  (length (Part001.candidate_cards doc) ≤ 61)%nat
  ∧ Forall (fun el =>
              has_tag [Div] el = true
              ∧ (40 < length (clean (textContent el)) < 650)%nat
              ∧ Part001.getRating (clean (textContent el)) ≠ None
              ∧ Part001.isNoise (clean (textContent el)) = false
              ∧ Part001.hasDate (clean (textContent el))
                || Part001.has_see_more (clean (textContent el)) = true)
      (Part001.candidate_cards doc).
Proof.
  intros Hnone. unfold Part001.candidate_cards. cbv zeta. rewrite Hnone.
  cbn [length Nat.eqb].
  match goal with |- context [Part001.block_cards ?bs []] =>
    destruct (block_cards_inv
                (fun el => has_tag [Div] el = true
                           ∧ (40 < length (clean (textContent el)) < 650)%nat
                           ∧ Part001.getRating (clean (textContent el)) ≠ None
                           ∧ Part001.isNoise (clean (textContent el)) = false
                           ∧ Part001.hasDate (clean (textContent el))
                             || Part001.has_see_more (clean (textContent el)) = true)
                bs) with (acc := @nil node) as [Hall Hlen] end.
  - apply List.Forall_forall. intros el Hel Hr Hn Hd.
    apply filter_In in Hel as [Hel Hwin]. cbv zeta in Hwin.
    apply andb_true_iff in Hwin as [H1%Nat.ltb_lt H2%Nat.ltb_lt].
    apply in_map_iff in Hel as ([el' up] & <- & Hq).
    apply filter_In in Hq as [_ Htag]. repeat split; done.
  - constructor.
  - simpl. lia.
  - by split.
Qed.

Lemma fallback_cards_sound_witness :
  (length (Part001.candidate_cards dated_page) ≤ 61)%nat
  ∧ Forall (fun el =>
              has_tag [Div] el = true
              ∧ (40 < length (clean (textContent el)) < 650)%nat
              ∧ Part001.getRating (clean (textContent el)) ≠ None
              ∧ Part001.isNoise (clean (textContent el)) = false
              ∧ Part001.hasDate (clean (textContent el))
                || Part001.has_see_more (clean (textContent el)) = true)
      (Part001.candidate_cards dated_page).
Proof. apply (fallback_cards_sound dated_page). reflexivity. Defined.

(** The fallback does find the block of the sample page. *)
Example fallback_cards_dated : length (Part001.candidate_cards dated_page) = 1%nat.
Proof. reflexivity. Qed.

(** ** Where the records come from *)

Lemma parse_cards_from limit (all : list node) cards :
  (∀ c, In c cards → In c all) →
  ∀ out,
    Forall (fun r => ∃ card, In card all
                             ∧ Part001.parse_card (clean (textContent card)) = Some r) out →
    Forall (fun r => ∃ card, In card all
                             ∧ Part001.parse_card (clean (textContent card)) = Some r)
      (Part001.parse_cards limit cards out).
Proof.
  induction cards as [|card cards IH]; intros Hsub out Hout; [done|].
  cbn [Part001.parse_cards].
  assert (∀ c, In c cards → In c all) as Hsub' by (intros c Hc; apply Hsub; by right).
  destruct (Part001.parse_card _) as [r|] eqn:Hr; [|by apply IH].
  cbv zeta.
  assert (Forall (fun r => ∃ card, In card all
                   ∧ Part001.parse_card (clean (textContent card)) = Some r) (out ++ [r]))
    as Hout'.
  { apply Forall_app. split; [done|]. constructor; [|done].
    exists card. split; [apply Hsub; by left|done]. }
  destruct (_ <=? _)%Z; [done|by apply IH].
Qed.

(** X14. Every record [part_001] returns was parsed from a card of the
    page: from a candidate card whose text is not noise, the reviewer being
    the handle at the start of that text and the rating the first rating
    token in it. *)
Theorem evaluate_provenance (limit : Z) (doc : node) :
  Forall (fun r =>
            ∃ card raw handle tok,
              In card (Part001.candidate_cards doc)
              ∧ raw = clean (textContent card)
              ∧ Part001.parse_card raw = Some r
              ∧ Part001.isNoise raw = false
              ∧ Token.leading_handle raw = Some handle ∧ reviewer r = VStr handle
              ∧ Token.rating_match raw = Some tok ∧ rating r = VNum (Num.parseFloat tok)
              ∧ text r = VStr (Part001.body_of handle raw))
    (Part001.evaluate limit doc).
Proof.
  unfold Part001.evaluate. cbv zeta.
  apply slice0_Forall, dedupe_capped_Forall.
  eapply Forall_impl;
    [apply (parse_cards_from limit (Part001.candidate_cards doc)); [done|constructor]|].
  intros r (card & Hin & Hp). exists card, (clean (textContent card)).
  pose proof Hp as Hp'. unfold Part001.parse_card, Part001.getRating, Part001.getReviewer in Hp'.
  destruct (Part001.isNoise _) eqn:Hn; [done|].
  destruct (Token.rating_match _) as [tok|] eqn:Hr; [|done].
  destruct (Token.leading_handle _) as [w|] eqn:Hw; [|done].
  cbv zeta in Hp'. destruct (_ <? _)%nat; [done|].
  destruct (Js.search _ _); [done|]. injection Hp' as <-.
  exists w, tok. repeat split; done.
Qed.

Lemma parse_blocks_from limit (all : list (list N)) blocks :
  (∀ t, In t blocks → In t all) →
  ∀ out,
    Forall (fun r => ∃ t handle tok,
              In t all
              ∧ Js.contains true (str "followers") t = false
              ∧ Js.contains true (str "following") t = false
              ∧ Js.contains true (str "sold") t = false
              ∧ Token.leading_handle t = Some handle ∧ reviewer r = VStr handle
              ∧ Token.rating_match t = Some tok ∧ rating r = VNum (Num.parseFloat tok)) out →
    Forall (fun r => ∃ t handle tok,
              In t all
              ∧ Js.contains true (str "followers") t = false
              ∧ Js.contains true (str "following") t = false
              ∧ Js.contains true (str "sold") t = false
              ∧ Token.leading_handle t = Some handle ∧ reviewer r = VStr handle
              ∧ Token.rating_match t = Some tok ∧ rating r = VNum (Num.parseFloat tok))
      (Fetch.parse_blocks limit blocks out).
Proof.
  induction blocks as [|t blocks IH]; intros Hsub out Hout; [done|].
  cbn [Fetch.parse_blocks].
  assert (∀ c, In c blocks → In c all) as Hsub' by (intros c Hc; apply Hsub; by right).
  destruct (Js.contains true (str "followers") t) eqn:H1; [by apply IH|].
  destruct (Js.contains true (str "following") t) eqn:H2; [by apply IH|].
  destruct (Js.contains true (str "sold") t) eqn:H3; [by apply IH|].
  cbn [orb].
  destruct (Token.rating_match t) as [tok|] eqn:Hr; [|by apply IH].
  destruct (Token.leading_handle t) as [w|] eqn:Hw; [|by apply IH].
  cbv zeta. destruct (_ <? _)%nat; [by apply IH|].
  match goal with |- context [out ++ [?r]] => set (rec := r) end.
  assert (Forall (fun r => ∃ t handle tok,
              In t all
              ∧ Js.contains true (str "followers") t = false
              ∧ Js.contains true (str "following") t = false
              ∧ Js.contains true (str "sold") t = false
              ∧ Token.leading_handle t = Some handle ∧ reviewer r = VStr handle
              ∧ Token.rating_match t = Some tok ∧ rating r = VNum (Num.parseFloat tok))
            (out ++ [rec])) as Hout'.
  { apply Forall_app. split; [done|]. constructor; [|done].
    exists t, w, tok. repeat split; try done. apply Hsub. by left. }
  destruct (_ <=? _)%Z; [done|by apply IH].
Qed.

(** X15. Every record of the DOM fallback of [fetch-whatnot-reviews.mjs]
    was read from a [div] of the page whose cleaned text has between 41 and
    499 characters and none of "followers", "following", "sold": its
    reviewer is the handle at the start of that text and its rating the
    first rating token in it. *)
Theorem dom_fallback_provenance (limit : Z) (doc : node) :
  Forall (fun r =>
            ∃ el t handle tok,
              In el (querySelectorAll [Div] doc)
              ∧ t = clean (textContent (fst el))
              ∧ (40 < length t < 500)%nat
              ∧ Js.contains true (str "followers") t = false
              ∧ Js.contains true (str "following") t = false
              ∧ Js.contains true (str "sold") t = false
              ∧ Token.leading_handle t = Some handle ∧ reviewer r = VStr handle
              ∧ Token.rating_match t = Some tok ∧ rating r = VNum (Num.parseFloat tok))
    (Fetch.dom_fallback limit doc).
Proof.
  unfold Fetch.dom_fallback. cbv zeta. apply slice0_Forall.
  eapply Forall_impl; [eapply parse_blocks_from; [intros t Ht; exact Ht|constructor]|].
  intros r (t & w & tok & Hin & H1 & H2 & H3 & Hw & Hr & Htok & Hrt).
  apply filter_In in Hin as [Hin Hwin].
  apply andb_true_iff in Hwin as [Hlo%Nat.ltb_lt Hhi%Nat.ltb_lt].
  apply in_map_iff in Hin as (el & <- & Hel).
  exists el, (clean (textContent (fst el))), w, tok. repeat split; done.
Qed.

(** ** The size of what is collected *)

(** X16. Each loop returns exactly the first records of what its input
    gives, up to its bound: the card and block parsers of [part_001] and
    [part_000] the first [max 1 (3 * limit)] records their cards and blocks
    give, the fallback of [fetch-whatnot-reviews.mjs] and the deduplication
    loop the first [max 1 limit].  The bound is never below one, because the
    length is tested after the push: with a zero or negative limit each
    loop still returns the first record, when there is one. *)
Theorem collection_bounds (limit : Z) :
  (∀ cards,
     Part001.parse_cards limit cards []
     = take (Z.to_nat (Z.max 1 (limit * 3)))
         (omap (fun card => Part001.parse_card (clean (textContent card))) cards))
  ∧ (∀ blocks,
       Part000.parse_blocks limit blocks []
       = take (Z.to_nat (Z.max 1 (limit * 3))) (omap Part000.parse_block blocks))
  ∧ (∀ blocks,
       Fetch.parse_blocks limit blocks []
       = take (Z.to_nat (Z.max 1 limit)) (omap fallback_block blocks))
  ∧ (∀ rs,
       dedupe_capped limit ∅ 0 rs = take (Z.to_nat (Z.max 1 limit)) (dedupe_from ∅ rs))
  ∧ ((limit ≤ 0)%Z →
     (∀ cards,
        Part001.parse_cards limit cards []
        = take 1 (omap (fun card => Part001.parse_card (clean (textContent card))) cards))
     ∧ (∀ blocks,
          Part000.parse_blocks limit blocks [] = take 1 (omap Part000.parse_block blocks))
     ∧ (∀ blocks,
          Fetch.parse_blocks limit blocks [] = take 1 (omap fallback_block blocks))
     ∧ (∀ rs, dedupe_capped limit ∅ 0 rs = take 1 (dedupe_from ∅ rs))).
Proof.
  assert (∀ cards,
            Part001.parse_cards limit cards []
            = take (Z.to_nat (Z.max 1 (limit * 3)))
                (omap (fun card => Part001.parse_card (clean (textContent card))) cards))
    as H1.
  { intros cards. rewrite parse_cards_take by (simpl; lia).
    cbn [app length]. by rewrite Nat.sub_0_r. }
  assert (∀ blocks,
            Part000.parse_blocks limit blocks []
            = take (Z.to_nat (Z.max 1 (limit * 3))) (omap Part000.parse_block blocks))
    as H2.
  { intros blocks. rewrite parse_blocks_000_take by (simpl; lia).
    cbn [app length]. by rewrite Nat.sub_0_r. }
  assert (∀ blocks,
            Fetch.parse_blocks limit blocks []
            = take (Z.to_nat (Z.max 1 limit)) (omap fallback_block blocks))
    as H3.
  { intros blocks. rewrite parse_blocks_take by (simpl; lia).
    cbn [app length]. by rewrite Nat.sub_0_r. }
  assert (∀ rs,
            dedupe_capped limit ∅ 0 rs
            = take (Z.to_nat (Z.max 1 limit)) (dedupe_from ∅ rs))
    as H4.
  { intros rs. rewrite dedupe_capped_take. by rewrite Z.sub_0_r. }
  do 4 (split; [done|]). intros Hle.
  assert (Z.to_nat (Z.max 1 (limit * 3)) = 1%nat) as E3 by lia.
  assert (Z.to_nat (Z.max 1 limit) = 1%nat) as E1 by lia.
  rewrite E3 in H1, H2. rewrite E1 in H3, H4. done.
Qed.

(** ** Distinct records *)

Lemma NoDup_map_inv {A B} (f : A → B) l : NoDup (map f l) → NoDup l.
Proof.
  induction l as [|x l IH]; [constructor|]. simpl.
  intros H. inversion H as [|? ? Hx Hl]; subst. constructor; [|by apply IH].
  intros Hin. apply Hx, list_elem_of_In, in_map, list_elem_of_In, Hin.
Qed.

(** X17. The records [part_001] and [part_000] return have pairwise
    distinct keys, so no record occurs twice among them. *)
Theorem evaluate_distinct (limit : Z) (doc : node) :
  NoDup (map key (Part001.evaluate limit doc))
  ∧ NoDup (Part001.evaluate limit doc)
  ∧ (∀ rs, Part000.evaluate limit doc = Some rs → NoDup (map key rs) ∧ NoDup rs).
Proof.
  assert (∀ out, NoDup (map key (slice0 (dedupe_capped limit ∅ 0 out) limit))) as H.
  { intros out. destruct (slice0_take (dedupe_capped limit ∅ 0 out) limit) as [k ->].
    rewrite dedupe_capped_take. apply NoDup_take_keys, NoDup_take_keys, dedupe_from_NoDup. }
  split; [apply H|]. split; [eapply NoDup_map_inv, H|].
  intros rs. unfold Part000.evaluate.
  destruct (Part000.find_root doc); [|done]. cbn [bind]. intros [= <-].
  split; [apply H|eapply NoDup_map_inv, H].
Qed.

(** X18. On records parsed from cards the key stands for the record: two
    cards whose records have the same key [`${reviewer}|${rating}|${text}`]
    have the same reviewer, rating and text, so the deduplication drops
    repetitions only. *)
Theorem card_key_determines_record (raw1 raw2 : list N) (r1 r2 : review) :
  Part001.parse_card raw1 = Some r1 → Part001.parse_card raw2 = Some r2 →
  key r1 = key r2 → r1 = r2.
Proof.
  intros H1%parse_card_record H2%parse_card_record. by apply key_injective.
Qed.

Lemma card_key_determines_record_witness : card_alice = card_alice.
Proof.
  apply (card_key_determines_record
           (str "alice_99 5.0 Great seller, fast shipping and well packed See more")
           (str "alice_99 11/11/2025 5.0 Great seller, fast shipping and well packed")).
  - vm_compute. reflexivity.
  - vm_compute. reflexivity.
  - reflexivity.
Defined.

(** ** The tokens, continued *)

Lemma rating_token_split s tok rest :
  Token.rating_token s = Some (tok, rest) →
  s = tok ++ rest ∧ Token.next_is_word rest = false.
Proof.
  destruct s as [|a [|b [|c r]]]; try done. simpl.
  destruct (_ && _) eqn:E; [|done]. intros [= <- <-].
  split; [done|]. apply andb_true_iff in E as [_ E]. by apply negb_true_iff in E.
Qed.

Lemma rating_match_from_split t :
  ∀ b tok,
    Token.rating_match_from b t = Some tok →
    ∃ pre post,
      t = pre ++ tok ++ post
      ∧ Token.next_is_word post = false
      ∧ match rev pre with [] => b = false | c :: _ => Js.is_word c = false end.
Proof.
  induction t as [|x t IH]; intros b tok; [done|].
  cbn [Token.rating_match_from].
  destruct (if b then None else Token.rating_token (x :: t)) as [[tok' rest]|] eqn:E.
  - intros [= <-]. destruct b; [done|].
    apply rating_token_split in E as [E Hw]. exists [], rest. by repeat split.
  - intros (pre & post & -> & Hw & Hpre)%IH.
    exists (x :: pre), post. repeat split; try done.
    simpl. destruct (rev pre) as [|c l]; simpl; done.
Qed.

(** X19. The rating of a block is read from a token of the block that
    stands between word boundaries; it lies between 0.0 and 5.9, and it
    prints back as the token, without the fraction when that is ".0". *)
Theorem getRating_token (t : list N) (n : number) :
  Part001.getRating t = Some n →
  ∃ pre a c post,
    t = pre ++ [a; 46; c] ++ post
    ∧ Js.is_digit05 a = true ∧ Js.is_digit c = true
    ∧ Token.next_is_word (rev pre) = false ∧ Token.next_is_word post = false
    ∧ n = Num.parseFloat [a; 46; c]
    ∧ Num.leb (Dec 0 0) n = true ∧ Num.leb n (Dec 59 (-1)) = true
    ∧ Num.to_string n = (if c =? 48 then [a] else [a; 46; c]).
Proof.
  unfold Part001.getRating, Token.rating_match.
  destruct (Token.rating_match_from false t) as [tok|] eqn:E; [|done].
  intros [= <-].
  pose proof (rating_match_shape t tok E) as (a & c & -> & Ha & Hc).
  apply rating_match_from_split in E as (pre & post & -> & Hpost & Hpre).
  exists pre, a, c, post.
  destruct (token_rating_bounds _ (token_rating_parse a c Ha Hc)) as [Hlo Hhi].
  repeat split; try done.
  - unfold Token.next_is_word. by destruct (rev pre).
  - apply is_digit05_cases in Ha. apply is_digit_cases in Hc.
    each_of Ha; each_of Hc; vm_compute; reflexivity.
Qed.

Lemma getRating_token_witness :
  ∃ pre a c post,
    bob_block = pre ++ [a; 46; c] ++ post
    ∧ Js.is_digit05 a = true ∧ Js.is_digit c = true
    ∧ Token.next_is_word (rev pre) = false ∧ Token.next_is_word post = false
    ∧ Dec 48 (-1) = Num.parseFloat [a; 46; c]
    ∧ Num.leb (Dec 0 0) (Dec 48 (-1)) = true ∧ Num.leb (Dec 48 (-1)) (Dec 59 (-1)) = true
    ∧ Num.to_string (Dec 48 (-1)) = (if c =? 48 then [a] else [a; 46; c]).
Proof. apply (getRating_token bob_block (Dec 48 (-1))). vm_compute. reflexivity. Defined.

Lemma take_drop_while p s : s = Js.take_while p s ++ Js.drop_while p s.
Proof.
  induction s as [|c r IH]; [done|]. simpl. destruct (p c); [|done].
  simpl. by rewrite <- IH.
Qed.

Lemma take_while_forallb p s : forallb p (Js.take_while p s) = true.
Proof.
  induction s as [|c r IH]; [done|]. simpl. destruct (p c) eqn:E; [|done].
  simpl. by rewrite E.
Qed.

Lemma drop_while_next p s :
  match Js.drop_while p s with [] => True | c :: _ => p c = false end.
Proof.
  destruct (Js.drop_while p s) as [|c r] eqn:E; [done|]. by eapply drop_while_head.
Qed.

(** X20. The reviewer of a block is its leading handle: the block is white
    space, then the handle, 3 to 25 characters of [[A-Za-z0-9_]], then
    something that does not start with such a character. *)
Theorem getReviewer_leading (t w : list N) :
  Part001.getReviewer t = Some w →
  ∃ ws rest,
    t = ws ++ w ++ rest
    ∧ forallb Js.is_space ws = true
    ∧ handle 3 25 w
    ∧ Token.next_is_word rest = false.
Proof.
  intros H. pose proof (leading_handle_handle t w H) as Hh.
  unfold Part001.getReviewer, Token.leading_handle in H. cbv zeta in H.
  destruct (_ && _); [|done]. injection H as <-.
  exists (Js.take_while Js.is_space t),
         (Js.drop_while Js.is_word (Js.drop_while Js.is_space t)).
  split; [|split; [apply take_while_forallb|split; [done|]]].
  - rewrite <- take_drop_while. apply take_drop_while.
  - pose proof (drop_while_next Js.is_word (Js.drop_while Js.is_space t)) as Hn.
    unfold Token.next_is_word. by destruct (Js.drop_while Js.is_word _).
Qed.

Lemma getReviewer_leading_witness :
  ∃ ws rest,
    bob_block = ws ++ str "bob_the_builder" ++ rest
    ∧ forallb Js.is_space ws = true
    ∧ handle 3 25 (str "bob_the_builder")
    ∧ Token.next_is_word rest = false.
Proof. apply (getReviewer_leading bob_block). vm_compute. reflexivity. Defined.

(** ** The text of a record *)

Lemma remove_all_from_length pat s : ∀ k, (length (Js.remove_all_from k pat s) ≤ length s)%nat.
Proof.
  induction s as [|c r IH]; intros k; [done|].
  cbn [Js.remove_all_from]. destruct k as [|k].
  - destruct (Js.starts_with true pat (c :: r)).
    + etransitivity; [apply IH|]. simpl. lia.
    + simpl. specialize (IH 0%nat). lia.
  - etransitivity; [apply IH|]. simpl. lia.
Qed.

Lemma strip_prefix_length ci pat s r :
  Js.strip_prefix ci pat s = Some r → (length r ≤ length s)%nat.
Proof.
  revert s. induction pat as [|p pat IH]; intros s; simpl.
  - by intros [= <-].
  - destruct s as [|c s]; [done|]. destruct (if ci then _ else _); [|done].
    intros H%IH. simpl. lia.
Qed.

Lemma strip_handle_length w body : (length (Token.strip_handle w body) ≤ length body)%nat.
Proof.
  unfold Token.strip_handle. destruct (Js.strip_prefix true w body) as [r|] eqn:E; [|done].
  etransitivity; [apply drop_while_length|]. by eapply strip_prefix_length.
Qed.

Lemma expect_length c s r : Token.expect c s = Some r → (length r ≤ length s)%nat.
Proof.
  destruct s as [|d s]; [done|]. simpl. destruct (d =? c); [|done].
  intros [= <-]. lia.
Qed.

Lemma digit_run_length lo hi s r : Token.digit_run lo hi s = Some r → (length r ≤ length s)%nat.
Proof.
  unfold Token.digit_run. cbv zeta. destruct (_ && _); [|done].
  intros [= <-]. apply drop_while_length.
Qed.

Lemma strip_date_length body : (length (Token.strip_date body) ≤ length body)%nat.
Proof.
  unfold Token.strip_date, Token.date_token.
  destruct (Token.digit_run 1 2 body) as [s1|] eqn:E1; [|done].
  destruct (Token.expect 47 s1) as [s2|] eqn:E2; [|done].
  destruct (Token.digit_run 1 2 s2) as [s3|] eqn:E3; [|done].
  destruct (Token.expect 47 s3) as [s4|] eqn:E4; [|done].
  destruct (Token.digit_run 4 4 s4) as [s5|] eqn:E5; [|done].
  destruct (Token.next_is_word s5); [done|].
  apply digit_run_length in E1, E3, E5. apply expect_length in E2, E4.
  pose proof (drop_while_length Js.is_space s5). lia.
Qed.

Lemma strip_rating_length body : (length (Token.strip_rating body) ≤ length body)%nat.
Proof.
  unfold Token.strip_rating.
  destruct (Token.rating_token body) as [[tok r]|] eqn:E; [|done].
  apply rating_token_split in E as [-> _]. rewrite length_app.
  pose proof (drop_while_length Js.is_space r). lia.
Qed.

Lemma body_of_length w raw : (length (Part001.body_of w raw) ≤ length raw)%nat.
Proof.
  unfold Part001.body_of. cbv zeta.
  repeat (etransitivity; [apply trim_length|]).
  etransitivity; [apply strip_rating_length|].
  etransitivity; [apply trim_length|].
  etransitivity; [apply strip_date_length|].
  etransitivity; [apply trim_length|].
  etransitivity; [apply strip_handle_length|].
  etransitivity; [apply trim_length|].
  apply remove_all_from_length.
Qed.

(** X21. The text of a record parsed from a card has at least 10
    characters and at most as many as the card (removal of "see more", the
    reviewer, a date and a rating only shortens), and it is trimmed. *)
Theorem card_text_bounds (raw : list N) (r : review) :
  Part001.parse_card raw = Some r →
  ∃ tx,
    text r = VStr tx
    ∧ (10 ≤ length tx ≤ length raw)%nat
    ∧ Js.trim tx = tx.
Proof.
  intros H. unfold Part001.parse_card, Part001.getRating, Part001.getReviewer in H.
  destruct (Part001.isNoise raw); [done|].
  destruct (Token.rating_match raw); [|done].
  destruct (Token.leading_handle raw) as [w|]; [|done]. cbv zeta in H.
  destruct (Nat.ltb_spec (length (Part001.body_of w raw)) 10) as [|Hlen]; [done|].
  destruct (Js.search _ _); [done|]. injection H as <-.
  exists (Part001.body_of w raw). split; [done|].
  split; [split; [done|apply body_of_length]|apply trim_idem].
Qed.

Lemma card_text_bounds_witness :
  ∃ tx,
    text (Review (VStr (str "bob_the_builder")) (VNum (Dec 48 (-1)))
            (VStr (str "11/11/2025 Fast shipment and great packaging"))) = VStr tx
    ∧ (10 ≤ length tx ≤ length bob_block)%nat
    ∧ Js.trim tx = tx.
Proof. apply (card_text_bounds bob_block). vm_compute. reflexivity. Defined.

(** ** The blocks of [part_000] *)

Lemma indexOf_first pat s :
  ∀ i, Js.indexOf pat s = Some i →
       Js.starts_with false pat (drop i s) = true
       ∧ ∀ j, (j < i)%nat → Js.starts_with false pat (drop j s) = false.
Proof.
  induction s as [|c r IH]; intros i; cbn [Js.indexOf].
  - destruct (Js.starts_with false pat []) eqn:E; [|done].
    intros [= <-]. split; [done|]. intros j Hj. lia.
  - destruct (Js.starts_with false pat (c :: r)) eqn:E.
    + intros [= <-]. split; [done|]. intros j Hj. lia.
    + destruct (Js.indexOf pat r) as [k|] eqn:Hk; [|done]. simpl.
      intros [= <-]. destruct (IH k eq_refl) as [H1 H2]. split; [done|].
      intros [|j] Hj; [done|]. simpl. apply H2. lia.
Qed.

Lemma indexOf_none pat s :
  Js.indexOf pat s = None → ∀ j, Js.starts_with false pat (drop j s) = false.
Proof.
  induction s as [|c r IH]; cbn [Js.indexOf].
  - destruct (Js.starts_with false pat []) eqn:E; [done|]. intros _ j. by destruct j.
  - destruct (Js.starts_with false pat (c :: r)) eqn:E; [done|].
    destruct (Js.indexOf pat r) as [k|] eqn:Hk; [done|]. intros _ [|j]; [done|].
    simpl. by apply IH.
Qed.

Lemma search_found m s : Js.search m s = true → ∃ j, m (drop j s) = true.
Proof.
  induction s as [|c r IH]; cbn [Js.search].
  - rewrite orb_false_r. intros H. by exists 0%nat.
  - intros [H|H]%orb_true_iff; [by exists 0%nat|].
    destruct (IH H) as [j Hj]. by exists (S j).
Qed.

Lemma starts_with_app ci pat a b :
  Js.starts_with ci pat a = true → Js.starts_with ci pat (a ++ b) = true.
Proof.
  unfold Js.starts_with. revert a. induction pat as [|p pat IH]; intros a; [done|].
  destruct a as [|c a]; [done|]. simpl.
  destruct (if ci then _ else _); [apply IH|done].
Qed.

Lemma starts_with_take pat s i j :
  Js.starts_with false pat (drop j (take i s)) = true →
  pat ≠ [] → (j < i)%nat ∧ Js.starts_with false pat (drop j s) = true.
Proof.
  intros H Hne.
  destruct (Nat.lt_ge_cases j (length (take i s))) as [Hlt|Hge].
  - split; [rewrite length_take in Hlt; lia|].
    rewrite <- (take_drop i s) at 1. rewrite drop_app_le by lia.
    by apply starts_with_app.
  - rewrite drop_ge in H by done. by destruct pat.
Qed.

Lemma toLowerCase_units s :
  forallb (fun c => negb (c =? 304)) s = true → Js.toLowerCase s = map Js.lower_unit s.
Proof.
  unfold Js.toLowerCase. induction s as [|c s IH]; [done|]. simpl.
  intros [Hc Hs]%andb_prop. apply negb_true_iff in Hc. rewrite Hc. simpl.
  by rewrite IH.
Qed.

Lemma toLowerCase_app a b : Js.toLowerCase (a ++ b) = Js.toLowerCase a ++ Js.toLowerCase b.
Proof. apply flat_map_app. Qed.

Lemma starts_with_nil ci pat : pat ≠ [] → Js.starts_with ci pat [] = false.
Proof. by destruct pat. Qed.

(** The cut of [part_000] is counted in the lowered block and made in the
    block itself: a dotted capital I (U+0130) before "see more" moves it to
    the right, here past the whole of "see more". *)
Example parse_block_dotted :
  Part000.parse_block dotted_block
  = Some (Review (VStr (str "amy_1")) (VNum (Dec 45 (-1))) (VStr dotted_block)).
Proof. vm_compute. reflexivity. Qed.

(** X22. On a block without U+0130 (the one unit whose lower case is
    longer), the text [part_000] keeps has at least five pieces between
    spaces and is the block cut at the first "see more", in any case: the
    whole block when it has no "see more" or starts with it, and otherwise
    a non-empty prefix after which the block goes on with "see more", and
    within which no "see more" starts. *)
Theorem parse_block_text (t : list N) (r : review) :
  Part000.parse_block t = Some r →
  forallb (fun c => negb (c =? 304)) t = true →
  ∃ tx rest,
    text r = VStr tx
    ∧ t = tx ++ rest
    ∧ (5 ≤ Part000.split_count tx)%nat
    ∧ ((rest = []
        ∧ ∀ j, Js.starts_with false (str "see more") (drop j (Js.toLowerCase t)) = false)
       ∨ (rest = []
          ∧ Js.starts_with false (str "see more") (Js.toLowerCase t) = true)
       ∨ (tx ≠ []
          ∧ Js.starts_with false (str "see more") (Js.toLowerCase rest) = true
          ∧ ∀ j, (j < length tx)%nat →
                 Js.starts_with false (str "see more") (drop j (Js.toLowerCase t)) = false)).
Proof.
  unfold Part000.parse_block.
  destruct (Token.rating_match t); [|done].
  destruct (Token.word_match_from false t); [|done]. cbv zeta.
  match goal with |- context [Part000.split_count ?x] =>
    set (tx := x); destruct (Nat.ltb_spec (Part000.split_count tx) 5) as [|Hlen]; [done|] end.
  intros [= <-] Ht.
  assert (str "see more" ≠ []) as Hpat by done.
  subst tx.
  destruct (Js.indexOf (str "see more") (Js.toLowerCase t)) as [[|idx]|] eqn:Hi.
  - exists t, []. rewrite List.app_nil_r. do 3 (split; [done|]). right; left.
    split; [done|]. by destruct (indexOf_first _ _ _ Hi) as [H _].
  - destruct (indexOf_first _ _ _ Hi) as [Hat Hmin].
    assert (S idx < length t)%nat as Hlt.
    { destruct (Nat.lt_ge_cases (S idx) (length t)) as [|Hge]; [done|].
      rewrite (toLowerCase_units t Ht), drop_ge in Hat
        by (rewrite length_map; lia).
      by rewrite starts_with_nil in Hat. }
    exists (take (S idx) t), (drop (S idx) t).
    split; [done|]. split; [by rewrite take_drop|]. split; [done|].
    right; right. split; [by destruct t|].
    rewrite <- (take_drop (S idx) t) in Ht. rewrite forallb_app in Ht.
    apply andb_prop in Ht as [Ha Hb].
    split.
    + rewrite <- (take_drop (S idx) t), toLowerCase_app in Hat.
      rewrite drop_app_length' in Hat; [done|].
      rewrite (toLowerCase_units _ Ha), length_map, length_take. lia.
    + intros j Hj. apply Hmin. rewrite length_take in Hj. lia.
  - exists t, []. rewrite List.app_nil_r. do 3 (split; [done|]). left.
    split; [done|]. apply indexOf_none, Hi.
Qed.

Lemma parse_block_text_witness :
  ∃ tx rest,
    text (Review (VStr (str "bob_the_builder")) (VNum (Dec 48 (-1)))
            (VStr (str "bob_the_builder 4.8 11/11/2025 Fast shipment and great packaging ")))
    = VStr tx
    ∧ bob_block = tx ++ rest
    ∧ (5 ≤ Part000.split_count tx)%nat
    ∧ ((rest = []
        ∧ ∀ j, Js.starts_with false (str "see more") (drop j (Js.toLowerCase bob_block)) = false)
       ∨ (rest = []
          ∧ Js.starts_with false (str "see more") (Js.toLowerCase bob_block) = true)
       ∨ (tx ≠ []
          ∧ Js.starts_with false (str "see more") (Js.toLowerCase rest) = true
          ∧ ∀ j, (j < length tx)%nat →
                 Js.starts_with false (str "see more") (drop j (Js.toLowerCase bob_block)) = false)).
Proof. apply (parse_block_text bob_block); vm_compute; reflexivity. Defined.

Lemma find_none_iff {A} (p : A → bool) l :
  List.find p l = None ↔ Forall (fun x => p x = false) l.
Proof.
  induction l as [|x l IH]; simpl; [by split; [constructor|]|].
  destruct (p x) eqn:E.
  - split; [done|]. intros H. inversion H; subst. congruence.
  - rewrite IH. split; [by constructor|]. intros H. by inversion H.
Qed.

(** X23. [part_000] throws exactly when the page has no [body] and no
    [section] or [div] whose text has "reviews (n)": then there is no element
    to search.  In every other case it saves a document. *)
Theorem main_000_throws_iff (limit : Z) (now : list N) (doc : node) :
  Part000.main limit now doc = None
  ↔ document_body doc = None
    ∧ Forall (fun el =>
                Js.search Token.reviews_count (clean (textContent (fst el))) = false)
        (querySelectorAll [Section; Div] doc).
Proof.
  assert (Part000.main limit now doc = None ↔ Part000.find_root doc = None) as ->.
  { destruct (Part000.evaluate limit doc) as [rs|] eqn:Hev.
    - destruct (main_000_defined limit now doc rs Hev) as (es & _ & ->).
      unfold Part000.evaluate in Hev. by destruct (Part000.find_root doc).
    - unfold Part000.main. rewrite Hev.
      unfold Part000.evaluate in Hev. by destruct (Part000.find_root doc). }
  unfold Part000.find_root.
  destruct (List.find _ _) as [el|] eqn:Hf.
  - split; [done|]. intros [_ Hall].
    apply find_some in Hf as [Hin Hel]. apply in_map_iff in Hin as (x & <- & Hin).
    eapply List.Forall_forall in Hall; [|exact Hin]. congruence.
  - split; [|by intros [? _]]. intros Hb. split; [done|].
    apply find_none_iff in Hf. apply List.Forall_forall. intros x Hx.
    eapply List.Forall_forall in Hf; [exact Hf|]. by apply in_map.
Qed.

(** ** First-seen order *)

Lemma dedupe_from_first seen pre r post :
  key r ∉ seen → (∀ x, In x pre → key x ≠ key r) →
  In r (dedupe_from seen (pre ++ r :: post)).
Proof.
  revert seen. induction pre as [|x pre IH]; intros seen Hr Hpre; simpl.
  - destruct (decide (key r ∈ seen)); [done|by left].
  - destruct (decide (key x ∈ seen)).
    + apply IH; [done|]. intros y Hy. apply Hpre. by right.
    + right. apply IH.
      * apply not_elem_of_union. split; [|done].
        intros Heq%elem_of_singleton. apply (Hpre x); [by left|done].
      * intros y Hy. apply Hpre. by right.
Qed.

Lemma NoDup_map_same {A B} (f : A → B) l a b :
  NoDup (map f l) → In a l → In b l → f a = f b → a = b.
Proof.
  induction l as [|x l IH]; [done|]. simpl.
  intros H. inversion H as [|? ? Hx Hl]; subst.
  intros [->|Ha] [->|Hb] Heq; [done| | |by apply IH].
  - exfalso. apply Hx. rewrite Heq. by apply list_elem_of_In, in_map.
  - exfalso. apply Hx. rewrite <- Heq. by apply list_elem_of_In, in_map.
Qed.

(** X24. The deduplication keeps the first record of every key: a record
    that no earlier record shares the key of is kept, and it is the only
    record of its key that is. *)
Theorem dedupe_keeps_first (pre post : list review) (r : review) :
  (∀ x, In x pre → key x ≠ key r) →
  In r (dedupe_from ∅ (pre ++ r :: post))
  ∧ (∀ r', In r' (dedupe_from ∅ (pre ++ r :: post)) → key r' = key r → r' = r).
Proof.
  intros Hpre.
  assert (In r (dedupe_from ∅ (pre ++ r :: post))) as Hin.
  { apply dedupe_from_first; [apply not_elem_of_empty|done]. }
  split; [done|]. intros r' Hr' Hk.
  by eapply NoDup_map_same; [apply dedupe_from_NoDup|..].
Qed.

Lemma dedupe_keeps_first_witness :
  In card_alice (dedupe_from ∅ ([card_bob] ++ card_alice :: [card_alice; card_bob]))
  ∧ (∀ r', In r' (dedupe_from ∅ ([card_bob] ++ card_alice :: [card_alice; card_bob])) →
           key r' = key card_alice → r' = card_alice).
Proof.
  apply (dedupe_keeps_first [card_bob] [card_alice; card_bob] card_alice).
  intros x [<-|[]]. vm_compute. discriminate.
Defined.

(** ** The normalizer on its own records *)

(** X25. A record [normalizeReview] returned, met again as an object with
    the keys [reviewer], [rating] and [text], is normalized to itself: the
    normalizer changes nothing in what it produced. *)
Theorem normalizeReview_stable (item : value) (r : review) :
  Fetch.normalizeReview item = Some r →
  Fetch.normalizeReview (record_object r) = Some r.
Proof.
  intros H.
  assert (nullish item = false) as Hi by (by destruct item).
  destruct (normalizeReview_shape item Hi) as (rv & rt & tx & _ & _ & _ & Heq).
  rewrite Heq in H. injection H as <-.
  rewrite <- (clean_idempotent (match rv with VStr s => s | _ => [] end)) at 2.
  rewrite <- (clean_idempotent (match tx with VStr s => s | _ => [] end)) at 2.
  unfold Fetch.clean_string.
  generalize (clean (match rv with VStr s => s | _ => [] end)) as a.
  generalize (clean (match tx with VStr s => s | _ => [] end)) as c.
  intros c a.
  destruct (coerce_rating_cases rt) as [->|(n & -> & Hn)].
  - cbv -[clean]. reflexivity.
  - cbv -[clean Num.isNaN]. by rewrite Hn.
Qed.

Lemma normalizeReview_stable_witness :
  Fetch.normalizeReview
    (record_object
       (Review (VStr (str "alice99")) (VNum (Dec 47 (-1)))
          (VStr (str "Great seller, fast shipping!"))))
  = Some (Review (VStr (str "alice99")) (VNum (Dec 47 (-1)))
            (VStr (str "Great seller, fast shipping!"))).
Proof. apply (normalizeReview_stable alice). vm_compute. reflexivity. Defined.

(** ** The default rating *)

Lemma number_rating_kept (P : review → Prop) rs es :
  (∀ r, P r → is_number (rating r) = true) →
  Forall P rs →
  Forall2 (fun r e => ∃ rv tx,
             reviewer r = VStr rv ∧ text r = VStr tx
             ∧ e = Entry (clean rv)
                     (if is_number (rating r) then rating r else VNum (Dec 5 0))
                     (clean tx)) rs es →
  Forall2 (fun r e => out_rating e = rating r ∧ is_number (rating r) = true) rs es.
Proof.
  intros HP Hrs HR. eapply Forall2_with_Forall; [exact Hrs|exact HR|].
  intros r e Hr (rv & tx & _ & _ & ->). cbn [out_rating].
  by rewrite (HP r Hr).
Qed.

Lemma network_record_number r : network_record r → is_number (rating r) = true.
Proof. by intros (rv & n & tx & -> & _). Qed.

Lemma dom_record_number r : dom_record r → is_number (rating r) = true.
Proof. by intros (rv & n & tx & -> & _). Qed.

(** X26. The default rating 5.0 is never used: in each of the three
    scripts the saved reviews are the records of the run, one for one and in
    order (those of the network, deduplicated, or else those of the page,
    cut to the limit in [fetch-whatnot-reviews.mjs]; those [page.evaluate]
    returns in the other two), every one of these records has a number as
    its rating, and that number is what is saved. *)
Theorem rating_default_never_used (limit : Z) (now : list N) (cs : list value) (doc : node) :
  (∃ net tried es,
     Fetch.extract_network cs [] = Some net
     ∧ Fetch.main limit now cs doc
       = Some (Fetch.Run tried
                 (Payload (str "whatnot") TARGET_URL now
                    (length (slice0 (match dedupe_from ∅ net with
                                     | [] => Fetch.dom_fallback limit doc
                                     | r :: rs => r :: rs
                                     end) limit)) es))
     ∧ Forall2 (fun r e => out_rating e = rating r ∧ is_number (rating r) = true)
         (slice0 (match dedupe_from ∅ net with
                  | [] => Fetch.dom_fallback limit doc
                  | r :: rs => r :: rs
                  end) limit) es)
  ∧ (∃ es,
       Part001.main limit now doc
       = Some (Payload (str "whatnot") TARGET_URL now
                 (length (Part001.evaluate limit doc)) es)
       ∧ Forall2 (fun r e => out_rating e = rating r ∧ is_number (rating r) = true)
           (Part001.evaluate limit doc) es)
  ∧ (∀ rs, Part000.evaluate limit doc = Some rs →
           ∃ es,
             Part000.main limit now doc
             = Some (Payload (str "whatnot") TARGET_URL now (length rs) es)
             ∧ Forall2 (fun r e => out_rating e = rating r ∧ is_number (rating r) = true)
                 rs es).
Proof.
  split; [|split].
  - destruct (main_strategies limit now cs doc) as (net & es & Hnet & Hrec & Hn & Hd).
    exists net. destruct (dedupe_from ∅ net) as [|r0 rs0] eqn:E.
    + destruct Hd as [Hes Hmain]; [done|].
      eexists _, es. split; [done|]. split; [exact Hmain|].
      assert (Forall dom_record (slice0 (Fetch.dom_fallback limit doc) limit)) as Hrs
        by apply slice0_Forall, dom_fallback_records.
      destruct (map_entries_ok (slice0 (Fetch.dom_fallback limit doc) limit))
        as (es' & Hes' & HR).
      { eapply Forall_impl; [exact Hrs|]. apply dom_record_strings. }
      rewrite Hes in Hes'. injection Hes' as <-.
      eapply number_rating_kept; [apply dom_record_number|done|done].
    + destruct Hn as [Hes Hmain]; [done|].
      eexists _, es. split; [done|]. split; [exact Hmain|].
      assert (Forall network_record (slice0 (r0 :: rs0) limit)) as Hrs.
      { apply slice0_Forall. rewrite <- E. by apply dedupe_from_Forall. }
      destruct (map_entries_ok (slice0 (r0 :: rs0) limit)) as (es' & Hes' & HR).
      { eapply Forall_impl; [exact Hrs|]. apply network_record_strings. }
      rewrite Hes in Hes'. injection Hes' as <-.
      eapply number_rating_kept; [apply network_record_number|done|done].
  - destruct (main_001_defined limit now doc) as (es & Hes & Hmain).
    exists es. split; [done|].
    destruct (map_entries_ok (Part001.evaluate limit doc)) as (es' & Hes' & HR).
    { eapply Forall_impl; [apply evaluate_records|]. apply dom_record_strings. }
    rewrite Hes in Hes'. injection Hes' as <-.
    eapply number_rating_kept; [apply dom_record_number|apply evaluate_records|done].
  - intros rs Hev. destruct (main_000_defined limit now doc rs Hev) as (es & Hes & Hmain).
    exists es. split; [done|].
    pose proof (evaluate_000_records _ _ _ Hev) as Hrs.
    destruct (map_entries_000_ok rs) as (es' & Hes' & HR).
    { eapply Forall_impl; [exact Hrs|]. apply block_record_strings. }
    rewrite Hes in Hes'. injection Hes' as <-.
    eapply Forall2_with_Forall; [exact Hrs|exact HR|].
    intros r e (rv0 & n & tx0 & -> & _) (rv & tx & _ & _ & ->). done.
Qed.
